(** * flora_esrgan: the upscaling pipeline of [flora_esrgan/upscale.py]

    A shallow embedding of the class [Upscale]: the seamless border
    handling of [run], [crop_seamless], the channel adaptation and alpha
    compositing of [upscale], [process], and the orchestration of [run].

    Conventions.
    - Real-valued samples (numpy float arrays) are exact rationals [Q]:
      comparisons, products and means are the mathematical ones, rounding
      error of the machine formats is not modelled.
    - An array of shape (H, W, C) is a list of rows, a row a list of
      pixels, a pixel a list of C samples.
    - Python exceptions are the [Raise] results of an error monad that
      also records what the code emits: log records, each call of the
      network and each call of the tile splitter.
    - OpenCV, numpy and Pillow primitives ([cv2.copyMakeBorder],
      [cv2.threshold], [cv2.cvtColor], [cv2.merge], [np.clip], [np.round],
      [Image.fromarray] ...) follow their documented semantics, the
      errors they raise included. *)

From Stdlib Require Import ZArith QArith Qround List String Ascii Bool Lia Lqa.
From stdpp Require Import gmap list.
Import ListNotations.

Local Open Scope Z_scope.

(** ** Exceptions and the effect monad *)

Inductive exn : Type :=
| OutOfMemory      (* RuntimeError of torch: the region does not fit *)
| RuntimeError     (* any other failure of the network *)
| LoadError        (* torch.load / architecture construction failed *)
| CvError          (* cv2.error *)
| ValueError       (* numpy: operands could not be broadcast together *)
| IndexError       (* numpy: index out of bounds for an axis *)
| KeyError         (* dict lookup of a missing key *)
| TypeError.       (* Pillow: cannot handle this data type *)

Inductive result (A : Type) : Type :=
| Ok (a : A)
| Raise (e : exn).
Arguments Ok {A} a.
Arguments Raise {A} e.

(** A tensor is the network's view of an image: channels first (C, H, W). *)
Definition tensor : Type := list (list (list Q)).

Inductive event : Type :=
| Warning (msg : string)                 (* self.log.warning(msg) *)
| ModelCall (input : tensor)             (* self.model(img_LR) *)
| SplitCall (max_depth : option nat).    (* ops.auto_split_upscale(..., max_depth=...) *)

Definition M (A : Type) : Type := (list event * result A)%type.

Definition ret {A} (a : A) : M A := ([], Ok a).
Definition raise {A} (e : exn) : M A := ([], Raise e).
Definition emit (ev : event) : M unit := ([ev], Ok tt).
Definition lift {A} (r : result A) : M A := ([], r).

Definition bind {A B} (m : M A) (k : A -> M B) : M B :=
  match m with
  | (evs, Ok a) => let (evs', r) := k a in (evs ++ evs', r)
  | (evs, Raise e) => (evs, Raise e)
  end.

Notation "x <- m ;; k" := (bind m (fun x => k))
  (at level 100, m at next level, right associativity).
Notation "m ;;; k" := (bind m (fun _ => k))
  (at level 100, right associativity).

Definition events {A} (m : M A) : list event := fst m.
Definition outcome {A} (m : M A) : result A := snd m.

(** ** Rational samples *)

Definition Qltb (x y : Q) : bool := negb (Qle_bool y x).

(** [np.clip(x, lo, hi)] = minimum(maximum(x, lo), hi), also torch's clamp. *)
Definition clip (lo hi x : Q) : Q :=
  let m := if Qltb x lo then lo else x in
  if Qltb hi m then hi else m.

(** [np.round]: to the nearest integer, ties to the even one. *)
Definition np_round (x : Q) : Z :=
  let f := Qfloor x in
  let r := (x - inject_Z f)%Q in
  if Qltb r (1#2) then f
  else if Qltb (1#2) r then f + 1
  else if Z.even f then f else f + 1.

(** ** Arrays *)

Definition array2 (A : Type) : Type := list (list A).
Definition array3 (A : Type) : Type := list (list (list A)).

(** [img.shape[0]], [img.shape[1]], [img.shape[2]]. *)
Definition height {A} (img : list (list A)) : nat := length img.
Definition width {A} (img : list (list A)) : nat :=
  match img with
  | row :: _ => length row
  | [] => 0%nat
  end.
Definition nchan {A} (img : array3 A) : nat :=
  match img with
  | (px :: _) :: _ => length px
  | _ => 0%nat
  end.

(** Every row has [w] pixels. *)
Definition rectangular {A} (w : nat) (img : list (list A)) : Prop :=
  Forall (fun row => length row = w) img.

(** An H x W x C array with H, W > 0: what [np.array] makes of a decoded
    picture. *)
Definition wf_image {A} (c : nat) (img : array3 A) : Prop :=
  (0 < height img)%nat /\ (0 < width img)%nat /\
  rectangular (width img) img /\
  Forall (Forall (fun px => length px = c)) img.

(** Python slice [l[start:stop]] with integer bounds: a negative bound
    counts from the end, both are clamped to the length. *)
Definition py_index (n i : Z) : Z :=
  if i <? 0 then Z.max 0 (i + n) else Z.min i n.

Definition py_slice {A} (start stop : Z) (l : list A) : list A :=
  let n := Z.of_nat (length l) in
  let a := py_index n start in
  let b := py_index n stop in
  firstn (Z.to_nat (b - a)) (skipn (Z.to_nat a) l).

(** ** Seamless borders *)

Inductive SeamlessOptions : Type :=
| TILE | MIRROR | REPLICATE | ALPHA_PAD.

Inductive BorderType : Type :=
| BORDER_CONSTANT | BORDER_REPLICATE | BORDER_REFLECT_101 | BORDER_WRAP.

(** [cv::borderInterpolate(p, len, borderType)]: the source coordinate of
    the extrapolated coordinate [p]; [None] stands for the constant
    border (OpenCV's -1).
    -  BORDER_REPLICATE:    aaaaaa|abcdefgh|hhhhhhh
    -  BORDER_REFLECT_101:  gfedcb|abcdefgh|gfedcba
    -  BORDER_WRAP:         cdefgh|abcdefgh|abcdefg
    -  BORDER_CONSTANT:     iiiiii|abcdefgh|iiiiiii *)
Definition borderInterpolate (p len : Z) (bt : BorderType) : option Z :=
  if (0 <=? p) && (p <? len) then Some p
  else match bt with
       | BORDER_REPLICATE => Some (if p <? 0 then 0 else len - 1)
       | BORDER_REFLECT_101 =>
           if len =? 1 then Some 0
           else let period := 2 * (len - 1) in
                let q := p mod period in
                Some (if q <? len then q else period - q)
       | BORDER_WRAP => Some (p mod len)
       | BORDER_CONSTANT => None
       end.

(** [cv2.copyMakeBorder(src, top, bottom, left, right, borderType, value)]
    on the pixels of [src]. *)
Definition copyMakeBorder {A} (src : list (list A))
    (top bottom left right : nat) (bt : BorderType) (value : A)
  : list (list A) :=
  let rows := Z.of_nat (height src) in
  let cols := Z.of_nat (width src) in
  map (fun i =>
    map (fun j =>
      match borderInterpolate (Z.of_nat i - Z.of_nat top) rows bt,
            borderInterpolate (Z.of_nat j - Z.of_nat left) cols bt with
      | Some y, Some x => nth (Z.to_nat x) (nth (Z.to_nat y) src []) value
      | _, _ => value
      end)
      (seq 0 (left + width src + right)))
    (seq 0 (top + height src + bottom)).

(** The seamless pre-pass of [run] (lines 119-131); [zero] is the pixel
    OpenCV makes of [value=[0, 0, 0, 0]]. *)
Definition seamless_pad {A} (zero : A) (seamless : option SeamlessOptions)
    (img : list (list A)) : list (list A) :=
  match seamless with
  | Some TILE => copyMakeBorder img 16 16 16 16 BORDER_WRAP zero
  | Some MIRROR => copyMakeBorder img 16 16 16 16 BORDER_REFLECT_101 zero
  | Some REPLICATE => copyMakeBorder img 16 16 16 16 BORDER_REPLICATE zero
  | Some ALPHA_PAD => copyMakeBorder img 16 16 16 16 BORDER_CONSTANT zero
  | None => img
  end.

(** [Upscale.crop_seamless] *)
Definition crop_seamless {A} (img : list (list A)) (scale : Z)
  : list (list A) :=
  let img_height := Z.of_nat (height img) in
  let img_width := Z.of_nat (width img) in
  let y := 16 * scale in
  let x := 16 * scale in
  let h := img_height - (32 * scale) in
  let w := img_width - (32 * scale) in
  map (py_slice x (x + w)) (py_slice y (y + h) img).

(** ** Array primitives of numpy and OpenCV *)

Local Open Scope Q_scope.

(** Integer sample types of the arrays [np.array] makes of a picture. *)
Inductive dtype : Type := UInt8 | UInt16 | Int32.

(** [np.iinfo(dtype).max] *)
Definition iinfo_max (d : dtype) : Z :=
  match d with
  | UInt8 => 255
  | UInt16 => 65535
  | Int32 => 2147483647
  end%Z.

Definition pmap {A B} (f : A -> B) (img : list (list A)) : list (list B) :=
  map (map f) img.

Definition amap {A B} (f : A -> B) (img : array3 A) : array3 B :=
  pmap (map f) img.

(** Element-wise pairing of two planes or images of the same H x W. *)
Definition zip2 {A B C} (f : A -> B -> C)
    (a : list (list A)) (b : list (list B)) : list (list C) :=
  zip_with (zip_with f) a b.

Fixpoint same_length {A B} (a : list A) (b : list B) : bool :=
  match a, b with
  | [], [] => true
  | _ :: a', _ :: b' => same_length a' b'
  | _, _ => false
  end.

Fixpoint all2 {A B} (p : A -> B -> bool) (a : list A) (b : list B) : bool :=
  match a, b with
  | [], [] => true
  | x :: a', y :: b' => p x y && all2 p a' b'
  | _, _ => false
  end.

(** Equal shape[:2], and equal full shape. *)
Definition same_hw {A B} (a : list (list A)) (b : list (list B)) : bool :=
  all2 same_length a b.
Definition same_shape {A B} (a : array3 A) (b : array3 B) : bool :=
  all2 (all2 same_length) a b.

(** [img[:, :, :n]] *)
Definition channels_upto {A} (n : nat) (img : array3 A) : array3 A :=
  pmap (firstn n) img.

(** [img[:, :, k]] for an index the shape admits. *)
Definition channel (k : nat) (img : array3 Q) : array2 Q :=
  pmap (fun px => nth k px 0) img.

(** [img[:, :, k]], IndexError when the array has no channel [k]. *)
Definition get_channel (k : nat) (img : array3 Q) : result (array2 Q) :=
  if (k <? nchan img)%nat then Ok (channel k img) else Raise IndexError.

(** [img[:, :, idx]] with a list of indices (fancy indexing). *)
Definition take_channels (idx : list nat) (img : array3 Q) : array3 Q :=
  pmap (fun px => map (fun k => nth k px 0) idx) img.

(** [cv2.merge(planes)]: planes of one size, interleaved. *)
Definition merge (planes : list (array2 Q)) : result (array3 Q) :=
  match planes with
  | [] => Raise CvError
  | p0 :: ps =>
      if forallb (same_hw p0) ps
      then Ok (fold_left (zip2 (fun px v => px ++ [v])) ps
                         (pmap (fun v => [v]) p0))
      else Raise CvError
  end.

(** [np.dstack((img, plane))] *)
Definition dstack (img : array3 Q) (plane : array2 Q) : result (array3 Q) :=
  if same_hw img plane then Ok (zip2 (fun px v => px ++ [v]) img plane)
  else Raise ValueError.

(** [a - b] on arrays of one shape (numpy would also broadcast axes of
    length one; that case is a ValueError here). *)
Definition arr_sub (a b : array3 Q) : result (array3 Q) :=
  if same_shape a b then Ok (zip2 (zip_with Qminus) a b)
  else Raise ValueError.

(** [np.mean(img, axis=2)] *)
Definition mean (px : list Q) : Q :=
  fold_left Qplus px 0 / inject_Z (Z.of_nat (length px)).
Definition mean_axis2 (img : array3 Q) : array2 Q := pmap mean img.

(** [cv2.threshold(src, thresh, maxval, cv2.THRESH_BINARY)]:
    dst = maxval if src > thresh else 0. *)
Definition threshold_binary (thresh maxval : Q) (src : Q) : Q :=
  if Qltb thresh src then maxval else 0.

(** [cv2.cvtColor(img, cv2.COLOR_BGR2BGRA)] on a float image: three
    channels get an alpha of 1.0, four are kept, anything else is refused. *)
Definition cvtColor_BGR2BGRA (img : array3 Q) : result (array3 Q) :=
  if (nchan img =? 3)%nat then Ok (pmap (fun px => px ++ [1]) img)
  else if (nchan img =? 4)%nat then Ok img
  else Raise CvError.

(** [cv2.cvtColor(img, cv2.COLOR_GRAY2BGR)] on an integer array of the
    sample type [depth]: every sample three times.  OpenCV converts 8-bit
    and 16-bit unsigned images; it raises cv2.error for the depth CV_32S
    (numpy's int32) and for an image without pixels. *)
Definition cvtColor_GRAY2BGR {A} (depth : dtype) (img : array2 A)
  : result (array3 A) :=
  match depth with
  | Int32 => Raise CvError
  | UInt8 | UInt16 =>
      if (0 <? height img)%nat && (0 <? width img)%nat
      then Ok (pmap (fun v => [v; v; v]) img)
      else Raise CvError
  end.

(** [output[:, :, 3] = f(output[:, :, 3])] *)
Definition map_channel3 (f : Q -> Q) (output : array3 Q)
  : result (array3 Q) :=
  if (nchan output <? 4)%nat then Raise IndexError
  else Ok (pmap (fun px => <[3%nat := f (nth 3 px 0)]> px) output).

(** [np.transpose(img, (2, 0, 1))] and [np.transpose(t, (1, 2, 0))]. *)
Definition hwc_to_chw (img : array3 Q) : tensor :=
  map (fun k => channel k img) (seq 0 (nchan img)).
Definition chw_to_hwc (t : tensor) : array3 Q :=
  let plane0 := nth 0 t [] in
  map (fun y =>
    map (fun x => map (fun plane => nth x (nth y plane []) 0) t)
        (seq 0 (width plane0)))
    (seq 0 (height plane0)).

(** ** The orchestrator object *)

Inductive AlphaOptions : Type :=
| NO_ALPHA | BG_DIFFERENCE | ALPHA_SEPARATELY | SWAPPING.

Inductive ndarray (A : Type) : Type :=
| Arr2 (a : array2 A)      (* img.ndim == 2 *)
| Arr3 (a : array3 A).     (* img.ndim == 3 *)
Arguments Arr2 {A} a.
Arguments Arr3 {A} a.

Record int_array : Type := {
  arr_dtype : dtype;
  arr_data : ndarray Z
}.

(** What [load_model] keeps of a checkpoint: the network's forward pass
    and the attributes read into [last_in_nc], [last_out_nc] and
    [last_scale]. *)
Record Model : Type := {
  forward : tensor -> result tensor;
  in_nc : nat;
  out_nc : nat;
  scale : Z
}.

Record Upscale : Type := {
  model_str : string;
  input : int_array;
  seamless : option SeamlessOptions;
  cpu : bool;
  fp16 : bool;
  cache_max_split_depth : bool;
  binary_alpha : bool;
  ternary_alpha : bool;
  alpha_threshold : Q;
  alpha_boundary_offset : Q;
  alpha_mode : option AlphaOptions;
  last_model : string;
  last_in_nc : nat;
  last_out_nc : nat;
  last_scale : Z;
  model : tensor -> result tensor
}.

(** ** [Upscale.process] *)

(** The array handed to the network: BGR(A) to RGB(A), channels first. *)
Definition to_tensor (img : array3 Q) : tensor :=
  let img :=
    if (nchan img =? 3)%nat then take_channels [2; 1; 0]%nat img
    else if (nchan img =? 4)%nat then take_channels [2; 1; 0; 3]%nat img
    else img in
  hwc_to_chw img.

(** What is made of the network's answer: clamp to [0, 1], RGB(A) to
    BGR(A), channels last. *)
Definition of_tensor (output : tensor) : array3 Q :=
  let output := amap (clip 0 1) output in
  let output :=
    if (length output =? 3)%nat
    then map (fun k => nth k output []) [2; 1; 0]%nat
    else if (length output =? 4)%nat
    then map (fun k => nth k output []) [2; 1; 0; 3]%nat
    else output in
  chw_to_hwc output.

Definition process (self : Upscale) (img : array3 Q) : M (array3 Q) :=
  let img_LR := to_tensor img in
  emit (ModelCall img_LR) ;;;
  output <- lift (model self img_LR) ;;
  ret (of_tensor output).

(** ** [Upscale.upscale] *)

(** [img * 1.0 / np.iinfo(img.dtype).max] *)
Definition normalize (img : int_array) : ndarray Q :=
  let top := inject_Z (iinfo_max (arr_dtype img)) in
  let f := fun v : Z => inject_Z v * 1 / top in
  match arr_data img with
  | Arr2 a => Arr2 (pmap f a)
  | Arr3 a => Arr3 (amap f a)
  end.

(** Lines 275-279: the two composites, built channel by channel in place. *)
Definition bg_composites (img : array3 Q) : array3 Q * array3 Q :=
  let alpha := channel 3 img in
  fold_left
    (fun (acc : array3 Q * array3 Q) (c : nat) =>
       let (img1, img2) := acc in
       (zip2 (fun px a => <[c := nth c px 0 * a]> px) img1 alpha,
        zip2 (fun px a => <[c := (nth c px 0 - 1) * a + 1]> px) img2 alpha))
    (seq 0 3)
    (channels_upto 3 img, channels_upto 3 img).

(** Lines 283-285: the alpha of the difference, stacked and clipped. *)
Definition bg_assemble (output1 output2 : array3 Q) : result (array3 Q) :=
  match arr_sub output2 output1 with
  | Ok diff =>
      let alpha := pmap (fun m => 1 - m) (mean_axis2 diff) in
      match dstack output1 alpha with
      | Ok output => Ok (amap (clip 0 1) output)
      | Raise e => Raise e
      end
  | Raise e => Raise e
  end.

(** Lines 274-285: AlphaOptions.BG_DIFFERENCE *)
Definition alpha_bg_difference (self : Upscale) (img : array3 Q)
  : M (array3 Q) :=
  let (img1, img2) := bg_composites img in
  output1 <- process self img1 ;;
  output2 <- process self img2 ;;
  lift (bg_assemble output1 output2).

(** Lines 287-299: AlphaOptions.ALPHA_SEPARATELY *)
Definition alpha_separately (self : Upscale) (img : array3 Q)
  : M (array3 Q) :=
  let img1 := channels_upto 3 img in
  img2 <- lift (merge [channel 3 img; channel 3 img; channel 3 img]) ;;
  output1 <- process self img1 ;;
  output2 <- process self img2 ;;
  c0 <- lift (get_channel 0 output1) ;;
  c1 <- lift (get_channel 1 output1) ;;
  c2 <- lift (get_channel 2 output1) ;;
  c3 <- lift (get_channel 0 output2) ;;
  lift (merge [c0; c1; c2; c3]).

(** Lines 301-313: AlphaOptions.SWAPPING *)
Definition alpha_swapping (self : Upscale) (img : array3 Q)
  : M (array3 Q) :=
  img1 <- lift (merge [channel 0 img; channel 1 img; channel 2 img]) ;;
  img2 <- lift (merge [channel 1 img; channel 2 img; channel 3 img]) ;;
  output1 <- process self img1 ;;
  output2 <- process self img2 ;;
  c0 <- lift (get_channel 0 output1) ;;
  c1 <- lift (get_channel 1 output1) ;;
  c2 <- lift (get_channel 2 output1) ;;
  c3 <- lift (get_channel 2 output2) ;;
  lift (merge [c0; c1; c2; c3]).

(** Lines 315-318: the [else] of the strategies (NO_ALPHA, or no mode). *)
Definition alpha_remove (self : Upscale) (img : array3 Q)
  : M (array3 Q) :=
  let img1 := channels_upto 3 img in
  output <- process self img1 ;;
  lift (cvtColor_BGR2BGRA output).

(** Lines 274-318 *)
Definition alpha_strategy (self : Upscale) (img : array3 Q)
  : M (array3 Q) :=
  match alpha_mode self with
  | Some BG_DIFFERENCE => alpha_bg_difference self img
  | Some ALPHA_SEPARATELY => alpha_separately self img
  | Some SWAPPING => alpha_swapping self img
  | _ => alpha_remove self img
  end.

(** Lines 333-337: the nested [np.where]. *)
Definition ternary (lower upper a : Q) : Q :=
  if Qltb a lower then 0
  else if Qle_bool a upper then 1 # 2
  else 1.

(** Lines 320-338 *)
Definition alpha_quantize (self : Upscale) (output : array3 Q)
  : M (array3 Q) :=
  if binary_alpha self then
    let threshold := alpha_threshold self in
    lift (map_channel3 (threshold_binary threshold 1) output)
  else if ternary_alpha self then
    let half_transparent_lower_bound :=
      alpha_threshold self - alpha_boundary_offset self in
    let half_transparent_upper_bound :=
      alpha_threshold self + alpha_boundary_offset self in
    lift (map_channel3
            (ternary half_transparent_lower_bound
                     half_transparent_upper_bound) output)
  else ret output.

(** Lines 340-350: the [else] of the alpha test. *)
Definition adapt_channels (self : Upscale) (img : ndarray Q)
  : M (array3 Q) :=
  let img :=
    match img with
    | Arr2 a => pmap (fun v => repeat v (Nat.min (last_in_nc self) 3)) a
    | Arr3 a => a
    end in
  img <-
    (if (last_in_nc self <? nchan img)%nat then
       emit (Warning "Truncating image channels") ;;;
       ret (channels_upto (last_in_nc self) img)
     else if (nchan img =? 3)%nat && (last_in_nc self =? 4)%nat then
       ret (pmap (fun px => px ++ [1]) img)
     else ret img) ;;
  process self img.

(** The [if] of lines 266-271. *)
Definition takes_alpha_path (self : Upscale) (img : ndarray Q) : bool :=
  match img with
  | Arr3 a =>
      (nchan a =? 4)%nat && (last_in_nc self =? 3)%nat
      && (last_out_nc self =? 3)%nat
  | Arr2 _ => false
  end.

(** The value of [output] on reaching line 352, samples in [0, 1]. *)
Definition upscale_unit (self : Upscale) (img : int_array)
  : M (array3 Q) :=
  let img := normalize img in
  match img with
  | Arr3 a =>
      if takes_alpha_path self img then
        output <- alpha_strategy self a ;;
        alpha_quantize self output
      else adapt_channels self img
  | Arr2 _ => adapt_channels self img
  end.

(** Line 352: [(output * 255.0).round()] *)
Definition rescale (output : array3 Q) : array3 Q :=
  amap (fun v => inject_Z (np_round (v * 255))) output.

Definition upscale (self : Upscale) (img : int_array) : M (array3 Q) :=
  output <- upscale_unit self img ;;
  ret (rescale output).

(** ** [Upscale.__init__], [Upscale.run] *)

(** [rlt.astype(np.uint8)] on a float array: the fraction is dropped and
    a value outside 0..255 wraps; as numpy is compiled for x86-64 the
    conversion goes through a 32-bit integer, and a value that does not
    fit one comes out as 0. *)
Definition astype_uint8 (v : Q) : Z :=
  let z := Z.quot (Qnum v) (Z.pos (Qden v)) in
  (if (-2147483648 <=? z) && (z <=? 2147483647) then z mod 256 else 0)%Z.

(** [Image.fromarray(rlt)] on an 8-bit array of shape (H, W, C): Pillow
    has a mode for two (LA), three (RGB) and four (RGBA) channels, and
    raises TypeError for any other channel count, a single channel
    included.  The picture it returns holds the samples of the array.
    An array without pixels has no channel count in this representation
    and counts as one of 0 channels. *)
Definition Image_fromarray (rlt : array3 Z) : result (array3 Z) :=
  if (2 <=? nchan rlt)%nat && (nchan rlt <=? 4)%nat then Ok rlt
  else Raise TypeError.

Section Orchestrator.

(** [torch.load], the construction of the architecture the checkpoint
    belongs to and its transfer to the device (lines 196-249); all of
    them live outside this module. *)
Variable load_checkpoint : string -> result Model.

(** [ops.auto_split_upscale(lr_img, upscale_function, scale, max_depth)]
    of [utils/dataops], which returns the upscaled image and the depth
    it had to split to. *)
Variable auto_split_upscale :
  int_array -> (int_array -> M (array3 Q)) -> Z -> option nat ->
  M (array3 Q * nat).

(** [load_model] as [__init__] calls it: nothing is loaded yet, so the
    checkpoint is read. *)
Definition load_model (model_path : string) : result Model :=
  load_checkpoint model_path.

Definition __init__ (model_path : string) (input : int_array)
    (seamless : option SeamlessOptions) (cpu fp16 : bool)
    (cache_max_split_depth binary_alpha ternary_alpha : bool)
    (alpha_threshold alpha_boundary_offset : Q)
    (alpha_mode : option AlphaOptions) : result Upscale :=
  match load_model model_path with
  | Ok m =>
      Ok {| model_str := model_path;
            input := input;
            seamless := seamless;
            cpu := cpu;
            fp16 := fp16;
            cache_max_split_depth := cache_max_split_depth;
            binary_alpha := binary_alpha;
            ternary_alpha := ternary_alpha;
            alpha_threshold := alpha_threshold;
            alpha_boundary_offset := alpha_boundary_offset;
            alpha_mode := alpha_mode;
            last_model := model_path;
            last_in_nc := in_nc m;
            last_out_nc := out_nc m;
            last_scale := scale m;
            model := forward m |}
  | Raise e => Raise e
  end.

(** Lines 115-131: the picture as a three-dimensional array, padded;
    cv2.error when [cv2.cvtColor] refuses a two-dimensional picture. *)
Definition prepare (self : Upscale) : result int_array :=
  let img := input self in
  let converted :=
    match arr_data img with
    | Arr2 a => cvtColor_GRAY2BGR (arr_dtype img) a
    | Arr3 a => Ok a
    end in
  match converted with
  | Ok a =>
      Ok {| arr_dtype := arr_dtype img;
            arr_data := Arr3 (seamless_pad (repeat 0%Z (nchan a))
                                           (seamless self) a) |}
  | Raise e => Raise e
  end.

(** The body of [run] (lines 105-164); besides the picture it returns,
    the local [split_depths] as it stands when the function returns. *)
Definition run_body (self : Upscale)
  : M (array3 Z * gmap nat nat) :=
  let split_depths : gmap nat nat := ∅ in
  img <- lift (prepare self) ;;
  let final_scale := 1%Z in
  split <-
    (if cache_max_split_depth self && (0 <? size split_depths)%nat then
       match split_depths !! 0%nat with
       | Some d =>
           emit (SplitCall (Some d)) ;;;
           r <- auto_split_upscale img (upscale self)
                  (last_scale self) (Some d) ;;
           let (rlt, depth) := r : array3 Q * nat in
           ret (rlt, split_depths)
       | None => raise KeyError
       end
     else
       emit (SplitCall None) ;;;
       r <- auto_split_upscale img (upscale self)
              (last_scale self) None ;;
       let (rlt, depth) := r : array3 Q * nat in
       ret (rlt, <[0%nat := depth]> split_depths)) ;;
  let (rlt, split_depths) := split : array3 Q * gmap nat nat in
  let final_scale := (final_scale * last_scale self)%Z in
  let rlt :=
    match seamless self with
    | Some _ => crop_seamless rlt final_scale
    | None => rlt
    end in
  let rlt := amap astype_uint8 rlt in
  img_output <- lift (Image_fromarray rlt) ;;
  ret (img_output, split_depths).

Definition run (self : Upscale) : M (array3 Z) :=
  r <- run_body self ;;
  ret (fst r).

End Orchestrator.

(** ** The quantization rules as relations on alpha samples *)

(** Three-way classification of an alpha sample [a] into [a']: below the
    lower bound 0, above the upper bound 1, between them one half; so a
    sample equal to the threshold, or to the upper bound, gives one half. *)
Definition ternary_spec (threshold offset a a' : Q) : Prop :=
  (a < threshold - offset -> a' = 0) /\
  (threshold + offset < a -> a' = 1) /\
  (threshold - offset <= a -> a <= threshold + offset -> a' = 1 # 2) /\
  (a == threshold -> a' = 1 # 2) /\
  (a == threshold + offset -> a' = 1 # 2).

(** Thresholding as the code does it: 1 strictly above the threshold,
    0 at or below it. *)
Definition binary_spec (threshold a a' : Q) : Prop :=
  (threshold < a -> a' = 1) /\
  (a <= threshold -> a' = 0) /\
  (a == threshold -> a' = 0).

(** ** The bg_difference strategy in the words of the specification *)

(** A BGRA pixel composited against black: colour * alpha. *)
Definition black_composite (px : list Q) : list Q :=
  match px with
  | [b; g; r; a] => [b * a; g * a; r * a]
  | _ => []
  end.

(** A BGRA pixel composited against white: (colour - 1) * alpha + 1. *)
Definition white_composite (px : list Q) : list Q :=
  match px with
  | [b; g; r; a] => [(b - 1) * a + 1; (g - 1) * a + 1; (r - 1) * a + 1]
  | _ => []
  end.

(** Clipping to [0, 1] as a relation between a sample [v] and what is
    made of it: a value of the interval, 0 for a negative sample, 1 for
    one above 1, and the sample itself when it lies in the interval. *)
Definition unit_clipped (v v' : Q) : Prop :=
  0 <= v' /\ v' <= 1 /\
  (v < 0 -> v' = 0) /\
  (1 < v -> v' = 1) /\
  (0 <= v -> v <= 1 -> v' = v).

(** The output pixel [px] for the network's answers [black] and [white]
    on the two composites: the three colours are those of the black
    answer and the alpha is 1 - mean over the three channels of
    (white - black), each of the four clipped to [0, 1]. *)
Definition bg_difference_spec (black white px : list Q) : Prop :=
  match black, white, px with
  | [b0; b1; b2], [w0; w1; w2], [p0; p1; p2; p3] =>
      unit_clipped b0 p0 /\ unit_clipped b1 p1 /\ unit_clipped b2 p2 /\
      unit_clipped (1 - ((w0 - b0) + (w1 - b1) + (w2 - b2)) / 3) p3
  | _, _, _ => False
  end.

(** Lines 283-285 on one pixel of the two answers. *)
Definition bg_difference_pixel (black white : list Q) : list Q :=
  match black, white with
  | [b0; b1; b2], [w0; w1; w2] =>
      [clip 0 1 b0; clip 0 1 b1; clip 0 1 b2;
       clip 0 1 (1 - ((w0 - b0) + (w1 - b1) + (w2 - b2)) / 3)]
  | _, _ => []
  end.

(** A four-channel pixel whose alpha is [top]. *)
Definition opaque_pixel (top : Q) (px : list Q) : Prop :=
  length px = 4%nat /\ nth 3 px 0 = top.

(** [px'] is made of the first [n] samples of [px] and of nothing else. *)
Definition first_samples {A} (n : nat) (px px' : list A) : Prop :=
  length px' = n /\
  forall k : nat, (k < n)%nat -> nth_error px' k = nth_error px k.

(** The pictures with at least one pixel that lines 115-117 let through:
    the three-dimensional ones, and the two-dimensional ones of 8-bit or
    16-bit samples. *)
Definition convertible (img : int_array) : Prop :=
  match arr_data img with
  | Arr3 a => (0 < height a)%nat /\ (0 < width a)%nat
  | Arr2 g =>
      arr_dtype img <> Int32 /\ (0 < height g)%nat /\ (0 < width g)%nat
  end.

(** The two-dimensional pictures of 32-bit samples (PIL mode I). *)
Definition refused (img : int_array) : Prop :=
  arr_dtype img = Int32 /\ exists g : array2 Z, arr_data img = Arr2 g.

(** The object with [ternary_alpha] switched off. *)
Definition without_ternary (self : Upscale) : Upscale :=
  {| model_str := model_str self;
     input := input self;
     seamless := seamless self;
     cpu := cpu self;
     fp16 := fp16 self;
     cache_max_split_depth := cache_max_split_depth self;
     binary_alpha := binary_alpha self;
     ternary_alpha := false;
     alpha_threshold := alpha_threshold self;
     alpha_boundary_offset := alpha_boundary_offset self;
     alpha_mode := alpha_mode self;
     last_model := last_model self;
     last_in_nc := last_in_nc self;
     last_out_nc := last_out_nc self;
     last_scale := last_scale self;
     model := model self |}.

(** ** Fixtures: a network, a loader and a splitter to run the code on *)

(** The identity network: three channels in and out, scale 1. *)
Definition id_model : Model :=
  {| forward := fun t => Ok t; in_nc := 3; out_nc := 3; scale := 1 |}.

Definition id_loader (path : string) : result Model := Ok id_model.

(** A splitter that upscales the whole region at once and reports that it
    had to split to depth 2. *)
Definition probe_splitter (img : int_array)
    (upscale_function : int_array -> M (array3 Q)) (scale : Z)
    (max_depth : option nat) : M (array3 Q * nat) :=
  out <- upscale_function img ;;
  ret (out, 2%nat).

(** An orchestrator around the identity network. *)
Definition demo (input : int_array) (seamless : option SeamlessOptions)
    (cache binary ternary : bool) (threshold offset : Q)
    (mode : option AlphaOptions) : Upscale :=
  {| model_str := "identity.pth";
     input := input;
     seamless := seamless;
     cpu := true;
     fp16 := false;
     cache_max_split_depth := cache;
     binary_alpha := binary;
     ternary_alpha := ternary;
     alpha_threshold := threshold;
     alpha_boundary_offset := offset;
     alpha_mode := mode;
     last_model := "identity.pth";
     last_in_nc := 3;
     last_out_nc := 3;
     last_scale := 1;
     model := forward id_model |}.

(** A 1 x 2 BGRA picture of 8-bit samples; the alphas are 0.2 and 1. *)
Definition bgra_1x2 : int_array :=
  {| arr_dtype := UInt8;
     arr_data := Arr3 [[[255; 0; 51; 51]; [10; 20; 30; 255]]]%Z |}.

(** A 2 x 2 BGR picture. *)
Definition bgr_2x2 : array3 Z :=
  [[[10; 20; 30]; [40; 50; 60]];
   [[70; 80; 90]; [15; 25; 35]]]%Z.

(** The samples of a picture as [upscale] normalizes them. *)
Definition unit_samples (img : int_array) : array3 Q :=
  match normalize img with
  | Arr3 a => a
  | Arr2 a => pmap (fun v => [v]) a
  end.

(** The pixel at row [y], column [x], and its alpha sample. *)
Definition pixel {A} (y x : nat) (img : array3 A) : list A :=
  nth x (nth y img []) [].
Definition alpha_at (y x : nat) (img : array3 Q) : Q :=
  nth 3 (pixel y x img) 0.

(** The identity network on BGRA pictures with the separate-alpha
    strategy, threshold 0.2 and offset 0.1. *)
Definition demo_separate (binary ternary : bool) : Upscale :=
  demo bgra_1x2 None false binary ternary (1 # 5) (1 # 10)
       (Some ALPHA_SEPARATELY).

(** The identity network with the bg_difference strategy. *)
Definition demo_bg (binary ternary : bool) : Upscale :=
  demo bgra_1x2 None false binary ternary (1 # 2) (1 # 5)
       (Some BG_DIFFERENCE).

(** The identity network with alpha mode none. *)
Definition demo_none (binary ternary : bool) (threshold : Q) : Upscale :=
  demo bgra_1x2 None false binary ternary threshold (1 # 5)
       (Some NO_ALPHA).

(** A 1 x 1 picture with five channels. *)
Definition five_channels : int_array :=
  {| arr_dtype := UInt8;
     arr_data := Arr3 [[[10; 20; 30; 40; 50]]]%Z |}.

(** The [max_depth] arguments of the splitter calls in a trace. *)
Definition split_calls (evs : list event) : list (option nat) :=
  omap (fun ev => match ev with
                  | SplitCall hint => Some hint
                  | _ => None
                  end) evs.

(** The local [split_depths] a successful [run_body] ends with. *)
Definition split_depths_of {A} (m : M (A * gmap nat nat))
  : option (gmap nat nat) :=
  match outcome m with
  | Ok r => Some (snd r)
  | Raise _ => None
  end.

(** An orchestrator with the split-depth cache switched on. *)
Definition demo_cached : Upscale :=
  demo bgra_1x2 None true false false (1 # 2) (1 # 5) None.

(** The result of a computation that succeeded. *)
Definition value_of {A} (m : M A) (default : A) : A :=
  match outcome m with
  | Ok a => a
  | Raise _ => default
  end.

(** ** [Upscale.load_model]: reading and blending checkpoints *)

(** The errors the loading code can meet. *)
Inductive load_error : Type :=
| PyIndexError        (* list index out of range *)
| PyKeyError          (* key missing from a dict *)
| PyValueError        (* int() of something that is no integer *)
| PyTypeError         (* float * dict *)
| PyAttributeError    (* .keys() of a tensor *)
| PyRuntimeError      (* tensors of different shapes added *)
| TorchLoadError.     (* torch.load failed *)

Inductive loaded (A : Type) : Type :=
| Loaded (a : A)
| Failed (e : load_error).
Arguments Loaded {A} a.
Arguments Failed {A} e.

Definition and_then {A B} (m : loaded A) (k : A -> loaded B) : loaded B :=
  match m with
  | Loaded a => k a
  | Failed e => Failed e
  end.

Notation "x <~ m ;; k" := (and_then m (fun x => k))
  (at level 100, m at next level, right associativity).

(** A weight tensor: its shape and its entries in row-major order. *)
Record weights : Type := {
  w_shape : list nat;
  w_data : list Q
}.

(** A value of a checkpoint: a tensor, or the nested dict a Real-ESRGAN
    checkpoint keeps under "params". *)
Inductive entry : Type :=
| Weights (w : weights)
| Nested (d : list (string * weights)).

(** An OrderedDict with string keys. *)
Definition state_dict : Type := list (string * entry).

Definition od_get {V} (k : string) (d : list (string * V)) : option V :=
  option_map snd (find (fun kv => String.eqb (fst kv) k) d).

Definition od_has {V} (k : string) (d : list (string * V)) : bool :=
  match od_get k d with
  | Some _ => true
  | None => false
  end.

(** [d[k] = v]: in place for a key already there, at the end otherwise. *)
Fixpoint od_set {V} (k : string) (v : V) (d : list (string * V))
  : list (string * V) :=
  match d with
  | [] => [(k, v)]
  | (k', v') :: d' =>
      if String.eqb k' k then (k, v) :: d' else (k', v') :: od_set k v d'
  end.

(** [c in s] for a one-character [c]. *)
Fixpoint contains (c : ascii) (s : string) : bool :=
  match s with
  | EmptyString => false
  | String a s' => Ascii.eqb a c || contains c s'
  end.

(** [s.split(sep)] for a one-character separator. *)
Fixpoint split_on (sep : ascii) (s : string) : list string :=
  match s with
  | EmptyString => [EmptyString]
  | String a s' =>
      if Ascii.eqb a sep then EmptyString :: split_on sep s'
      else match split_on sep s' with
           | piece :: rest => String a piece :: rest
           | [] => [String a EmptyString]
           end
  end.

(** [l[i]] of a Python list. *)
Definition py_item {A} (i : nat) (l : list A) : loaded A :=
  match nth_error l i with
  | Some x => Loaded x
  | None => Failed PyIndexError
  end.

(** [int(s)] on ASCII text: blanks around, a sign, decimal digits that
    single underscores may separate. *)
Definition is_space (c : ascii) : bool :=
  let n := nat_of_ascii c in
  ((9 <=? n) && (n <=? 13) || (28 <=? n) && (n <=? 32))%nat.

Definition digit_of (c : ascii) : option Z :=
  let n := nat_of_ascii c in
  if ((48 <=? n) && (n <=? 57))%nat then Some (Z.of_nat (n - 48))
  else None.

Fixpoint lstrip (l : list ascii) : list ascii :=
  match l with
  | c :: l' => if is_space c then lstrip l' else l
  | [] => []
  end.

Fixpoint digits (acc : Z) (after_digit : bool) (l : list ascii)
  : option Z :=
  match l with
  | [] => if after_digit then Some acc else None
  | c :: l' =>
      if Ascii.eqb c "_"%char then
        if after_digit then digits acc false l' else None
      else match digit_of c with
           | Some d => digits (10 * acc + d)%Z true l'
           | None => None
           end
  end.

Definition py_int (s : string) : loaded Z :=
  let l := rev (lstrip (rev (lstrip (list_ascii_of_string s)))) in
  let parsed :=
    match l with
    | c :: l' =>
        if Ascii.eqb c "-"%char then option_map Z.opp (digits 0 false l')
        else if Ascii.eqb c "+"%char then digits 0 false l'
        else digits 0 false l
    | [] => None
    end in
  match parsed with
  | Some z => Loaded z
  | None => Failed PyValueError
  end.

(** [x * v] for a float [x] and a checkpoint value. *)
Definition scale_entry (x : Q) (v : entry) : loaded weights :=
  match v with
  | Weights w =>
      Loaded {| w_shape := w_shape w; w_data := map (Qmult x) (w_data w) |}
  | Nested _ => Failed PyTypeError
  end.

Definition same_dims (a b : list nat) : bool := all2 Nat.eqb a b.

(** Broadcasting as torch does it.  The shapes are aligned at the last
    axis; two extents go together when they are equal or one of them is
    1, and an axis one shape lacks counts as 1.  The shapes below are
    reversed, last axis first. *)
Fixpoint broadcast_rev (a b : list nat) : option (list nat) :=
  match a, b with
  | [], _ => Some b
  | _, [] => Some a
  | x :: a', y :: b' =>
      match broadcast_rev a' b' with
      | Some rest =>
          if (x =? y)%nat then Some (x :: rest)
          else if (x =? 1)%nat then Some (y :: rest)
          else if (y =? 1)%nat then Some (x :: rest)
          else None
      | None => None
      end
  end.

Definition broadcast_shape (a b : list nat) : option (list nat) :=
  option_map (@rev nat) (broadcast_rev (rev a) (rev b)).

(** The row-major entries of a tensor of shape [from] seen at the shape
    [to], where [from] has the length of [to] and each of its extents is
    that of [to] or 1: an axis of extent 1 is repeated. *)
Fixpoint expand (from to : list nat) (data : list Q) : list Q :=
  match from, to with
  | f :: from', t :: to' =>
      let inner := fold_right Nat.mul 1%nat from' in
      if (f =? t)%nat
      then concat (map (fun i =>
                          expand from' to'
                            (firstn inner (skipn (i * inner) data)))
                       (seq 0 f))
      else concat (repeat (expand from' to' data) t)
  | _, _ => data
  end.

Definition expand_to (to : list nat) (w : weights) : list Q :=
  expand (repeat 1%nat (length to - length (w_shape w)) ++ w_shape w)
         to (w_data w).

(** [a + b] on tensors: entry by entry for one shape, after broadcasting
    otherwise; RuntimeError when the shapes do not go together. *)
Definition add_weights (a b : weights) : loaded weights :=
  if same_dims (w_shape a) (w_shape b)
  then Loaded {| w_shape := w_shape a;
                 w_data := zip_with Qplus (w_data a) (w_data b) |}
  else match broadcast_shape (w_shape a) (w_shape b) with
       | Some shape =>
           Loaded {| w_shape := shape;
                     w_data := zip_with Qplus (expand_to shape a)
                                              (expand_to shape b) |}
       | None => Failed PyRuntimeError
       end.

(** [int(part.split("@")[1]) / 100] *)
Definition weight_of (part : string) : loaded Q :=
  text <~ py_item 1 (split_on "@" part) ;;
  n <~ py_int text ;;
  Loaded (inject_Z n / 100).

(** Lines 205-209: the loop over [model_1.items()]. *)
Fixpoint blend_items (interps : list string) (model_2 : state_dict)
    (items : list (string * entry)) (acc : state_dict)
  : loaded state_dict :=
  match items with
  | [] => Loaded acc
  | (k, v_1) :: rest =>
      v_2 <~ match od_get k model_2 with
             | Some v => Loaded v
             | None => Failed PyKeyError
             end ;;
      part_1 <~ py_item 0 interps ;;
      w_1 <~ weight_of part_1 ;;
      a <~ scale_entry w_1 v_1 ;;
      part_2 <~ py_item 1 interps ;;
      w_2 <~ weight_of part_2 ;;
      b <~ scale_entry w_2 v_2 ;;
      c <~ add_weights a b ;;
      blend_items interps model_2 rest (od_set k (Weights c) acc)
  end.

(** The test of lines 198-200. *)
Definition is_interpolation (model_path : string) : bool :=
  (contains ":" model_path || contains "@" model_path)
  && (contains "&" model_path || contains "|" model_path).

Inductive Architecture : Type := RealESRGANv2 | SPSR | ESRGAN.

(** The tests of lines 214-217 and 226 on the keys of the state dict. *)
Definition detect_architecture (sd : state_dict) : loaded Architecture :=
  let otherwise :=
    if od_has "f_HR_conv1.0.weight" sd then SPSR else ESRGAN in
  match od_get "params" sd with
  | Some (Nested d) =>
      Loaded (if od_has "body.0.weight" d then RealESRGANv2 else otherwise)
  | Some (Weights _) => Failed PyAttributeError
  | None => Loaded otherwise
  end.

Section Loading.

(** [torch.load(path)], which gives the checkpoint's dict or fails. *)
Variable torch_load : string -> loaded state_dict.

(** Lines 198-211: the state dict of a path, blended when the path names
    two checkpoints. *)
Definition read_state_dict (model_path : string) : loaded state_dict :=
  if is_interpolation model_path then
    let interps := firstn 2 (split_on "&" model_path) in
    part_1 <~ py_item 0 interps ;;
    file_1 <~ py_item 0 (split_on "@" part_1) ;;
    model_1 <~ torch_load file_1 ;;
    part_2 <~ py_item 1 interps ;;
    file_2 <~ py_item 0 (split_on "@" part_2) ;;
    model_2 <~ torch_load file_2 ;;
    blend_items interps model_2 model_1 []
  else torch_load model_path.

(** Lines 196-242 up to the constructors: the state dict and the
    architecture it is given to. *)
Definition select_model (model_path : string)
  : loaded (Architecture * state_dict) :=
  sd <~ read_state_dict model_path ;;
  arch <~ detect_architecture sd ;;
  Loaded (arch, sd).

End Loading.

(** The blend of two tensors, entry by entry x*u + y*v. *)
Definition blend_weights (x y : Q) (a b : weights) : weights :=
  {| w_shape := w_shape a;
     w_data := zip_with (fun u v => x * u + y * v) (w_data a) (w_data b) |}.

Definition tensor_of (v : option entry) : weights :=
  match v with
  | Some (Weights w) => w
  | _ => {| w_shape := []; w_data := [] |}
  end.

(** The blend of two checkpoints over the keys of the first, in its order. *)
Definition blend_dict (x y : Q) (model_1 model_2 : state_dict)
  : state_dict :=
  map (fun kv =>
         (fst kv,
          Weights (blend_weights x y (tensor_of (Some (snd kv)))
                                 (tensor_of (od_get (fst kv) model_2)))))
      model_1.

(** Under every key of the first checkpoint (no key twice) both
    checkpoints hold a tensor, of one shape. *)
Definition blendable (model_1 model_2 : state_dict) : Prop :=
  NoDup (map fst model_1) /\
  Forall (fun kv =>
            exists w1 w2 : weights,
              snd kv = Weights w1 /\
              od_get (fst kv) model_2 = Some (Weights w2) /\
              w_shape w1 = w_shape w2)
         model_1.

(** A text without '&' and '@', and the path "file_1@w_1&file_2@w_2". *)
Definition plain (s : string) : Prop :=
  contains "&" s = false /\ contains "@" s = false.

Definition weighted (file weight : string) : string :=
  (file ++ String "@" weight)%string.

Definition interpolation_path (file_1 w_1 file_2 w_2 : string) : string :=
  (weighted file_1 w_1 ++ String "&" (weighted file_2 w_2))%string.

(** A checkpoint store with two one-tensor ESRGAN checkpoints. *)
Definition two_checkpoints (path : string) : loaded state_dict :=
  if String.eqb path "4xBox" then
    Loaded [("model.0.weight"%string,
             Weights {| w_shape := [2%nat]; w_data := [1; 2] |})]
  else if String.eqb path "4xPSNR" then
    Loaded [("model.0.weight"%string,
             Weights {| w_shape := [2%nat]; w_data := [5; 10] |})]
  else Failed TorchLoadError.

(** A store of Real-ESRGAN checkpoints: one nested dict under "params". *)
Definition nested_checkpoint (path : string) : loaded state_dict :=
  Loaded [("params"%string,
           Nested [("body.0.weight"%string,
                    {| w_shape := [1%nat]; w_data := [1] |})])].

(** A store in which every path loads to the same checkpoint. *)
Definition any_checkpoint (path : string) : loaded state_dict :=
  Loaded [("model.0.weight"%string,
           Weights {| w_shape := [2%nat]; w_data := [1; 2] |})].

(** ** Further fixtures *)

(** The 2 x 2 BGR picture and a 2 x 2 grey picture as 8-bit arrays. *)
Definition bgr_picture : int_array :=
  {| arr_dtype := UInt8; arr_data := Arr3 bgr_2x2 |}.
Definition grey_picture : int_array :=
  {| arr_dtype := UInt8; arr_data := Arr2 [[0; 51]; [102; 255]]%Z |}.

(** A 2 x 2 grey picture of 32-bit samples (PIL mode I). *)
Definition grey_int32 : int_array :=
  {| arr_dtype := Int32; arr_data := Arr2 [[0; 51]; [102; 255]]%Z |}.

(** A network with one channel in and out that returns what it is given,
    and an orchestrator around it for the 2 x 2 BGR picture. *)
Definition mono_model : Model :=
  {| forward := fun t => Ok t; in_nc := 1; out_nc := 1; scale := 1 |}.

Definition demo_mono : Upscale :=
  {| model_str := "mono.pth";
     input := bgr_picture;
     seamless := None;
     cpu := true;
     fp16 := false;
     cache_max_split_depth := false;
     binary_alpha := false;
     ternary_alpha := false;
     alpha_threshold := 1 # 2;
     alpha_boundary_offset := 1 # 5;
     alpha_mode := None;
     last_model := "mono.pth";
     last_in_nc := 1;
     last_out_nc := 1;
     last_scale := 1;
     model := forward mono_model |}.

(** A network that inverts every sample, v to 1 - v, behind the
    bg_difference strategy. *)
Definition invert_model : Model :=
  {| forward := fun t => Ok (amap (fun v => 1 - v) t);
     in_nc := 3; out_nc := 3; scale := 1 |}.

Definition demo_invert : Upscale :=
  {| model_str := "invert.pth";
     input := bgra_1x2;
     seamless := None;
     cpu := true;
     fp16 := false;
     cache_max_split_depth := false;
     binary_alpha := false;
     ternary_alpha := false;
     alpha_threshold := 1 # 2;
     alpha_boundary_offset := 1 # 5;
     alpha_mode := Some BG_DIFFERENCE;
     last_model := "invert.pth";
     last_in_nc := 3;
     last_out_nc := 3;
     last_scale := 1;
     model := forward invert_model |}.

(** The identity network behind a tiling orchestrator. *)
Definition demo_tile (input : int_array) : Upscale :=
  demo input (Some TILE) false false false (1 # 2) (1 # 5) None.

(** A network whose answers leave [0, 1]: every sample v becomes 3v - 1. *)
Definition stretch_model : Model :=
  {| forward := fun t => Ok (amap (fun v => 3 * v - 1) t);
     in_nc := 3; out_nc := 3; scale := 1 |}.

(** An orchestrator around [stretch_model]. *)
Definition demo_stretch (binary ternary : bool)
    (mode : option AlphaOptions) : Upscale :=
  {| model_str := "stretch.pth";
     input := bgra_1x2;
     seamless := None;
     cpu := true;
     fp16 := false;
     cache_max_split_depth := false;
     binary_alpha := binary;
     ternary_alpha := ternary;
     alpha_threshold := 1 # 2;
     alpha_boundary_offset := 1 # 5;
     alpha_mode := mode;
     last_model := "stretch.pth";
     last_in_nc := 3;
     last_out_nc := 3;
     last_scale := 1;
     model := forward stretch_model |}.

(** A network that never fits in memory, and an orchestrator around it. *)
Definition oom_model : Model :=
  {| forward := fun _ => Raise OutOfMemory;
     in_nc := 3; out_nc := 3; scale := 1 |}.

Definition demo_oom (mode : option AlphaOptions) : Upscale :=
  {| model_str := "oom.pth";
     input := bgra_1x2;
     seamless := None;
     cpu := true;
     fp16 := false;
     cache_max_split_depth := false;
     binary_alpha := false;
     ternary_alpha := false;
     alpha_threshold := 1 # 2;
     alpha_boundary_offset := 1 # 5;
     alpha_mode := mode;
     last_model := "oom.pth";
     last_in_nc := 3;
     last_out_nc := 3;
     last_scale := 1;
     model := forward oom_model |}.

(** The tensors of the network calls in a trace. *)
Definition model_calls (evs : list event) : list tensor :=
  omap (fun ev => match ev with
                  | ModelCall t => Some t
                  | _ => None
                  end) evs.

(** The output pixel of the separate and of the swapping strategy: the
    colour of the first answer, and for alpha channel 0, respectively
    channel 2, of the second answer. *)
Definition separate_pixel (colour alpha : list Q) : list Q :=
  match colour, alpha with
  | [b; g; r], [a0; _; _] => [b; g; r; a0]
  | _, _ => []
  end.
Definition swapping_pixel (colour second : list Q) : list Q :=
  match colour, second with
  | [b; g; r], [_; _; a2] => [b; g; r; a2]
  | _, _ => []
  end.

(** The identity network with the swapping strategy. *)
Definition demo_swapping : Upscale :=
  demo bgra_1x2 None false false false (1 # 2) (1 # 5) (Some SWAPPING).

(** The identity network taken for a four-channel model. *)
Definition demo_four_in (input : int_array) : Upscale :=
  {| model_str := "identity.pth";
     input := input;
     seamless := None;
     cpu := true;
     fp16 := false;
     cache_max_split_depth := false;
     binary_alpha := false;
     ternary_alpha := false;
     alpha_threshold := 1 # 2;
     alpha_boundary_offset := 1 # 5;
     alpha_mode := None;
     last_model := "identity.pth";
     last_in_nc := 4;
     last_out_nc := 4;
     last_scale := 1;
     model := forward id_model |}.

(** The object with [cache_max_split_depth] set to [b]. *)
Definition with_cache (b : bool) (self : Upscale) : Upscale :=
  {| model_str := model_str self;
     input := input self;
     seamless := seamless self;
     cpu := cpu self;
     fp16 := fp16 self;
     cache_max_split_depth := b;
     binary_alpha := binary_alpha self;
     ternary_alpha := ternary_alpha self;
     alpha_threshold := alpha_threshold self;
     alpha_boundary_offset := alpha_boundary_offset self;
     alpha_mode := alpha_mode self;
     last_model := last_model self;
     last_in_nc := last_in_nc self;
     last_out_nc := last_out_nc self;
     last_scale := last_scale self;
     model := model self |}.

(** A pixel with three equal samples. *)
Definition grey_pixel {A} (px : list A) : Prop :=
  exists v : A, px = [v; v; v].

(** A sample of the normalized domain, and a sample that is one of the
    integers 0..255. *)
Definition unit_sample (v : Q) : Prop := 0 <= v /\ v <= 1.
Definition byte_sample (v : Q) : Prop :=
  exists z : Z, v = inject_Z z /\ (0 <= z <= 255)%Z.

(** Every sample of an image satisfies [P]. *)
Definition all_samples {A} (P : A -> Prop) (img : array3 A) : Prop :=
  Forall (Forall (Forall P)) img.

(** Every sample of an array of either rank satisfies [P]. *)
Definition nd_samples {A} (P : A -> Prop) (img : ndarray A) : Prop :=
  match img with
  | Arr2 a => Forall (Forall P) a
  | Arr3 a => all_samples P a
  end.

(** * Properties *)

(** Running the code on a fixture, and checking the shape of a result. *)
Ltac run_code := vm_compute; reflexivity.
Ltac check_shape :=
  unfold wf_image, rectangular; vm_compute; repeat split;
  repeat constructor.

(** ** Border handling *)

(** The four borders on the row 1..8, as OpenCV documents them. *)
Example border_patterns :
  map (fun bt => nth 0 (copyMakeBorder [[1; 2; 3; 4; 5; 6; 7; 8]%Z]
                          0 0 6 7 bt 0%Z) [])
      [BORDER_REPLICATE; BORDER_REFLECT_101; BORDER_WRAP; BORDER_CONSTANT]
  = [[1; 1; 1; 1; 1; 1; 1; 2; 3; 4; 5; 6; 7; 8; 8; 8; 8; 8; 8; 8; 8];
     [7; 6; 5; 4; 3; 2; 1; 2; 3; 4; 5; 6; 7; 8; 7; 6; 5; 4; 3; 2; 1];
     [3; 4; 5; 6; 7; 8; 1; 2; 3; 4; 5; 6; 7; 8; 1; 2; 3; 4; 5; 6; 7];
     [0; 0; 0; 0; 0; 0; 1; 2; 3; 4; 5; 6; 7; 8; 0; 0; 0; 0; 0; 0; 0]]%Z.
Proof. reflexivity. Qed.

(** Python slices with bounds past the end or counted from it. *)
Example py_slice_bounds :
  py_slice 1 3 [10; 20; 30; 40]%Z = [20; 30]%Z /\
  py_slice 2 9 [10; 20; 30; 40]%Z = [30; 40]%Z /\
  py_slice 1 (-1) [10; 20; 30; 40]%Z = [20; 30]%Z /\
  py_slice 3 1 [10; 20; 30; 40]%Z = [].
Proof. repeat split. Qed.

(** Ties go to the even integer. *)
Example np_round_ties :
  map np_round [1 # 2; 3 # 2; 5 # 2; 255 # 2; - (1 # 2); 7 # 10]
  = [0; 2; 2; 128; 0; 1]%Z.
Proof. reflexivity. Qed.

Lemma borderInterpolate_inside (p len : Z) (bt : BorderType) :
  (0 <= p < len)%Z -> borderInterpolate p len bt = Some p.
Proof.
  intros [Hlo Hhi]. unfold borderInterpolate.
  apply Z.leb_le in Hlo. apply Z.ltb_lt in Hhi.
  now rewrite Hlo, Hhi.
Qed.

Lemma py_slice_inner {A} (a n : nat) (l : list A) :
  (a + n <= length l)%nat ->
  py_slice (Z.of_nat a) (Z.of_nat a + Z.of_nat n) l = firstn n (skipn a l).
Proof.
  intros Hlen. unfold py_slice, py_index.
  destruct (Z.ltb_spec (Z.of_nat a) 0); [lia|].
  destruct (Z.ltb_spec (Z.of_nat a + Z.of_nat n) 0); [lia|].
  rewrite !Z.min_l by lia.
  replace (Z.of_nat a + Z.of_nat n - Z.of_nat a)%Z with (Z.of_nat n) by lia.
  now rewrite !Nat2Z.id.
Qed.

Lemma window_map_seq {B} (f : nat -> B) (a n b : nat) :
  firstn n (skipn a (map f (seq 0 (a + n + b)))) = map f (seq a n).
Proof.
  rewrite skipn_map, firstn_map, skipn_seq, take_seq.
  do 2 f_equal; lia.
Qed.

Lemma map_seq_nth {B} (d : B) (l : list B) (g : nat -> B) (a : nat) :
  (forall k, (k < length l)%nat -> g (a + k)%nat = nth k l d) ->
  map g (seq a (length l)) = l.
Proof.
  revert a. induction l as [|x l IH]; intros a Hg; [reflexivity|].
  cbn [length seq map]. f_equal.
  - specialize (Hg 0%nat). rewrite Nat.add_0_r in Hg.
    apply Hg. cbn. lia.
  - apply IH. intros k Hk.
    replace (S a + k)%nat with (a + S k)%nat by lia.
    apply (Hg (S k)). cbn. lia.
Qed.

Lemma copyMakeBorder_height {A} (src : list (list A))
    (t b l r : nat) (bt : BorderType) (v : A) :
  height (copyMakeBorder src t b l r bt v) = (t + height src + b)%nat.
Proof.
  unfold copyMakeBorder, height. now rewrite length_map, length_seq.
Qed.

Lemma copyMakeBorder_width {A} (src : list (list A))
    (t b l r : nat) (bt : BorderType) (v : A) :
  (0 < t + height src + b)%nat ->
  width (copyMakeBorder src t b l r bt v) = (l + width src + r)%nat.
Proof.
  unfold copyMakeBorder. intros Hpos.
  destruct (t + height src + b)%nat as [|n]; [lia|].
  cbn [seq map width]. now rewrite length_map, length_seq.
Qed.

Lemma rectangular_nth {A} (w : nat) (img : list (list A)) (k : nat) :
  rectangular w img -> (k < length img)%nat -> length (nth k img []) = w.
Proof.
  intros Hrect Hk. unfold rectangular in Hrect.
  rewrite Forall_forall in Hrect. apply Hrect.
  apply nth_elem_of, Hk.
Qed.

(** Cropping the 16-pixel margin of any border gives the source back. *)
Lemma crop_copyMakeBorder {A} (bt : BorderType) (v : A)
    (img : list (list A)) :
  rectangular (width img) img ->
  crop_seamless (copyMakeBorder img 16 16 16 16 bt v) 1 = img.
Proof.
  intros Hrect. unfold crop_seamless.
  rewrite copyMakeBorder_height.
  rewrite copyMakeBorder_width by lia.
  set (H := height img). set (W := width img).
  replace (16 * 1)%Z with (Z.of_nat 16) by reflexivity.
  replace (Z.of_nat 16 + (Z.of_nat (16 + H + 16) - 32 * 1))%Z
    with (Z.of_nat 16 + Z.of_nat H)%Z by lia.
  replace (Z.of_nat 16 + (Z.of_nat (16 + W + 16) - 32 * 1))%Z
    with (Z.of_nat 16 + Z.of_nat W)%Z by lia.
  assert (HP : length (copyMakeBorder img 16 16 16 16 bt v)
               = (16 + H + 16)%nat) by apply copyMakeBorder_height.
  rewrite py_slice_inner by (rewrite HP; lia).
  clear HP.
  unfold copyMakeBorder. fold H. fold W.
  rewrite window_map_seq, map_map.
  unfold H, height. apply (map_seq_nth []).
  intros k Hk.
  rewrite py_slice_inner by (rewrite length_map, length_seq; lia).
  rewrite window_map_seq.
  replace (Z.of_nat (16 + k) - Z.of_nat 16)%Z with (Z.of_nat k) by lia.
  rewrite borderInterpolate_inside by lia.
  rewrite Nat2Z.id.
  assert (Hrow : length (nth k img []) = W)
    by (apply rectangular_nth; assumption).
  rewrite <- Hrow. apply (map_seq_nth v).
  intros j Hj.
  replace (Z.of_nat (16 + j) - Z.of_nat 16)%Z with (Z.of_nat j) by lia.
  rewrite borderInterpolate_inside by (unfold W in Hrow; lia).
  now rewrite Nat2Z.id.
Qed.

(** C6. For every rectangular image, whatever its pixels, and every
    seamless mode (tile, mirror, replicate, alpha_pad), cropping the
    16-pixel margin at scale 1 from the padded image returns exactly the
    image: crop_seamless(pad(image), 1) = image. *)
Theorem C6_crop_pad_inverse {A} (zero : A) (mode : SeamlessOptions)
    (img : list (list A)) :
  rectangular (width img) img ->
  crop_seamless (seamless_pad zero (Some mode) img) 1 = img.
Proof.
  intros Hrect. destruct mode; cbn [seamless_pad];
    apply crop_copyMakeBorder; assumption.
Qed.

Lemma C6_crop_pad_inverse_witness :
  rectangular (width bgr_2x2) bgr_2x2 /\
  crop_seamless (seamless_pad [0; 0; 0]%Z (Some MIRROR) bgr_2x2) 1
  = bgr_2x2.
Proof.
  split.
  - repeat constructor.
  - apply C6_crop_pad_inverse. repeat constructor.
Defined.

(** ** The effect monad *)

Lemma bind_Ok {A B} (m : M A) (k : A -> M B) (evs : list event) (a : A) :
  m = (evs, Ok a) -> bind m k = (evs ++ events (k a), outcome (k a)).
Proof. intros ->. unfold bind, events, outcome. now destruct (k a). Qed.

Lemma bind_Raise {A B} (m : M A) (k : A -> M B) (evs : list event) (e : exn) :
  m = (evs, Raise e) -> bind m k = (evs, Raise e).
Proof. now intros ->. Qed.

Lemma bind_lift_Ok {A B} (a : A) (k : A -> M B) :
  bind (lift (Ok a)) k = k a.
Proof. unfold bind, lift. now destruct (k a). Qed.

Lemma bind_lift_r {A B} (m : M A) (f : A -> result B)
    (evs : list event) (a : A) :
  m = (evs, Ok a) -> bind m (fun x => lift (f x)) = (evs, f a).
Proof.
  intros Hm. rewrite (bind_Ok _ _ _ _ Hm). cbn. now rewrite app_nil_r.
Qed.

(** ** Comparisons of rationals *)

Lemma Qltb_lt (x y : Q) : Qltb x y = true <-> x < y.
Proof.
  unfold Qltb. rewrite negb_true_iff. split.
  - intros H. apply Qnot_le_lt. intros Hle.
    apply Qle_bool_iff in Hle. congruence.
  - intros H. destruct (Qle_bool y x) eqn:E; [|reflexivity].
    apply Qle_bool_iff in E. exfalso. exact (Qlt_not_le _ _ H E).
Qed.

Lemma Qltb_ge (x y : Q) : Qltb x y = false <-> y <= x.
Proof.
  unfold Qltb. rewrite negb_false_iff. apply Qle_bool_iff.
Qed.

Lemma Qle_bool_gt (x y : Q) : Qle_bool x y = false <-> y < x.
Proof.
  rewrite <- Qltb_lt. unfold Qltb. now rewrite negb_true_iff.
Qed.

(** ** Shapes *)

Lemma wf_image_nchan {A} (c : nat) (img : array3 A) :
  wf_image c img -> nchan img = c.
Proof.
  intros (Hh & Hw & _ & Hc).
  destruct img as [|[|px row] rest]; cbn in *; try lia.
  inversion Hc as [|? ? Hrow _]; subst.
  now inversion Hrow.
Qed.

Lemma Forall2_pmap {A B} (R : A -> B -> Prop) (g : A -> B)
    (img : list (list A)) :
  Forall (Forall (fun x => R x (g x))) img ->
  Forall2 (Forall2 R) img (pmap g img).
Proof.
  unfold pmap. induction 1 as [|row rest Hrow _ IH]; cbn; constructor.
  - induction Hrow; cbn; constructor; assumption.
  - exact IH.
Qed.

Lemma Forall_pmap {A B} (P : B -> Prop) (g : A -> B)
    (img : list (list A)) :
  Forall (Forall (fun x => P (g x))) img ->
  Forall (Forall P) (pmap g img).
Proof.
  unfold pmap. induction 1 as [|row rest Hrow _ IH]; cbn; constructor.
  - induction Hrow; cbn; constructor; assumption.
  - exact IH.
Qed.

Lemma Forall_Forall_impl {A} (P Q : A -> Prop) (img : list (list A)) :
  (forall x, P x -> Q x) ->
  Forall (Forall P) img -> Forall (Forall Q) img.
Proof.
  intros HPQ H. eapply Forall_impl; [exact H|].
  intros row Hrow. eapply Forall_impl; [exact Hrow|exact HPQ].
Qed.

(** ** Alpha quantization *)

Lemma map_channel3_rgba (f : Q -> Q) (output : array3 Q) :
  nchan output = 4%nat ->
  map_channel3 f output
  = Ok (pmap (fun px => <[3%nat := f (nth 3 px 0)]> px) output).
Proof.
  intros Hc. unfold map_channel3. now rewrite Hc.
Qed.

Lemma upscale_unit_alpha (self : Upscale) (img : int_array) (a : array3 Q) :
  normalize img = Arr3 a ->
  takes_alpha_path self (Arr3 a) = true ->
  upscale_unit self img
  = (output <- alpha_strategy self a ;; alpha_quantize self output).
Proof.
  intros Hn Hp. unfold upscale_unit. now rewrite Hn, Hp.
Qed.

Lemma upscale_of_unit (self : Upscale) (img : int_array)
    (evs : list event) (out : array3 Q) :
  upscale_unit self img = (evs, Ok out) ->
  upscale self img = (evs, Ok (rescale out)).
Proof.
  intros H. unfold upscale. rewrite (bind_Ok _ _ _ _ H).
  cbn. now rewrite app_nil_r.
Qed.

(** The pixel left by [output[:, :, 3] = alpha]. *)
Lemma set_alpha_pixel (px : list Q) (v : Q) :
  length px = 4%nat ->
  firstn 3 (<[3%nat := v]> px) = firstn 3 px /\
  nth 3 (<[3%nat := v]> px) 0 = v.
Proof.
  intros Hlen.
  destruct px as [|b [|g [|r [|a [|? ?]]]]]; try discriminate.
  now split.
Qed.

Lemma ternary_meets_spec (threshold offset a : Q) :
  0 <= offset ->
  ternary_spec threshold offset a
    (ternary (threshold - offset) (threshold + offset) a).
Proof.
  intros Hoff. unfold ternary_spec, ternary.
  destruct (Qltb a (threshold - offset)) eqn:Elo.
  - apply Qltb_lt in Elo. repeat split; intros; try reflexivity; exfalso; lra.
  - apply Qltb_ge in Elo.
    destruct (Qle_bool a (threshold + offset)) eqn:Ehi.
    + apply Qle_bool_iff in Ehi.
      repeat split; intros; try reflexivity; exfalso; lra.
    + apply Qle_bool_gt in Ehi.
      repeat split; intros; try reflexivity; exfalso; lra.
Qed.

Lemma threshold_binary_meets_spec (threshold a : Q) :
  binary_spec threshold a (threshold_binary threshold 1 a).
Proof.
  unfold binary_spec, threshold_binary.
  destruct (Qltb threshold a) eqn:E.
  - apply Qltb_lt in E. repeat split; intros; try reflexivity; exfalso; lra.
  - apply Qltb_ge in E. repeat split; intros; try reflexivity; exfalso; lra.
Qed.

(** What a run through the alpha path returns when the strategy gave the
    BGRA image [s] and the quantization maps each alpha through [f]. *)
Lemma quantized_output (self : Upscale) (img : int_array)
    (a s : array3 Q) (evs : list event) (f : Q -> Q) :
  normalize img = Arr3 a ->
  takes_alpha_path self (Arr3 a) = true ->
  alpha_strategy self a = (evs, Ok s) ->
  nchan s = 4%nat ->
  alpha_quantize self s = lift (map_channel3 f s) ->
  upscale_unit self img
  = (evs, Ok (pmap (fun px => <[3%nat := f (nth 3 px 0)]> px) s)).
Proof.
  intros Hn Hp Hs Hwf Hq.
  rewrite (upscale_unit_alpha _ _ _ Hn Hp).
  rewrite (bind_Ok _ _ _ _ Hs), Hq, map_channel3_rgba by assumption.
  cbn. now rewrite app_nil_r.
Qed.

Lemma quantized_pixels (R : Q -> Q -> Prop) (f : Q -> Q) (s : array3 Q) :
  wf_image 4 s ->
  (forall a, R a (f a)) ->
  Forall2 (Forall2 (fun px px' =>
             firstn 3 px' = firstn 3 px /\ R (nth 3 px 0) (nth 3 px' 0)))
          s (pmap (fun px => <[3%nat := f (nth 3 px 0)]> px) s).
Proof.
  intros (_ & _ & _ & Hc) HR. apply Forall2_pmap.
  eapply Forall_Forall_impl; [|exact Hc].
  intros px Hlen. cbn beta.
  destruct (set_alpha_pixel px (f (nth 3 px 0)) Hlen) as [-> ->].
  split; [reflexivity|apply HR].
Qed.

(** C3. With ternary alpha enabled and binary alpha disabled, on a
    4-channel input processed by a 3-in/3-out model, the colour channels
    of the strategy's BGRA result are kept and each of its alpha samples
    [a] becomes 0 if a < alpha_threshold - alpha_boundary_offset, 1 if
    a > alpha_threshold + alpha_boundary_offset, and 0.5 otherwise; a
    sample equal to alpha_threshold, and one equal to
    alpha_threshold + alpha_boundary_offset, both become 0.5.  The offset
    is non-negative, as the data model has it. *)
Theorem C3_ternary_alpha (self : Upscale) (img : int_array)
    (a s : array3 Q) (evs : list event) :
  binary_alpha self = false ->
  ternary_alpha self = true ->
  0 <= alpha_boundary_offset self ->
  normalize img = Arr3 a ->
  takes_alpha_path self (Arr3 a) = true ->
  alpha_strategy self a = (evs, Ok s) ->
  wf_image 4 s ->
  exists out : array3 Q,
    upscale_unit self img = (evs, Ok out) /\
    upscale self img = (evs, Ok (rescale out)) /\
    Forall2 (Forall2 (fun px px' =>
               firstn 3 px' = firstn 3 px /\
               ternary_spec (alpha_threshold self)
                            (alpha_boundary_offset self)
                            (nth 3 px 0) (nth 3 px' 0)))
            s out.
Proof.
  intros Hb Ht Hoff Hn Hp Hs Hwf.
  set (f := ternary (alpha_threshold self - alpha_boundary_offset self)
                    (alpha_threshold self + alpha_boundary_offset self)).
  assert (Hq : alpha_quantize self s = lift (map_channel3 f s))
    by (unfold alpha_quantize; now rewrite Hb, Ht).
  pose proof (quantized_output self img a s evs f Hn Hp Hs
                (wf_image_nchan _ _ Hwf) Hq) as Hout.
  eexists. split; [exact Hout|]. split.
  - apply upscale_of_unit, Hout.
  - apply quantized_pixels; [assumption|].
    intros x. apply ternary_meets_spec, Hoff.
Qed.

(** C4, as the code has it. With binary alpha enabled, on a 4-channel
    input processed by a 3-in/3-out model, the colour channels of the
    strategy's BGRA result are kept and each of its alpha samples becomes
    1 if it is strictly above alpha_threshold and 0 if it is at or below
    it; a sample equal to alpha_threshold becomes 0. *)
Theorem C4_binary_alpha_strict (self : Upscale) (img : int_array)
    (a s : array3 Q) (evs : list event) :
  binary_alpha self = true ->
  normalize img = Arr3 a ->
  takes_alpha_path self (Arr3 a) = true ->
  alpha_strategy self a = (evs, Ok s) ->
  wf_image 4 s ->
  exists out : array3 Q,
    upscale_unit self img = (evs, Ok out) /\
    upscale self img = (evs, Ok (rescale out)) /\
    Forall2 (Forall2 (fun px px' =>
               firstn 3 px' = firstn 3 px /\
               binary_spec (alpha_threshold self)
                           (nth 3 px 0) (nth 3 px' 0)))
            s out.
Proof.
  intros Hb Hn Hp Hs Hwf.
  set (f := threshold_binary (alpha_threshold self) 1).
  assert (Hq : alpha_quantize self s = lift (map_channel3 f s))
    by (unfold alpha_quantize; now rewrite Hb).
  pose proof (quantized_output self img a s evs f Hn Hp Hs
                (wf_image_nchan _ _ Hwf) Hq) as Hout.
  eexists. split; [exact Hout|]. split.
  - apply upscale_of_unit, Hout.
  - apply quantized_pixels; [assumption|].
    intros x. apply threshold_binary_meets_spec.
Qed.

Lemma upscale_without_ternary (self : Upscale) (img : int_array) :
  binary_alpha self = true ->
  upscale self img = upscale (without_ternary self) img.
Proof.
  intros Hb. destruct self. cbn in Hb. subst. reflexivity.
Qed.

(** A sample that meets the binary rule is 0 or 1, never the one half of
    the ternary rule. *)
Lemma threshold_binary_two_valued (threshold a : Q) :
  binary_spec threshold a (threshold_binary threshold 1 a) /\
  (threshold_binary threshold 1 a = 0 \/ threshold_binary threshold 1 a = 1).
Proof.
  split; [apply threshold_binary_meets_spec|].
  unfold threshold_binary. destruct (Qltb threshold a); auto.
Qed.

(** C9. When both binary_alpha and ternary_alpha are enabled, every
    4-channel input processed by a 3-in/3-out model gets the binary
    quantization: the colour channels of the strategy's BGRA result are
    kept, each alpha sample becomes 1 if it is strictly above
    alpha_threshold and 0 otherwise, so no sample is written as the one
    half of the ternary rule.  Nothing but the strategy's own events is
    emitted, and the result is the one of the same object with
    ternary_alpha switched off. *)
Theorem C9_binary_takes_precedence (self : Upscale) (img : int_array)
    (a s : array3 Q) (evs : list event) :
  binary_alpha self = true ->
  ternary_alpha self = true ->
  normalize img = Arr3 a ->
  takes_alpha_path self (Arr3 a) = true ->
  alpha_strategy self a = (evs, Ok s) ->
  wf_image 4 s ->
  exists out : array3 Q,
    upscale_unit self img = (evs, Ok out) /\
    upscale self img = (evs, Ok (rescale out)) /\
    Forall2 (Forall2 (fun px px' =>
               firstn 3 px' = firstn 3 px /\
               (binary_spec (alpha_threshold self)
                            (nth 3 px 0) (nth 3 px' 0) /\
                (nth 3 px' 0 = 0 \/ nth 3 px' 0 = 1))))
            s out /\
    upscale self img = upscale (without_ternary self) img.
Proof.
  intros Hb _ Hn Hp Hs Hwf.
  set (f := threshold_binary (alpha_threshold self) 1).
  assert (Hq : alpha_quantize self s = lift (map_channel3 f s))
    by (unfold alpha_quantize; now rewrite Hb).
  pose proof (quantized_output self img a s evs f Hn Hp Hs
                (wf_image_nchan _ _ Hwf) Hq) as Hout.
  eexists. split; [exact Hout|]. split; [|split].
  - apply upscale_of_unit, Hout.
  - apply (quantized_pixels
             (fun x x' => binary_spec (alpha_threshold self) x x' /\
                          (x' = 0 \/ x' = 1)));
      [assumption|].
    intros x. apply threshold_binary_two_valued.
  - apply upscale_without_ternary, Hb.
Qed.

Lemma C3_ternary_alpha_witness :
  exists out : array3 Q,
    upscale_unit (demo_separate false true) bgra_1x2
    = (events (alpha_strategy (demo_separate false true)
                              (unit_samples bgra_1x2)), Ok out) /\
    upscale (demo_separate false true) bgra_1x2
    = (events (alpha_strategy (demo_separate false true)
                              (unit_samples bgra_1x2)),
       Ok (rescale out)) /\
    Forall2 (Forall2 (fun px px' =>
               firstn 3 px' = firstn 3 px /\
               ternary_spec (1 # 5) (1 # 10) (nth 3 px 0) (nth 3 px' 0)))
            (value_of (alpha_strategy (demo_separate false true)
                                      (unit_samples bgra_1x2)) [])
            out.
Proof.
  apply (C3_ternary_alpha (demo_separate false true) bgra_1x2
           (unit_samples bgra_1x2)).
  - reflexivity.
  - reflexivity.
  - apply Qle_bool_iff. reflexivity.
  - run_code.
  - reflexivity.
  - run_code.
  - check_shape.
Defined.

(** "At or above becomes 1" fails on the threshold itself: under the identity
    network with the separate-alpha strategy and threshold 0.2, the
    first pixel's alpha 51/255 equals the threshold, and it is written
    out as 0, not as 1 (255 after rescaling). *)
Lemma C4_counterexample :
  binary_alpha (demo_separate true false) = true /\
  alpha_at 0 0 (value_of (alpha_strategy (demo_separate true false)
                                         (unit_samples bgra_1x2)) [])
  == alpha_threshold (demo_separate true false) /\
  outcome (upscale (demo_separate true false) bgra_1x2)
  = Ok [[[255; 0; 51; 0]; [10; 20; 30; 255]]].
Proof.
  split; [reflexivity|]. split; run_code.
Qed.

Lemma C4_binary_alpha_strict_witness :
  exists out : array3 Q,
    upscale_unit (demo_separate true false) bgra_1x2
    = (events (alpha_strategy (demo_separate true false)
                              (unit_samples bgra_1x2)), Ok out) /\
    upscale (demo_separate true false) bgra_1x2
    = (events (alpha_strategy (demo_separate true false)
                              (unit_samples bgra_1x2)),
       Ok (rescale out)) /\
    Forall2 (Forall2 (fun px px' =>
               firstn 3 px' = firstn 3 px /\
               binary_spec (1 # 5) (nth 3 px 0) (nth 3 px' 0)))
            (value_of (alpha_strategy (demo_separate true false)
                                      (unit_samples bgra_1x2)) [])
            out.
Proof.
  apply (C4_binary_alpha_strict (demo_separate true false) bgra_1x2
           (unit_samples bgra_1x2)).
  - reflexivity.
  - run_code.
  - reflexivity.
  - run_code.
  - check_shape.
Defined.

Lemma C9_binary_takes_precedence_witness :
  exists out : array3 Q,
    upscale_unit (demo_separate true true) bgra_1x2
    = (events (alpha_strategy (demo_separate true true)
                              (unit_samples bgra_1x2)), Ok out) /\
    upscale (demo_separate true true) bgra_1x2
    = (events (alpha_strategy (demo_separate true true)
                              (unit_samples bgra_1x2)),
       Ok (rescale out)) /\
    Forall2 (Forall2 (fun px px' =>
               firstn 3 px' = firstn 3 px /\
               (binary_spec (1 # 5) (nth 3 px 0) (nth 3 px' 0) /\
                (nth 3 px' 0 = 0 \/ nth 3 px' 0 = 1))))
            (value_of (alpha_strategy (demo_separate true true)
                                      (unit_samples bgra_1x2)) [])
            out /\
    upscale (demo_separate true true) bgra_1x2
    = upscale (without_ternary (demo_separate true true)) bgra_1x2.
Proof.
  apply (C9_binary_takes_precedence (demo_separate true true) bgra_1x2
           (unit_samples bgra_1x2)).
  - reflexivity.
  - reflexivity.
  - run_code.
  - reflexivity.
  - run_code.
  - check_shape.
Defined.

(** With both switches on, the alpha 51/255 of the first pixel, which the
    ternary rule (threshold 0.2, offset 0.1) would write as one half,
    leaves as 0. *)
Example both_switches_on_separate :
  outcome (upscale (demo_separate true true) bgra_1x2)
  = Ok [[[255; 0; 51; 0]; [10; 20; 30; 255]]] /\
  outcome (upscale (demo_separate false true) bgra_1x2)
  = Ok [[[255; 0; 51; 128]; [10; 20; 30; 255]]].
Proof. split; run_code. Qed.

(** ** Alpha mode none *)

Lemma width_pmap {A B} (g : A -> B) (img : list (list A)) :
  width (pmap g img) = width img.
Proof. destruct img; cbn; [reflexivity|apply length_map]. Qed.

Lemma wf_image_pmap {A B} (c c' : nat) (g : list A -> list B)
    (img : array3 A) :
  wf_image c img ->
  (forall px, length px = c -> length (g px) = c') ->
  wf_image c' (pmap g img).
Proof.
  intros (Hh & Hw & Hrect & Hc) Hg. unfold wf_image.
  rewrite width_pmap. unfold height, pmap. rewrite length_map.
  repeat split; try assumption.
  - unfold rectangular in *. apply Forall_map.
    eapply Forall_impl; [exact Hrect|].
    intros r Hr. cbn. now rewrite length_map.
  - apply Forall_map. eapply Forall_impl; [exact Hc|].
    intros r Hr. cbn. apply Forall_map.
    eapply Forall_impl; [exact Hr|]. intros px Hpx. cbn. now apply Hg.
Qed.

Lemma alpha_remove_output (self : Upscale) (a o : array3 Q)
    (evs : list event) :
  alpha_mode self = None \/ alpha_mode self = Some NO_ALPHA ->
  process self (channels_upto 3 a) = (evs, Ok o) ->
  wf_image 3 o ->
  alpha_strategy self a = (evs, Ok (pmap (fun px => px ++ [1]) o)).
Proof.
  intros Hmode Hproc Hwf.
  assert (Hs : alpha_strategy self a = alpha_remove self a)
    by (unfold alpha_strategy; destruct Hmode as [-> | ->]; reflexivity).
  rewrite Hs. unfold alpha_remove.
  rewrite (bind_lift_r _ _ _ _ Hproc).
  unfold cvtColor_BGR2BGRA. now rewrite (wf_image_nchan _ _ Hwf).
Qed.

Lemma opaque_after_quantize (f : Q -> Q) (o : array3 Q) :
  wf_image 3 o ->
  f 1 = 1 ->
  Forall (Forall (opaque_pixel 1))
    (pmap (fun px => <[3%nat := f (nth 3 px 0)]> px)
          (pmap (fun px => px ++ [1]) o)).
Proof.
  intros (_ & _ & _ & Hc) Hf. do 2 apply Forall_pmap.
  eapply Forall_Forall_impl; [|exact Hc].
  intros px Hlen. cbn beta.
  destruct px as [|b [|g [|r [|? ?]]]]; try discriminate.
  cbn. now split.
Qed.

Lemma rescale_opaque (out : array3 Q) :
  Forall (Forall (opaque_pixel 1)) out ->
  Forall (Forall (opaque_pixel 255)) (rescale out).
Proof.
  intros H. unfold rescale, amap. apply Forall_pmap.
  eapply Forall_Forall_impl; [|exact H].
  intros px [Hlen Ha].
  destruct px as [|b [|g [|r [|al [|? ?]]]]]; try discriminate.
  cbn in Ha. subst al. split; reflexivity.
Qed.

(** C7, as the code has it. For alpha mode none on a 4-channel input with
    a 3-in/3-out model whose answer [o] has three channels, every pixel
    of the output has four channels and an alpha of 1.0 before and 255
    after rescaling, for every input image, as long as the quantization
    step does not move full opacity: binary_alpha needs
    alpha_threshold < 1, and ternary_alpha (without binary_alpha) needs
    alpha_threshold - alpha_boundary_offset <= 1 and
    alpha_threshold + alpha_boundary_offset < 1.  With both switches off
    nothing is required. *)
Theorem C7_alpha_none_opaque (self : Upscale) (img : int_array)
    (a o : array3 Q) (evs : list event) :
  alpha_mode self = None \/ alpha_mode self = Some NO_ALPHA ->
  normalize img = Arr3 a ->
  takes_alpha_path self (Arr3 a) = true ->
  process self (channels_upto 3 a) = (evs, Ok o) ->
  wf_image 3 o ->
  (binary_alpha self = true -> alpha_threshold self < 1) ->
  (binary_alpha self = false -> ternary_alpha self = true ->
   alpha_threshold self - alpha_boundary_offset self <= 1 /\
   alpha_threshold self + alpha_boundary_offset self < 1) ->
  exists out : array3 Q,
    upscale_unit self img = (evs, Ok out) /\
    Forall (Forall (opaque_pixel 1)) out /\
    upscale self img = (evs, Ok (rescale out)) /\
    Forall (Forall (opaque_pixel 255)) (rescale out).
Proof.
  intros Hmode Hn Hp Hproc Hwf Hbin Htern.
  pose proof (alpha_remove_output self a o evs Hmode Hproc Hwf) as Hs.
  assert (Hwf4 : wf_image 4 (pmap (fun px => px ++ [1]) o)).
  { apply (wf_image_pmap 3); [assumption|].
    intros px Hlen. rewrite length_app, Hlen. reflexivity. }
  assert (Hcore : exists out : array3 Q,
             upscale_unit self img = (evs, Ok out) /\
             Forall (Forall (opaque_pixel 1)) out).
  { destruct (binary_alpha self) eqn:Eb; [|destruct (ternary_alpha self) eqn:Et].
    - eexists. split.
      + apply (quantized_output self img a _ evs
                 (threshold_binary (alpha_threshold self) 1)
                 Hn Hp Hs (wf_image_nchan _ _ Hwf4)).
        unfold alpha_quantize. now rewrite Eb.
      + apply opaque_after_quantize; [assumption|].
        unfold threshold_binary.
        specialize (Hbin eq_refl). apply Qltb_lt in Hbin. now rewrite Hbin.
    - eexists. split.
      + apply (quantized_output self img a _ evs
                 (ternary
                    (alpha_threshold self - alpha_boundary_offset self)
                    (alpha_threshold self + alpha_boundary_offset self))
                 Hn Hp Hs (wf_image_nchan _ _ Hwf4)).
        unfold alpha_quantize. now rewrite Eb, Et.
      + apply opaque_after_quantize; [assumption|].
        destruct (Htern eq_refl eq_refl) as [Hlo Hhi].
        unfold ternary.
        apply Qltb_ge in Hlo. apply Qle_bool_gt in Hhi.
        now rewrite Hlo, Hhi.
    - exists (pmap (fun px => px ++ [1]) o). split.
      + rewrite (upscale_unit_alpha _ _ _ Hn Hp).
        rewrite (bind_Ok _ _ _ _ Hs). unfold alpha_quantize.
        rewrite Eb, Et. cbn. now rewrite app_nil_r.
      + destruct Hwf as (_ & _ & _ & Hc). apply Forall_pmap.
        eapply Forall_Forall_impl; [|exact Hc].
        intros px Hlen.
        destruct px as [|b [|g [|r [|? ?]]]]; try discriminate.
        now split. }
  destruct Hcore as (out & Hout & Hop).
  exists out. repeat split; try assumption.
  - apply upscale_of_unit, Hout.
  - apply rescale_opaque, Hop.
Qed.

(** Alpha mode none with binary_alpha on and alpha_threshold = 1.0: the
    constant alpha 1.0 is not above the threshold, so every pixel leaves
    with alpha 0 instead of 255. *)
Lemma C7_counterexample :
  alpha_mode (demo_none true false 1) = Some NO_ALPHA /\
  takes_alpha_path (demo_none true false 1) (normalize bgra_1x2) = true /\
  outcome (upscale (demo_none true false 1) bgra_1x2)
  = Ok [[[255; 0; 51; 0]; [10; 20; 30; 0]]].
Proof.
  split; [reflexivity|]. split; run_code.
Qed.

Lemma C7_alpha_none_opaque_witness :
  exists out : array3 Q,
    upscale_unit (demo_none true false (1 # 2)) bgra_1x2
    = (events (process (demo_none true false (1 # 2))
                       (channels_upto 3 (unit_samples bgra_1x2))),
       Ok out) /\
    Forall (Forall (opaque_pixel 1)) out /\
    upscale (demo_none true false (1 # 2)) bgra_1x2
    = (events (process (demo_none true false (1 # 2))
                       (channels_upto 3 (unit_samples bgra_1x2))),
       Ok (rescale out)) /\
    Forall (Forall (opaque_pixel 255)) (rescale out).
Proof.
  apply (C7_alpha_none_opaque (demo_none true false (1 # 2)) bgra_1x2
           (unit_samples bgra_1x2)
           (value_of (process (demo_none true false (1 # 2))
                        (channels_upto 3 (unit_samples bgra_1x2))) [])).
  - right. reflexivity.
  - run_code.
  - reflexivity.
  - run_code.
  - check_shape.
  - intros _. apply Qltb_lt. reflexivity.
  - intros H. discriminate H.
Defined.

(** ** The bg_difference strategy *)

Lemma process_run (self : Upscale) (img : array3 Q) :
  process self img
  = ([ModelCall (to_tensor img)],
     match model self (to_tensor img) with
     | Ok t => Ok (of_tensor t)
     | Raise e => Raise e
     end).
Proof.
  unfold process. cbn. now destruct (model self (to_tensor img)).
Qed.

Lemma process_Ok (self : Upscale) (img : array3 Q) (t : tensor) :
  model self (to_tensor img) = Ok t ->
  process self img = ([ModelCall (to_tensor img)], Ok (of_tensor t)).
Proof. intros H. unfold process. cbn. now rewrite H. Qed.

Lemma zip_with_map_same {A B C D} (f : B -> C -> D) (g : A -> B)
    (h : A -> C) (l : list A) :
  zip_with f (map g l) (map h l) = map (fun x => f (g x) (h x)) l.
Proof. induction l as [|x l IH]; cbn; [reflexivity|now rewrite IH]. Qed.

Lemma zip2_pmap_same {A B C D} (f : B -> C -> D) (g : A -> B)
    (h : A -> C) (img : list (list A)) :
  zip2 f (pmap g img) (pmap h img) = pmap (fun x => f (g x) (h x)) img.
Proof.
  unfold zip2, pmap. rewrite zip_with_map_same.
  apply map_ext. intros row. apply zip_with_map_same.
Qed.

Lemma pmap_ext_Forall {A B} (f g : A -> B) (img : list (list A)) :
  Forall (Forall (fun x => f x = g x)) img -> pmap f img = pmap g img.
Proof.
  unfold pmap. induction 1 as [|row rest Hrow _ IH]; cbn; [reflexivity|].
  f_equal; [|exact IH].
  induction Hrow as [|x r Hx _ IHr]; cbn; [reflexivity|].
  now rewrite Hx, IHr.
Qed.

(** The in-place loop of lines 277-279 builds the two composites. *)
Lemma bg_composites_spec (img : array3 Q) :
  wf_image 4 img ->
  bg_composites img
  = (pmap black_composite img, pmap white_composite img).
Proof.
  intros (_ & _ & _ & Hc). unfold bg_composites, channels_upto, channel.
  cbn [seq fold_left]. rewrite !zip2_pmap_same.
  f_equal; apply pmap_ext_Forall;
    (eapply Forall_Forall_impl; [|exact Hc]); intros px Hlen;
    destruct px as [|b [|g [|r [|a [|? ?]]]]]; try discriminate;
    reflexivity.
Qed.

Lemma zip_with_map_zip {A B C D E} (f : A -> D -> E) (k : C -> D)
    (g : B -> A -> C) (l1 : list A) (l2 : list B) :
  zip_with f l1 (map k (zip_with g l2 l1))
  = zip_with (fun x y => f x (k (g y x))) l1 l2.
Proof.
  revert l2. induction l1 as [|x l1 IH]; intros [|y l2]; cbn;
    try reflexivity.
  now rewrite IH.
Qed.

Lemma zip_with_ext_all {A B C} (f g : A -> B -> C)
    (l1 : list A) (l2 : list B) :
  (forall x y, f x y = g x y) -> zip_with f l1 l2 = zip_with g l1 l2.
Proof.
  intros Hfg. revert l2.
  induction l1 as [|x l1 IH]; intros [|y l2]; cbn; try reflexivity.
  now rewrite Hfg, IH.
Qed.

Lemma map_zip_with {A B C D} (k : C -> D) (f : A -> B -> C)
    (l1 : list A) (l2 : list B) :
  map k (zip_with f l1 l2) = zip_with (fun x y => k (f x y)) l1 l2.
Proof.
  revert l2. induction l1 as [|x l1 IH]; intros [|y l2]; cbn;
    try reflexivity.
  now rewrite IH.
Qed.

(** Lines 283-285 pixel by pixel. *)
Lemma bg_difference_stack (o1 o2 : array3 Q) :
  amap (clip 0 1)
    (zip2 (fun px v => px ++ [v]) o1
       (pmap (fun m => 1 - m)
          (mean_axis2 (zip2 (zip_with Qminus) o2 o1))))
  = zip2 (fun p1 p2 =>
            map (clip 0 1) (p1 ++ [1 - mean (zip_with Qminus p2 p1)]))
         o1 o2.
Proof.
  unfold amap, mean_axis2, zip2, pmap.
  rewrite map_map.
  rewrite (map_ext (fun x => map (fun m => 1 - m) (map mean x))
                   (map (fun d => 1 - mean d)))
    by (intros; apply map_map).
  rewrite zip_with_map_zip, map_zip_with.
  apply zip_with_ext_all. intros r1 r2.
  rewrite zip_with_map_zip, map_zip_with.
  reflexivity.
Qed.

Lemma Qplus_0_l_eq (x : Q) : 0 + x = x.
Proof.
  destruct x as [n d]. unfold Qplus. cbn.
  now rewrite Z.mul_1_r.
Qed.

Lemma bg_difference_pixel_spec (p1 p2 : list Q) :
  length p1 = 3%nat -> length p2 = 3%nat ->
  map (clip 0 1) (p1 ++ [1 - mean (zip_with Qminus p2 p1)])
  = bg_difference_pixel p1 p2.
Proof.
  intros H1 H2.
  destruct p1 as [|b0 [|b1 [|b2 [|? ?]]]]; try discriminate.
  destruct p2 as [|w0 [|w1 [|w2 [|? ?]]]]; try discriminate.
  unfold mean. cbn [zip_with fold_left length app map bg_difference_pixel].
  now rewrite Qplus_0_l_eq.
Qed.

Lemma zip2_ext_Forall {A B C} (P : A -> Prop) (Q' : B -> Prop)
    (f g : A -> B -> C) (a : list (list A)) (b : list (list B)) :
  (forall x y, P x -> Q' y -> f x y = g x y) ->
  Forall (Forall P) a -> Forall (Forall Q') b ->
  zip2 f a b = zip2 g a b.
Proof.
  intros Hfg Ha. revert b. unfold zip2.
  induction Ha as [|ra a Hra _ IH]; intros b Hb; [reflexivity|].
  destruct Hb as [|rb b Hrb Hb]; [reflexivity|].
  cbn. f_equal; [|apply IH, Hb].
  clear -Hfg Hra Hrb. revert rb Hrb.
  induction Hra as [|x ra Hx _ IHr]; intros rb Hrb; [reflexivity|].
  destruct Hrb as [|y rb Hy Hrb]; [reflexivity|].
  cbn. f_equal; [now apply Hfg|apply IHr, Hrb].
Qed.

Lemma all2_sym {A B} (p : A -> B -> bool) (q : B -> A -> bool)
    (a : list A) (b : list B) :
  (forall x y, p x y = true -> q y x = true) ->
  all2 p a b = true -> all2 q b a = true.
Proof.
  intros Hpq. revert b.
  induction a as [|x a IH]; intros [|y b]; cbn; try easy.
  rewrite !andb_true_iff. intros [Hxy Hab]. split; auto.
Qed.

Lemma same_length_length {A B} (a : list A) (b : list B) :
  same_length a b = true <-> length a = length b.
Proof.
  revert b. induction a as [|x a IH]; intros [|y b]; cbn; try easy.
  rewrite IH. lia.
Qed.

Lemma same_shape_same_hw {A B} (a : array3 A) (b : array3 B) :
  same_shape a b = true -> same_hw a b = true.
Proof.
  unfold same_shape, same_hw. revert b.
  induction a as [|ra a IH]; intros [|rb b]; cbn; try easy.
  rewrite !andb_true_iff. intros [Hr Hab]. split; [|now apply IH].
  clear -Hr. revert rb Hr.
  induction ra as [|x ra IHr]; intros [|y rb]; cbn; try easy.
  rewrite andb_true_iff. intros [_ H]. now apply IHr.
Qed.

Lemma same_hw_pmap_zip2 {A B C D} (k : C -> D) (g : B -> A -> C)
    (o1 : list (list A)) (o2 : list (list B)) :
  same_hw o1 o2 = true ->
  same_hw o1 (pmap k (zip2 g o2 o1)) = true.
Proof.
  unfold same_hw, pmap, zip2. revert o2.
  induction o1 as [|r1 o1 IH]; intros [|r2 o2]; cbn; try easy.
  rewrite !andb_true_iff. intros [Hr Ho]. split; [|now apply IH].
  apply same_length_length. apply same_length_length in Hr.
  rewrite length_map, length_zip_with. lia.
Qed.

Lemma pmap_pmap_same_hw {A B C D E} (k : C -> D) (k' : D -> E)
    (g : B -> A -> C) (o1 : list (list A)) (o2 : list (list B)) :
  same_hw o1 o2 = true ->
  same_hw o1 (pmap k' (pmap k (zip2 g o2 o1))) = true.
Proof.
  intros H. unfold pmap. rewrite map_map.
  rewrite (map_ext (fun x => map k' (map k x)) (map (fun c => k' (k c))))
    by (intros; apply map_map).
  now apply (same_hw_pmap_zip2 (fun c => k' (k c)) g).
Qed.

Lemma bg_assemble_spec (o1 o2 : array3 Q) :
  wf_image 3 o1 ->
  wf_image 3 o2 ->
  same_shape o2 o1 = true ->
  bg_assemble o1 o2 = Ok (zip2 bg_difference_pixel o1 o2).
Proof.
  intros Hw1 Hw2 Hshape.
  assert (Hhw : same_hw o1 o2 = true).
  { apply same_shape_same_hw.
    apply (all2_sym (all2 same_length) (all2 same_length));
      [|exact Hshape].
    intros x y. apply all2_sym. intros u v Huv.
    apply same_length_length. apply same_length_length in Huv. lia. }
  unfold bg_assemble, arr_sub. rewrite Hshape.
  unfold dstack, mean_axis2 at 1.
  rewrite pmap_pmap_same_hw by exact Hhw.
  f_equal. rewrite bg_difference_stack.
  destruct Hw1 as (_ & _ & _ & Hc1). destruct Hw2 as (_ & _ & _ & Hc2).
  apply (zip2_ext_Forall (fun px => length px = 3%nat)
                         (fun px => length px = 3%nat));
    [|assumption|assumption].
  intros p1 p2. apply bg_difference_pixel_spec.
Qed.

Lemma alpha_bg_difference_output (self : Upscale) (a : array3 Q)
    (t1 t2 : tensor) :
  wf_image 4 a ->
  model self (to_tensor (pmap black_composite a)) = Ok t1 ->
  model self (to_tensor (pmap white_composite a)) = Ok t2 ->
  wf_image 3 (of_tensor t1) ->
  wf_image 3 (of_tensor t2) ->
  same_shape (of_tensor t2) (of_tensor t1) = true ->
  alpha_bg_difference self a
  = ([ModelCall (to_tensor (pmap black_composite a));
      ModelCall (to_tensor (pmap white_composite a))],
     Ok (zip2 bg_difference_pixel (of_tensor t1) (of_tensor t2))).
Proof.
  intros Hwf H1 H2 Hw1 Hw2 Hshape.
  unfold alpha_bg_difference. rewrite (bg_composites_spec a Hwf).
  rewrite (bind_Ok _ _ _ _ (process_Ok self _ t1 H1)).
  rewrite (bind_lift_r _ _ _ _ (process_Ok self _ t2 H2)).
  rewrite (bg_assemble_spec _ _ Hw1 Hw2 Hshape).
  reflexivity.
Qed.

(** [np.clip(x, 0, 1)] clips. *)
Lemma clip_meets_spec (v : Q) : unit_clipped v (clip 0 1 v).
Proof.
  unfold unit_clipped, clip.
  destruct (Qltb v 0) eqn:Elo.
  - apply Qltb_lt in Elo.
    destruct (Qltb 1 0) eqn:E1; [apply Qltb_lt in E1; lra|].
    repeat split; intros; try reflexivity; lra.
  - apply Qltb_ge in Elo.
    destruct (Qltb 1 v) eqn:Ehi.
    + apply Qltb_lt in Ehi. repeat split; intros; try reflexivity; lra.
    + apply Qltb_ge in Ehi. repeat split; intros; try reflexivity; lra.
Qed.

Lemma bg_difference_pixel_meets_spec (black white : list Q) :
  length black = 3%nat -> length white = 3%nat ->
  bg_difference_spec black white (bg_difference_pixel black white).
Proof.
  intros H1 H2.
  destruct black as [|b0 [|b1 [|b2 [|? ?]]]]; try discriminate.
  destruct white as [|w0 [|w1 [|w2 [|? ?]]]]; try discriminate.
  cbn. repeat split; apply clip_meets_spec.
Qed.

Lemma Forall2_zip2_both {A B C D} (R : C -> D -> Prop)
    (g : A -> B -> C) (h : A -> B -> D) (P : A -> Prop) (Q' : B -> Prop)
    (a : list (list A)) (b : list (list B)) :
  Forall (Forall P) a -> Forall (Forall Q') b ->
  (forall x y, P x -> Q' y -> R (g x y) (h x y)) ->
  Forall2 (Forall2 R) (zip2 g a b) (zip2 h a b).
Proof.
  intros Ha Hb HR. unfold zip2. revert b Hb.
  induction Ha as [|ra a Hra _ IH]; intros [|rb b] Hb; cbn;
    try constructor.
  - inversion Hb as [|? ? Hrb _]; subst. clear -Hra Hrb HR.
    revert rb Hrb.
    induction Hra as [|x ra Hx _ IHr]; intros [|y rb] Hrb; cbn;
      try constructor.
    + inversion Hrb; subst. now apply HR.
    + inversion Hrb; subst. now apply IHr.
  - inversion Hb; subst. now apply IH.
Qed.

(** The pixels of the composited image meet the rule, each against the
    two answers at its place. *)
Lemma bg_difference_pixels (o1 o2 : array3 Q) :
  wf_image 3 o1 -> wf_image 3 o2 ->
  Forall2 (Forall2 (fun answers px =>
             bg_difference_spec (fst answers) (snd answers) px))
          (zip2 pair o1 o2) (zip2 bg_difference_pixel o1 o2).
Proof.
  intros (_ & _ & _ & Hc1) (_ & _ & _ & Hc2).
  apply (Forall2_zip2_both _ _ _ (fun px => length px = 3%nat)
                           (fun px => length px = 3%nat));
    try assumption.
  intros p1 p2. apply bg_difference_pixel_meets_spec.
Qed.

(** C5. For alpha mode bg_difference on a normalized BGRA input [a] with
    a 3-in/3-out model, the network is called twice, first on the black
    composite colour * alpha and then on the white composite
    (colour - 1) * alpha + 1; with [t1] and [t2] its answers, each output
    pixel has the colour of the black answer and the alpha
    1 - mean over the three channels of (white answer - black answer),
    and each of its four samples is clipped to [0, 1]: it lies in the
    interval, is 0 for a negative value, 1 for a value above 1 and the
    value itself otherwise.  With no quantization switched on this is the
    value [upscale] rescales. *)
Theorem C5_bg_difference (self : Upscale) (img : int_array)
    (a : array3 Q) (t1 t2 : tensor) :
  alpha_mode self = Some BG_DIFFERENCE ->
  normalize img = Arr3 a ->
  takes_alpha_path self (Arr3 a) = true ->
  wf_image 4 a ->
  model self (to_tensor (pmap black_composite a)) = Ok t1 ->
  model self (to_tensor (pmap white_composite a)) = Ok t2 ->
  wf_image 3 (of_tensor t1) ->
  wf_image 3 (of_tensor t2) ->
  same_shape (of_tensor t2) (of_tensor t1) = true ->
  exists out : array3 Q,
    alpha_strategy self a
    = ([ModelCall (to_tensor (pmap black_composite a));
        ModelCall (to_tensor (pmap white_composite a))],
       Ok out) /\
    Forall2 (Forall2 (fun answers px =>
               bg_difference_spec (fst answers) (snd answers) px))
            (zip2 pair (of_tensor t1) (of_tensor t2)) out /\
    (binary_alpha self = false -> ternary_alpha self = false ->
     upscale_unit self img
     = ([ModelCall (to_tensor (pmap black_composite a));
         ModelCall (to_tensor (pmap white_composite a))],
        Ok out)).
Proof.
  intros Hmode Hn Hp Hwf H1 H2 Hw1 Hw2 Hshape.
  assert (Hs : alpha_strategy self a
               = ([ModelCall (to_tensor (pmap black_composite a));
                   ModelCall (to_tensor (pmap white_composite a))],
                  Ok (zip2 bg_difference_pixel (of_tensor t1)
                           (of_tensor t2)))).
  { unfold alpha_strategy. rewrite Hmode.
    now apply alpha_bg_difference_output. }
  eexists. split; [exact Hs|]. split.
  - now apply bg_difference_pixels.
  - intros Hb Ht. rewrite (upscale_unit_alpha _ _ _ Hn Hp).
    rewrite (bind_Ok _ _ _ _ Hs). unfold alpha_quantize.
    rewrite Hb, Ht. reflexivity.
Qed.

Lemma C5_bg_difference_witness :
  exists out : array3 Q,
    alpha_strategy (demo_bg false false) (unit_samples bgra_1x2)
    = ([ModelCall (to_tensor (pmap black_composite
                                   (unit_samples bgra_1x2)));
        ModelCall (to_tensor (pmap white_composite
                                   (unit_samples bgra_1x2)))],
       Ok out) /\
    Forall2 (Forall2 (fun answers px =>
               bg_difference_spec (fst answers) (snd answers) px))
            (zip2 pair
               (of_tensor (to_tensor (pmap black_composite
                                           (unit_samples bgra_1x2))))
               (of_tensor (to_tensor (pmap white_composite
                                           (unit_samples bgra_1x2)))))
            out /\
    (binary_alpha (demo_bg false false) = false ->
     ternary_alpha (demo_bg false false) = false ->
     upscale_unit (demo_bg false false) bgra_1x2
     = ([ModelCall (to_tensor (pmap black_composite
                                    (unit_samples bgra_1x2)));
         ModelCall (to_tensor (pmap white_composite
                                    (unit_samples bgra_1x2)))],
        Ok out)).
Proof.
  apply (C5_bg_difference (demo_bg false false) bgra_1x2
           (unit_samples bgra_1x2)).
  - reflexivity.
  - run_code.
  - reflexivity.
  - check_shape.
  - reflexivity.
  - reflexivity.
  - check_shape.
  - check_shape.
  - run_code.
Defined.

(** Under the network that inverts every sample the white answer of
    the first pixel is 0.8 below the black one in each channel, so that
    1 - mean(white - black) is 1.8; the alpha leaves as 1 (255). *)
Example bg_difference_clips :
  outcome (upscale demo_invert bgra_1x2)
  = Ok [[[204; 255; 245; 255]; [245; 235; 225; 255]]].
Proof. run_code. Qed.

(** ** Colour channels under bg_difference *)

Lemma pmap_zip2 {A B C D} (q : C -> D) (f : A -> B -> C)
    (a : list (list A)) (b : list (list B)) :
  pmap q (zip2 f a b) = zip2 (fun x y => q (f x y)) a b.
Proof.
  unfold pmap, zip2. rewrite map_zip_with.
  apply zip_with_ext_all. intros r1 r2. apply map_zip_with.
Qed.

Lemma Forall2_zip2_l {A B C} (R : A -> C -> Prop) (h : A -> B -> C)
    (P : A -> Prop) (Q' : B -> Prop)
    (a : list (list A)) (b : list (list B)) :
  same_hw a b = true ->
  Forall (Forall P) a -> Forall (Forall Q') b ->
  (forall x y, P x -> Q' y -> R x (h x y)) ->
  Forall2 (Forall2 R) a (zip2 h a b).
Proof.
  intros Hhw Ha Hb HR. unfold same_hw, zip2 in *. revert b Hhw Hb.
  induction Ha as [|ra a Hra _ IH]; intros [|rb b] Hhw Hb;
    cbn in *; try discriminate; [constructor|].
  apply andb_true_iff in Hhw as [Hrow Hrest].
  inversion Hb as [|? ? Hrb Hb']; subst.
  constructor; [|now apply IH].
  clear -Hrow Hra Hrb HR. revert rb Hrow Hrb.
  induction Hra as [|x ra Hx _ IHr]; intros [|y rb] Hrow Hrb;
    cbn in *; try discriminate; [constructor|].
  inversion Hrb; subst. constructor; [now apply HR|now apply IHr].
Qed.

Lemma colour_of_black (q : list Q -> list Q) (o1 o2 : array3 Q) :
  wf_image 3 o1 -> wf_image 3 o2 -> same_hw o1 o2 = true ->
  (forall px, length px = 4%nat -> firstn 3 (q px) = firstn 3 px) ->
  Forall2 (Forall2 (fun black px =>
             Forall2 unit_clipped black (firstn 3 px)))
          o1 (pmap q (zip2 bg_difference_pixel o1 o2)).
Proof.
  intros (_ & _ & _ & Hc1) (_ & _ & _ & Hc2) Hhw Hq.
  rewrite pmap_zip2.
  apply (Forall2_zip2_l _ _ (fun px => length px = 3%nat)
                        (fun px => length px = 3%nat));
    try assumption.
  intros p1 p2 H1 H2.
  destruct p1 as [|b0 [|b1 [|b2 [|? ?]]]]; try discriminate.
  destruct p2 as [|w0 [|w1 [|w2 [|? ?]]]]; try discriminate.
  rewrite Hq by reflexivity. cbn [bg_difference_pixel firstn].
  repeat (constructor; [apply clip_meets_spec|]). constructor.
Qed.

Lemma nchan_bg_difference (o1 o2 : array3 Q) :
  wf_image 3 o1 -> wf_image 3 o2 ->
  nchan (zip2 bg_difference_pixel o1 o2) = 4%nat.
Proof.
  intros (Hh1 & Hw1 & _ & Hc1) (Hh2 & Hw2 & _ & Hc2).
  destruct o1 as [|[|p1 r1] o1]; cbn in Hh1, Hw1; try lia.
  destruct o2 as [|[|p2 r2] o2]; cbn in Hh2, Hw2; try lia.
  inversion Hc1 as [|? ? Hr1 _]; inversion Hr1 as [|? ? Hp1 _]; subst.
  inversion Hc2 as [|? ? Hr2 _]; inversion Hr2 as [|? ? Hp2 _]; subst.
  destruct p1 as [|b0 [|b1 [|b2 [|? ?]]]]; try discriminate.
  destruct p2 as [|w0 [|w1 [|w2 [|? ?]]]]; try discriminate.
  reflexivity.
Qed.

Lemma pmap_id {A} (img : list (list A)) : pmap (fun x => x) img = img.
Proof.
  unfold pmap. rewrite (map_ext _ (fun r => r)) by (intros; apply map_id).
  apply map_id.
Qed.

Lemma set_alpha_colour (v : Q) (px : list Q) :
  length px = 4%nat -> firstn 3 (<[3%nat := v]> px) = firstn 3 px.
Proof. intros H. apply (set_alpha_pixel px v H). Qed.

(** C10. For alpha mode bg_difference, whatever the quantization
    switches, the three colour channels of every pixel [upscale] goes on
    to rescale are those of the network's answer on the black composite
    (colour * alpha), clipped to [0, 1]: each lies in the interval, is 0
    for a negative sample of that answer, 1 for a sample above 1 and the
    sample itself otherwise.  The colour is thereby fixed by the black
    answer alone; the answer on the white composite enters the fourth
    channel only. *)
Theorem C10_colour_from_black_run (self : Upscale) (img : int_array)
    (a : array3 Q) (t1 t2 : tensor) :
  alpha_mode self = Some BG_DIFFERENCE ->
  normalize img = Arr3 a ->
  takes_alpha_path self (Arr3 a) = true ->
  wf_image 4 a ->
  model self (to_tensor (pmap black_composite a)) = Ok t1 ->
  model self (to_tensor (pmap white_composite a)) = Ok t2 ->
  wf_image 3 (of_tensor t1) ->
  wf_image 3 (of_tensor t2) ->
  same_shape (of_tensor t2) (of_tensor t1) = true ->
  exists composited out : array3 Q,
    outcome (alpha_strategy self a) = Ok composited /\
    Forall2 (Forall2 (fun black px =>
               Forall2 unit_clipped black (firstn 3 px)))
            (of_tensor t1) composited /\
    outcome (upscale_unit self img) = Ok out /\
    Forall2 (Forall2 (fun black px =>
               Forall2 unit_clipped black (firstn 3 px)))
            (of_tensor t1) out.
Proof.
  intros Hmode Hn Hp Hwf H1 H2 Hw1 Hw2 Hshape.
  assert (Hs : alpha_strategy self a
               = ([ModelCall (to_tensor (pmap black_composite a));
                   ModelCall (to_tensor (pmap white_composite a))],
                  Ok (zip2 bg_difference_pixel (of_tensor t1)
                           (of_tensor t2)))).
  { unfold alpha_strategy. rewrite Hmode.
    now apply alpha_bg_difference_output. }
  assert (Hhw : same_hw (of_tensor t1) (of_tensor t2) = true).
  { apply same_shape_same_hw.
    apply (all2_sym (all2 same_length) (all2 same_length));
      [|exact Hshape].
    intros x y. apply all2_sym. intros u v Huv.
    apply same_length_length. apply same_length_length in Huv. lia. }
  pose proof (nchan_bg_difference _ _ Hw1 Hw2) as Hc.
  exists (zip2 bg_difference_pixel (of_tensor t1) (of_tensor t2)).
  assert (Hcomp : Forall2 (Forall2 (fun black px =>
                     Forall2 unit_clipped black (firstn 3 px)))
                   (of_tensor t1)
                   (zip2 bg_difference_pixel (of_tensor t1) (of_tensor t2))).
  { rewrite <- (pmap_id (zip2 _ _ _)).
    now apply colour_of_black. }
  destruct (binary_alpha self) eqn:Eb; [|destruct (ternary_alpha self) eqn:Et].
  - eexists. split; [now rewrite Hs|]. split; [exact Hcomp|]. split.
    + rewrite (quantized_output self img a _ _
                 (threshold_binary (alpha_threshold self) 1)
                 Hn Hp Hs Hc); [reflexivity|].
      unfold alpha_quantize. now rewrite Eb.
    + apply (colour_of_black
               (fun px => <[3%nat := threshold_binary (alpha_threshold self) 1
                                       (nth 3 px 0)]> px));
        try assumption.
      intros px. apply set_alpha_colour.
  - eexists. split; [now rewrite Hs|]. split; [exact Hcomp|]. split.
    + rewrite (quantized_output self img a _ _
                 (ternary
                    (alpha_threshold self - alpha_boundary_offset self)
                    (alpha_threshold self + alpha_boundary_offset self))
                 Hn Hp Hs Hc); [reflexivity|].
      unfold alpha_quantize. now rewrite Eb, Et.
    + apply (colour_of_black
               (fun px => <[3%nat := ternary
                    (alpha_threshold self - alpha_boundary_offset self)
                    (alpha_threshold self + alpha_boundary_offset self)
                    (nth 3 px 0)]> px));
        try assumption.
      intros px. apply set_alpha_colour.
  - eexists. split; [now rewrite Hs|]. split; [exact Hcomp|]. split.
    + rewrite (upscale_unit_alpha _ _ _ Hn Hp).
      rewrite (bind_Ok _ _ _ _ Hs). unfold alpha_quantize.
      rewrite Eb, Et. reflexivity.
    + exact Hcomp.
Qed.

Lemma C10_colour_from_black_run_witness :
  exists composited out : array3 Q,
    outcome (alpha_strategy (demo_bg true true) (unit_samples bgra_1x2))
    = Ok composited /\
    Forall2 (Forall2 (fun black px =>
               Forall2 unit_clipped black (firstn 3 px)))
            (of_tensor (to_tensor (pmap black_composite
                                        (unit_samples bgra_1x2))))
            composited /\
    outcome (upscale_unit (demo_bg true true) bgra_1x2) = Ok out /\
    Forall2 (Forall2 (fun black px =>
               Forall2 unit_clipped black (firstn 3 px)))
            (of_tensor (to_tensor (pmap black_composite
                                        (unit_samples bgra_1x2))))
            out.
Proof.
  apply (C10_colour_from_black_run (demo_bg true true) bgra_1x2
           (unit_samples bgra_1x2) _
           (to_tensor (pmap white_composite (unit_samples bgra_1x2)))).
  - reflexivity.
  - run_code.
  - reflexivity.
  - check_shape.
  - reflexivity.
  - reflexivity.
  - check_shape.
  - check_shape.
  - run_code.
Defined.

(** ** The way through [run] *)

(** Every call of [run] starts from an empty [split_depths]: once the
    picture is prepared it calls the splitter without a depth hint,
    whatever [cache_max_split_depth] says, and the depth it writes down
    is dropped on return. *)
Lemma run_never_passes_hint
    (auto_split_upscale :
       int_array -> (int_array -> M (array3 Q)) -> Z -> option nat ->
       M (array3 Q * nat))
    (self : Upscale) :
  run_body auto_split_upscale self
  = (img <- lift (prepare self) ;;
     emit (SplitCall None) ;;;
     r <- auto_split_upscale img (upscale self) (last_scale self) None ;;
     let rlt :=
       match seamless self with
       | Some _ => crop_seamless (fst r) (1 * last_scale self)
       | None => fst r
       end in
     img_output <- lift (Image_fromarray (amap astype_uint8 rlt)) ;;
     ret (img_output, <[0%nat := snd r]> (∅ : gmap nat nat))).
Proof.
  unfold run_body. rewrite map_size_empty, andb_false_r.
  destruct (prepare self) as [img|e]; [|reflexivity].
  rewrite !bind_lift_Ok.
  destruct (auto_split_upscale img (upscale self)
              (last_scale self) None) as [evs [[rlt depth]|e]];
    [|reflexivity].
  cbn [bind emit ret lift fst snd app].
  destruct (Image_fromarray _); cbn; rewrite ?app_nil_r; reflexivity.
Qed.

(** A picture [cv2.cvtColor] refuses ends [run] before anything else. *)
Lemma run_not_prepared
    (auto_split_upscale :
       int_array -> (int_array -> M (array3 Q)) -> Z -> option nat ->
       M (array3 Q * nat))
    (self : Upscale) (e : exn) :
  prepare self = Raise e ->
  run auto_split_upscale self = ([], Raise e).
Proof.
  intros Hp. unfold run. rewrite run_never_passes_hint, Hp. reflexivity.
Qed.

(** With the picture prepared, [run] is the splitter call followed by
    the crop, the cast and [Image.fromarray]. *)
Lemma run_prepared
    (auto_split_upscale :
       int_array -> (int_array -> M (array3 Q)) -> Z -> option nat ->
       M (array3 Q * nat))
    (self : Upscale) (p : int_array) (evs : list event)
    (r : result (array3 Q * nat)) :
  prepare self = Ok p ->
  auto_split_upscale p (upscale self) (last_scale self) None = (evs, r) ->
  run auto_split_upscale self
  = (SplitCall None :: evs,
     match r with
     | Ok (rlt, _) =>
         Image_fromarray
           (amap astype_uint8
              match seamless self with
              | Some _ => crop_seamless rlt (last_scale self)
              | None => rlt
              end)
     | Raise e => Raise e
     end).
Proof.
  intros Hp Hsp. unfold run. rewrite run_never_passes_hint, Hp.
  rewrite bind_lift_Ok. cbn [bind emit]. rewrite Hsp.
  destruct r as [[rlt depth]|e]; [|reflexivity].
  cbv zeta. cbn [bind emit ret lift fst snd app]. rewrite Z.mul_1_l.
  destruct (Image_fromarray _); cbn; rewrite ?app_nil_r; reflexivity.
Qed.

(** Line 117 lets the pictures of [convertible] through and stops those
    of [refused]. *)
Lemma prepare_convertible (self : Upscale) :
  convertible (input self) -> exists p : int_array, prepare self = Ok p.
Proof.
  unfold convertible, prepare, cvtColor_GRAY2BGR.
  destruct (arr_data (input self)) as [g|a]; [|eauto].
  intros (Hd & Hh & Hw).
  apply Nat.ltb_lt in Hh, Hw. rewrite Hh, Hw.
  destruct (arr_dtype (input self)); cbn; eauto. congruence.
Qed.

Lemma prepare_refused (self : Upscale) :
  refused (input self) -> prepare self = Raise CvError.
Proof.
  intros (Hd & g & Hg). unfold prepare. now rewrite Hg, Hd.
Qed.

(** ** Requesting both quantizations *)

Lemma events_bind_l {A B} (m : M A) (k : A -> M B) (ev : event) :
  In ev (events m) -> In ev (events (bind m k)).
Proof.
  destruct m as [evs [a|e]]; cbn; [|tauto].
  destruct (k a) as [evs' r]. cbn. intros H. apply in_or_app. now left.
Qed.

Lemma events_bind_r {A B} (m : M A) (k : A -> M B) (evs : list event)
    (a : A) (ev : event) :
  m = (evs, Ok a) -> In ev (events (k a)) -> In ev (events (bind m k)).
Proof.
  intros -> H. cbn. destruct (k a) as [evs' r]. cbn in *.
  apply in_or_app. now right.
Qed.

Lemma process_calls_model (self : Upscale) (img : array3 Q)
    {B} (k : array3 Q -> M B) :
  In (ModelCall (to_tensor img)) (events (bind (process self img) k)).
Proof.
  apply events_bind_l. rewrite process_run. cbn. now left.
Qed.

Lemma all2_refl {A} (p : A -> A -> bool) (l : list A) :
  (forall x, p x x = true) -> all2 p l l = true.
Proof.
  intros Hp. induction l as [|x l IH]; cbn; [reflexivity|].
  now rewrite Hp, IH.
Qed.

Lemma same_hw_pmap {A B C} (f : A -> B) (g : A -> C)
    (img : list (list A)) :
  same_hw (pmap f img) (pmap g img) = true.
Proof.
  unfold same_hw, pmap. induction img as [|row img IH]; cbn;
    [reflexivity|].
  rewrite IH, andb_true_r. apply same_length_length.
  now rewrite !length_map.
Qed.

Lemma merge3_channels (i j k : nat) (img : array3 Q) :
  exists merged : array3 Q,
    merge [channel i img; channel j img; channel k img] = Ok merged.
Proof.
  unfold merge, channel. cbn [forallb].
  rewrite !same_hw_pmap. cbn. eauto.
Qed.

Lemma strategy_calls_model (self : Upscale) (a : array3 Q) :
  exists t : tensor, In (ModelCall t) (events (alpha_strategy self a)).
Proof.
  unfold alpha_strategy.
  destruct (alpha_mode self) as [[| | |]|].
  - eexists. apply process_calls_model.
  - unfold alpha_bg_difference. destruct (bg_composites a) as [img1 img2].
    eexists. apply process_calls_model.
  - unfold alpha_separately.
    destruct (merge3_channels 3 3 3 a) as [img2 ->].
    rewrite bind_lift_Ok. eexists. apply process_calls_model.
  - unfold alpha_swapping.
    destruct (merge3_channels 0 1 2 a) as [img1 ->].
    destruct (merge3_channels 1 2 3 a) as [img2 ->].
    rewrite !bind_lift_Ok. eexists. apply process_calls_model.
  - eexists. apply process_calls_model.
Qed.

Lemma adapt_calls_model (self : Upscale) (img : ndarray Q) :
  exists t : tensor, In (ModelCall t) (events (adapt_channels self img)).
Proof.
  unfold adapt_channels.
  match goal with
  | |- context [if ?c then _ else _] => destruct c
  end.
  - eexists. eapply events_bind_r; [reflexivity|].
    rewrite process_run. cbn. now left.
  - match goal with
    | |- context [if ?c then _ else _] => destruct c
    end; eexists; (eapply events_bind_r; [reflexivity|]);
      rewrite process_run; cbn; now left.
Qed.

(** Whatever the switches, [upscale] reaches the network. *)
Lemma upscale_calls_model (self : Upscale) (img : int_array) :
  exists t : tensor, In (ModelCall t) (events (upscale self img)).
Proof.
  unfold upscale.
  assert (H : exists t, In (ModelCall t) (events (upscale_unit self img))).
  { unfold upscale_unit. destruct (normalize img) as [a|a].
    - apply adapt_calls_model.
    - destruct (takes_alpha_path self (Arr3 a)).
      + destruct (strategy_calls_model self a) as [t Ht].
        exists t. now apply events_bind_l.
      + apply adapt_calls_model. }
  destruct H as [t Ht]. exists t. now apply events_bind_l.
Qed.

(** With both switches on, the constructor builds the object and a run
    under the identity network ends with a picture, the network having
    been called: no error is raised, before inference or after. *)
Lemma C2_counterexample :
  __init__ id_loader "identity.pth" bgra_1x2 None true false false
           true true (1 # 2) (1 # 5) None
  = Ok (demo bgra_1x2 None false true true (1 # 2) (1 # 5) None) /\
  outcome (run probe_splitter
               (demo bgra_1x2 None false true true (1 # 2) (1 # 5) None))
  = Ok [[[255; 0; 51; 255]; [10; 20; 30; 255]]]%Z /\
  events (run probe_splitter
              (demo bgra_1x2 None false true true (1 # 2) (1 # 5) None))
  = [SplitCall None;
     ModelCall (to_tensor (channels_upto 3 (unit_samples bgra_1x2)))].
Proof.
  split; [reflexivity|]. split; run_code.
Qed.

(** C2, as the code has it. Requesting binary_alpha and ternary_alpha
    together raises nothing: whenever the checkpoint loads the
    constructor returns the object with both switches on; [run] goes
    straight to the splitter for every picture with a pixel that is
    three-dimensional or has 8-bit or 16-bit samples, and for a
    two-dimensional picture of 32-bit samples it raises the cv2.error of
    [cv2.cvtColor], as it does with the switches off; [upscale] on any
    picture calls the network. *)
Theorem C2_both_switches_accepted
    (load_checkpoint : string -> result Model)
    (auto_split_upscale :
       int_array -> (int_array -> M (array3 Q)) -> Z -> option nat ->
       M (array3 Q * nat))
    (model_path : string) (input : int_array)
    (seamless : option SeamlessOptions) (cpu fp16 cache : bool)
    (threshold offset : Q) (mode : option AlphaOptions)
    (m : Model) (img : int_array) :
  load_checkpoint model_path = Ok m ->
  exists self : Upscale,
    __init__ load_checkpoint model_path input seamless cpu fp16 cache
             true true threshold offset mode = Ok self /\
    binary_alpha self = true /\
    ternary_alpha self = true /\
    (convertible input ->
     exists rest : list event,
       events (run auto_split_upscale self) = SplitCall None :: rest) /\
    (refused input ->
     run auto_split_upscale self = ([], Raise CvError)) /\
    (exists t : tensor, In (ModelCall t) (events (upscale self img))).
Proof.
  intros Hload. unfold __init__, load_model. rewrite Hload.
  eexists. split; [reflexivity|]. split; [reflexivity|].
  split; [reflexivity|]. split; [|split].
  - intros Hc.
    match goal with
    | |- context [run _ ?u] =>
        destruct (prepare_convertible u Hc) as [p Hp];
        destruct (auto_split_upscale p (upscale u) (last_scale u) None)
          as [evs r] eqn:Hsp;
        rewrite (run_prepared auto_split_upscale u p evs r Hp Hsp)
    end.
    cbn. eauto.
  - intros Hc. apply run_not_prepared.
    now apply prepare_refused.
  - apply upscale_calls_model.
Qed.

Lemma C2_both_switches_accepted_witness :
  exists self : Upscale,
    __init__ id_loader "identity.pth" bgra_1x2 None true false false
             true true (1 # 2) (1 # 5) None = Ok self /\
    binary_alpha self = true /\
    ternary_alpha self = true /\
    (convertible bgra_1x2 ->
     exists rest : list event,
       events (run probe_splitter self) = SplitCall None :: rest) /\
    (refused bgra_1x2 ->
     run probe_splitter self = ([], Raise CvError)) /\
    (exists t : tensor, In (ModelCall t) (events (upscale self bgra_1x2))).
Proof.
  apply (C2_both_switches_accepted id_loader probe_splitter
           "identity.pth" bgra_1x2 None true false false
           (1 # 2) (1 # 5) None id_model bgra_1x2).
  reflexivity.
Defined.

(** ** The split-depth cache *)

(** C1 on the code. With cache_max_split_depth on, a first run calls the
    splitter without a hint and leaves depth 2 under key 0 of its local
    dictionary; a second run on the same object again calls the splitter
    without a hint, where reuse of the cache would pass the recorded
    depth, Some 2. *)
Theorem C1_second_run_probes_again :
  cache_max_split_depth demo_cached = true /\
  split_calls (events (run probe_splitter demo_cached)) = [None] /\
  split_depths_of (run_body probe_splitter demo_cached)
  = Some {[0%nat := 2%nat]} /\
  split_calls (events (run probe_splitter demo_cached ;;;
                       run probe_splitter demo_cached))
  = [None; None].
Proof.
  split; [reflexivity|]. split; [run_code|]. split; run_code.
Qed.

(** ** Channel truncation *)

Lemma truncating_run (self : Upscale) (img : int_array) (a : array3 Q) :
  normalize img = Arr3 a ->
  takes_alpha_path self (Arr3 a) = false ->
  (last_in_nc self < nchan a)%nat ->
  upscale self img
  = (emit (Warning "Truncating image channels") ;;;
     output <- process self (channels_upto (last_in_nc self) a) ;;
     ret (rescale output)).
Proof.
  intros Hn Hp Hlt. unfold upscale, upscale_unit. rewrite Hn, Hp.
  unfold adapt_channels. apply Nat.ltb_lt in Hlt. rewrite Hlt.
  cbn [bind emit ret app]. rewrite process_run.
  destruct (model self (to_tensor (channels_upto (last_in_nc self) a)));
    reflexivity.
Qed.

(** The channels cut off have no influence: two pictures that agree on
    the channels the model expects give the same run. *)
Lemma truncated_channels_ignored (self : Upscale) (img img' : int_array)
    (a a' : array3 Q) :
  normalize img = Arr3 a -> normalize img' = Arr3 a' ->
  takes_alpha_path self (Arr3 a) = false ->
  takes_alpha_path self (Arr3 a') = false ->
  (last_in_nc self < nchan a)%nat -> (last_in_nc self < nchan a')%nat ->
  channels_upto (last_in_nc self) a = channels_upto (last_in_nc self) a' ->
  upscale self img = upscale self img'.
Proof.
  intros Hn Hn' Hp Hp' Hlt Hlt' Heq.
  rewrite (truncating_run self img a Hn Hp Hlt).
  rewrite (truncating_run self img' a' Hn' Hp' Hlt').
  now rewrite Heq.
Qed.

Lemma first_samples_firstn {A} (n c : nat) (px : list A) :
  length px = c -> (n <= c)%nat -> first_samples n px (firstn n px).
Proof.
  intros Hlen Hn. split.
  - rewrite length_firstn. lia.
  - intros k Hk. rewrite nth_error_firstn.
    apply Nat.ltb_lt in Hk. now rewrite Hk.
Qed.

(** [img[:, :, :n]] keeps the first [n] samples of every pixel. *)
Lemma channels_upto_first {A} (n c : nat) (a : array3 A) :
  wf_image c a -> (n <= c)%nat ->
  Forall2 (Forall2 (first_samples n)) a (channels_upto n a) /\
  wf_image n (channels_upto n a).
Proof.
  intros Hwf Hn. unfold channels_upto. split.
  - apply Forall2_pmap. destruct Hwf as (_ & _ & _ & Hc).
    eapply Forall_Forall_impl; [|exact Hc].
    intros px Hpx. cbn beta. now apply (first_samples_firstn n c).
  - apply (wf_image_pmap c); [assumption|].
    intros px Hpx. rewrite length_firstn. lia.
Qed.

(** The tensor made of a picture has one plane per channel. *)
Lemma to_tensor_planes (n : nat) (img : array3 Q) :
  wf_image n img -> length (to_tensor img) = n.
Proof.
  intros Hwf. pose proof (wf_image_nchan _ _ Hwf) as Hc.
  destruct Hwf as (Hh & Hw & _).
  unfold to_tensor, hwc_to_chw, take_channels. rewrite Hc.
  destruct (n =? 3)%nat eqn:E3; [|destruct (n =? 4)%nat eqn:E4];
    rewrite length_map, length_seq; [| |exact Hc].
  - apply Nat.eqb_eq in E3. subst n.
    destruct img as [|[|px row] rest]; cbn in *; first [lia|reflexivity].
  - apply Nat.eqb_eq in E4. subst n.
    destruct img as [|[|px row] rest]; cbn in *; first [lia|reflexivity].
Qed.

Lemma wf_image_amap {A B} (k : nat) (f : A -> B) (img : array3 A) :
  wf_image k img -> wf_image k (amap f img).
Proof.
  intros Hwf. unfold amap. apply (wf_image_pmap k); [assumption|].
  intros px Hpx. now rewrite length_map.
Qed.

(** [Image.fromarray] looks at the channel count only. *)
Lemma Image_fromarray_channels (k : nat) (rlt : array3 Z) :
  wf_image k rlt ->
  Image_fromarray rlt
  = if (2 <=? k)%nat && (k <=? 4)%nat then Ok rlt else Raise TypeError.
Proof.
  intros Hwf. unfold Image_fromarray.
  now rewrite (wf_image_nchan _ _ Hwf).
Qed.

(** C8 on the code. If a three-dimensional input has more channels than
    the model expects and the alpha path does not apply, [upscale] logs
    the warning "Truncating image channels" and hands the network the
    picture [kept], whose pixels are the first [last_in_nc] samples of
    the input's pixels and nothing else, as a tensor of [last_in_nc]
    planes; it returns the rescaled answer whenever the network answers,
    and an error only when the network raises it.  [run], around a
    splitter that upscales the whole picture at once, then completes when
    the answer has two, three or four channels; when the answer has one
    channel, as that of a network with one channel in and out, [run]
    raises TypeError in [Image.fromarray] after the truncation. *)
Theorem C8_truncation
    (auto_split_upscale :
       int_array -> (int_array -> M (array3 Q)) -> Z -> option nat ->
       M (array3 Q * nat))
    (self : Upscale) (img : int_array) (a : array3 Q) (c : nat)
    (t : tensor) (depth : nat) :
  normalize img = Arr3 a ->
  wf_image c a ->
  takes_alpha_path self (Arr3 a) = false ->
  (last_in_nc self < c)%nat ->
  exists kept : array3 Q,
    Forall2 (Forall2 (first_samples (last_in_nc self))) a kept /\
    length (to_tensor kept) = last_in_nc self /\
    upscale self img
    = ([Warning "Truncating image channels"; ModelCall (to_tensor kept)],
       match model self (to_tensor kept) with
       | Ok answer => Ok (rescale (of_tensor answer))
       | Raise e => Raise e
       end) /\
    (input self = img ->
     seamless self = None ->
     auto_split_upscale img (upscale self) (last_scale self) None
     = (r <- upscale self img ;; ret (r, depth)) ->
     model self (to_tensor kept) = Ok t ->
     (wf_image 1 (of_tensor t) ->
      run auto_split_upscale self
      = ([SplitCall None; Warning "Truncating image channels";
          ModelCall (to_tensor kept)],
         Raise TypeError)) /\
     (forall k : nat,
        (2 <= k <= 4)%nat -> wf_image k (of_tensor t) ->
        run auto_split_upscale self
        = ([SplitCall None; Warning "Truncating image channels";
            ModelCall (to_tensor kept)],
           Ok (amap astype_uint8 (rescale (of_tensor t)))))).
Proof.
  intros Hn Hwf Hp Hlt.
  pose proof (wf_image_nchan _ _ Hwf) as Hc.
  destruct (channels_upto_first (last_in_nc self) c a Hwf ltac:(lia))
    as [Hfirst Hkept].
  assert (Hup : upscale self img
                = ([Warning "Truncating image channels";
                    ModelCall (to_tensor (channels_upto (last_in_nc self) a))],
                   match model self
                           (to_tensor (channels_upto (last_in_nc self) a))
                   with
                   | Ok answer => Ok (rescale (of_tensor answer))
                   | Raise e => Raise e
                   end)).
  { rewrite (truncating_run self img a Hn Hp) by (rewrite Hc; exact Hlt).
    cbn [bind emit ret app]. rewrite process_run.
    destruct (model self (to_tensor (channels_upto (last_in_nc self) a)));
      reflexivity. }
  exists (channels_upto (last_in_nc self) a).
  split; [exact Hfirst|]. split; [now apply to_tensor_planes|].
  split; [exact Hup|].
  intros Hin Hseam Hsplit Hmodel.
  assert (Hprep : prepare self = Ok img).
  { unfold prepare. rewrite Hin, Hseam.
    destruct img as [d [g|a0]]; [discriminate Hn|reflexivity]. }
  rewrite Hup, Hmodel in Hsplit. cbn [bind ret app] in Hsplit.
  pose proof (run_prepared auto_split_upscale self img _ _ Hprep Hsplit)
    as Hrun.
  rewrite Hseam in Hrun.
  split.
  - intros Hone. rewrite Hrun.
    rewrite (Image_fromarray_channels 1); [reflexivity|].
    unfold rescale. now do 2 apply wf_image_amap.
  - intros k Hk Hwfk. rewrite Hrun.
    rewrite (Image_fromarray_channels k);
      [|unfold rescale; now do 2 apply wf_image_amap].
    destruct Hk as [Hlo Hhi].
    apply Nat.leb_le in Hlo, Hhi. now rewrite Hlo, Hhi.
Qed.

Lemma C8_truncation_witness :
  exists kept : array3 Q,
    Forall2 (Forall2 (first_samples 1)) (unit_samples bgr_picture) kept /\
    length (to_tensor kept) = 1%nat /\
    upscale demo_mono bgr_picture
    = ([Warning "Truncating image channels"; ModelCall (to_tensor kept)],
       match model demo_mono (to_tensor kept) with
       | Ok answer => Ok (rescale (of_tensor answer))
       | Raise e => Raise e
       end) /\
    (input demo_mono = bgr_picture ->
     seamless demo_mono = None ->
     probe_splitter bgr_picture (upscale demo_mono) 1 None
     = (r <- upscale demo_mono bgr_picture ;; ret (r, 2%nat)) ->
     model demo_mono (to_tensor kept)
     = Ok (to_tensor (channels_upto 1 (unit_samples bgr_picture))) ->
     (wf_image 1 (of_tensor (to_tensor (channels_upto 1
                                          (unit_samples bgr_picture)))) ->
      run probe_splitter demo_mono
      = ([SplitCall None; Warning "Truncating image channels";
          ModelCall (to_tensor kept)],
         Raise TypeError)) /\
     (forall k : nat,
        (2 <= k <= 4)%nat ->
        wf_image k (of_tensor (to_tensor (channels_upto 1
                                            (unit_samples bgr_picture)))) ->
        run probe_splitter demo_mono
        = ([SplitCall None; Warning "Truncating image channels";
            ModelCall (to_tensor kept)],
           Ok (amap astype_uint8
                 (rescale (of_tensor (to_tensor
                    (channels_upto 1 (unit_samples bgr_picture))))))))).
Proof.
  apply (C8_truncation probe_splitter demo_mono bgr_picture
           (unit_samples bgr_picture) 3
           (to_tensor (channels_upto 1 (unit_samples bgr_picture)))
           2%nat).
  - run_code.
  - check_shape.
  - reflexivity.
  - cbn. lia.
Defined.

(** The 2 x 2 BGR picture under the network with one channel in and
    out: [upscale] warns, passes the first channel alone and returns its
    answer; [run] then raises TypeError where the picture should be
    returned. *)
Example truncated_run_raises :
  upscale demo_mono bgr_picture
  = ([Warning "Truncating image channels";
      ModelCall [[[10 * 1 / 255; 40 * 1 / 255];
                  [70 * 1 / 255; 15 * 1 / 255]]]],
     Ok [[[10]; [40]]; [[70]; [15]]]) /\
  run probe_splitter demo_mono
  = ([SplitCall None; Warning "Truncating image channels";
      ModelCall [[[10 * 1 / 255; 40 * 1 / 255];
                  [70 * 1 / 255; 15 * 1 / 255]]]],
     Raise TypeError).
Proof. split; reflexivity. Qed.

(** On that picture the network sees three channels and the run ends
    with a three-channel result. *)
Example truncation_of_five_channels :
  upscale (demo five_channels None false false false (1 # 2) (1 # 5) None)
          five_channels
  = ([Warning "Truncating image channels";
      ModelCall [[[30 * 1 / 255]]; [[20 * 1 / 255]]; [[10 * 1 / 255]]]],
     Ok [[[10; 20; 30]]]).
Proof. reflexivity. Qed.

(** * Further properties of the pipeline *)

(** ** The crop at any scale *)

Lemma crop_window_length {A} (l : list A) (s : Z) :
  (0 <= s)%Z ->
  length (py_slice (16 * s) (16 * s + (Z.of_nat (length l) - 32 * s)) l)
  = Z.to_nat (Z.of_nat (length l) - 32 * s).
Proof.
  intros Hs. unfold py_slice, py_index.
  rewrite length_firstn, length_skipn.
  destruct (Z.ltb_spec (16 * s) 0); [lia|].
  destruct (Z.ltb_spec (16 * s + (Z.of_nat (length l) - 32 * s)) 0); lia.
Qed.

Lemma crop_window_nth {A} (l : list A) (s : Z) (i : nat) (d : A) :
  (0 <= s)%Z ->
  (i < Z.to_nat (Z.of_nat (length l) - 32 * s))%nat ->
  nth i (py_slice (16 * s) (16 * s + (Z.of_nat (length l) - 32 * s)) l) d
  = nth (Z.to_nat (16 * s) + i) l d.
Proof.
  intros Hs Hi. unfold py_slice, py_index.
  rewrite nth_firstn, nth_skipn.
  destruct (Z.ltb_spec (16 * s) 0); [lia|].
  destruct (Z.ltb_spec (16 * s + (Z.of_nat (length l) - 32 * s)) 0);
    [lia|].
  rewrite !Z.min_l by lia.
  destruct (Nat.ltb_spec i
              (Z.to_nat (16 * s + (Z.of_nat (length l) - 32 * s) - 16 * s)));
    [reflexivity|lia].
Qed.

Lemma py_slice_subset {A} (P : A -> Prop) (a b : Z) (l : list A) :
  Forall P l -> Forall P (py_slice a b l).
Proof.
  intros H. unfold py_slice. now apply Forall_take, Forall_drop.
Qed.

(** X1. [crop_seamless] at a scale >= 0 keeps exactly the window that
    starts 16*scale rows and columns in and is H - 32*scale high and
    W - 32*scale wide; a picture not larger than the two margins is
    cropped to nothing. *)
Theorem X1_crop_seamless_window {A} (img : list (list A)) (scale : Z) :
  (0 <= scale)%Z ->
  rectangular (width img) img ->
  height (crop_seamless img scale)
  = Z.to_nat (Z.of_nat (height img) - 32 * scale) /\
  rectangular (Z.to_nat (Z.of_nat (width img) - 32 * scale))
              (crop_seamless img scale) /\
  (forall (y x : nat) (d : A),
     (y < Z.to_nat (Z.of_nat (height img) - 32 * scale))%nat ->
     (x < Z.to_nat (Z.of_nat (width img) - 32 * scale))%nat ->
     nth x (nth y (crop_seamless img scale) []) d
     = nth (Z.to_nat (16 * scale) + x)
           (nth (Z.to_nat (16 * scale) + y) img []) d).
Proof.
  intros Hs Hrect. unfold crop_seamless, height.
  set (W := width img) in *.
  assert (Hrows : Forall (fun row : list A => length row = W)
                    (py_slice (16 * scale)
                       (16 * scale + (Z.of_nat (length img) - 32 * scale))
                       img))
    by (apply py_slice_subset; exact Hrect).
  split; [|split].
  - rewrite length_map. now apply crop_window_length.
  - unfold rectangular. apply Forall_map.
    eapply Forall_impl; [exact Hrows|].
    intros row Hrow. cbn beta. rewrite <- Hrow.
    now apply crop_window_length.
  - intros y x d Hy Hx.
    set (f := py_slice (16 * scale) (16 * scale + (Z.of_nat W - 32 * scale))).
    rewrite (nth_indep _ [] (f [])) by
      (rewrite length_map, crop_window_length; assumption).
    rewrite map_nth. rewrite crop_window_nth by assumption.
    assert (Hlen : length (nth (Z.to_nat (16 * scale) + y) img []) = W).
    { apply rectangular_nth; [exact Hrect|lia]. }
    unfold f. rewrite <- Hlen.
    apply crop_window_nth; [assumption|]. rewrite Hlen. exact Hx.
Qed.

Lemma X1_crop_seamless_window_witness :
  height (crop_seamless
            (copyMakeBorder bgr_2x2 16 16 16 16 BORDER_WRAP [0; 0; 0]%Z) 1)
  = Z.to_nat (Z.of_nat (height (copyMakeBorder bgr_2x2 16 16 16 16
                                  BORDER_WRAP [0; 0; 0]%Z)) - 32 * 1) /\
  rectangular
    (Z.to_nat (Z.of_nat (width (copyMakeBorder bgr_2x2 16 16 16 16
                                  BORDER_WRAP [0; 0; 0]%Z)) - 32 * 1))
    (crop_seamless
       (copyMakeBorder bgr_2x2 16 16 16 16 BORDER_WRAP [0; 0; 0]%Z) 1) /\
  (forall (y x : nat) (d : list Z),
     (y < Z.to_nat (Z.of_nat (height (copyMakeBorder bgr_2x2 16 16 16 16
                                  BORDER_WRAP [0; 0; 0]%Z)) - 32 * 1))%nat ->
     (x < Z.to_nat (Z.of_nat (width (copyMakeBorder bgr_2x2 16 16 16 16
                                  BORDER_WRAP [0; 0; 0]%Z)) - 32 * 1))%nat ->
     nth x (nth y (crop_seamless
                     (copyMakeBorder bgr_2x2 16 16 16 16 BORDER_WRAP
                        [0; 0; 0]%Z) 1) []) d
     = nth (Z.to_nat (16 * 1) + x)
           (nth (Z.to_nat (16 * 1) + y)
                (copyMakeBorder bgr_2x2 16 16 16 16 BORDER_WRAP
                   [0; 0; 0]%Z) []) d).
Proof.
  apply (X1_crop_seamless_window
           (copyMakeBorder bgr_2x2 16 16 16 16 BORDER_WRAP [0; 0; 0]%Z) 1).
  - lia.
  - vm_compute. repeat constructor.
Defined.

(** ** The padded picture *)

Lemma pixel_length {A} (c : nat) (img : array3 A) (zero : list A)
    (y x : nat) :
  Forall (Forall (fun px => length px = c)) img ->
  length zero = c ->
  length (nth x (nth y img []) zero) = c.
Proof.
  intros Hc Hz.
  destruct (nth_in_or_default y img []) as [Hin | ->].
  - rewrite Forall_forall in Hc.
    specialize (Hc _ (proj2 (list_elem_of_In _ _) Hin)).
    destruct (nth_in_or_default x (nth y img []) zero) as [Hin' | ->];
      [|exact Hz].
    rewrite Forall_forall in Hc.
    apply Hc. now apply list_elem_of_In.
  - now destruct x.
Qed.

Lemma copyMakeBorder_wf {A} (c : nat) (img : array3 A) (bt : BorderType)
    (zero : list A) :
  wf_image c img -> length zero = c ->
  wf_image c (copyMakeBorder img 16 16 16 16 bt zero) /\
  height (copyMakeBorder img 16 16 16 16 bt zero) = (height img + 32)%nat /\
  width (copyMakeBorder img 16 16 16 16 bt zero) = (width img + 32)%nat.
Proof.
  intros (Hh & Hw & Hrect & Hc) Hz.
  pose proof (copyMakeBorder_height img 16 16 16 16 bt zero) as HH.
  pose proof (copyMakeBorder_width img 16 16 16 16 bt zero ltac:(lia)) as HW.
  split; [|split; lia].
  unfold wf_image. rewrite HH, HW. repeat split; try lia.
  - unfold rectangular, copyMakeBorder. apply Forall_map.
    apply Forall_forall. intros i _. cbn beta.
    now rewrite length_map, length_seq.
  - unfold copyMakeBorder. apply Forall_map.
    apply Forall_forall. intros i _. cbn beta. apply Forall_map.
    apply Forall_forall. intros j _. cbn beta.
    destruct (borderInterpolate _ _ _); [|exact Hz].
    destruct (borderInterpolate _ _ _); [|exact Hz].
    now apply pixel_length.
Qed.

(** X2. A picture with C channels reaches the splitter well formed: the
    seamless pre-pass of [run] keeps the channel count and the sample
    type and adds a 16-pixel margin on every side (32 rows and 32
    columns in all) in each of the four modes; with no seamless mode the
    picture is handed over as it is. *)
Theorem X2_prepare_padded (self : Upscale) (a : array3 Z) (c : nat) :
  arr_data (input self) = Arr3 a ->
  wf_image c a ->
  exists p : array3 Z,
    prepare self
    = Ok {| arr_dtype := arr_dtype (input self); arr_data := Arr3 p |} /\
    wf_image c p /\
    match seamless self with
    | Some _ => height p = (height a + 32)%nat /\
                width p = (width a + 32)%nat
    | None => p = a
    end.
Proof.
  intros Hin Hwf. unfold prepare. rewrite Hin.
  rewrite (wf_image_nchan _ _ Hwf).
  eexists. split; [reflexivity|].
  destruct (seamless self) as [[| | |]|]; cbn [seamless_pad];
    try (split; [exact Hwf|reflexivity]).
  all: match goal with
       | |- context [copyMakeBorder ?x 16 16 16 16 ?bt ?z] =>
           destruct (copyMakeBorder_wf c x bt z Hwf (repeat_length _ _))
             as (H1 & H2 & H3)
       end; auto.
Qed.

Lemma X2_prepare_padded_witness :
  exists p : array3 Z,
    prepare (demo_tile bgr_picture)
    = Ok {| arr_dtype := arr_dtype (input (demo_tile bgr_picture));
            arr_data := Arr3 p |} /\
    wf_image 3 p /\
    match seamless (demo_tile bgr_picture) with
    | Some _ => height p = (height bgr_2x2 + 32)%nat /\
                width p = (width bgr_2x2 + 32)%nat
    | None => p = bgr_2x2
    end.
Proof.
  apply (X2_prepare_padded (demo_tile bgr_picture) bgr_2x2 3).
  - reflexivity.
  - check_shape.
Defined.

Lemma border_pixels {A} (P : A -> Prop) (img : list (list A))
    (t b l r : nat) (bt : BorderType) (value : A) :
  Forall (Forall P) img -> P value ->
  Forall (Forall P) (copyMakeBorder img t b l r bt value).
Proof.
  intros Himg Hv. unfold copyMakeBorder. apply Forall_map.
  apply Forall_forall. intros i _. cbn beta. apply Forall_map.
  apply Forall_forall. intros j _. cbn beta.
  destruct (borderInterpolate _ _ _) as [y|]; [|exact Hv].
  destruct (borderInterpolate _ _ _) as [x|]; [|exact Hv].
  destruct (nth_in_or_default (Z.to_nat y) img []) as [Hin | ->].
  - rewrite Forall_forall in Himg.
    specialize (Himg _ (proj2 (list_elem_of_In _ _) Hin)).
    destruct (nth_in_or_default (Z.to_nat x) (nth (Z.to_nat y) img []) value)
      as [Hin' | ->]; [|exact Hv].
    rewrite Forall_forall in Himg. apply Himg. now apply list_elem_of_In.
  - now destruct (Z.to_nat x).
Qed.

(** What [cv2.cvtColor] makes of a grey picture it accepts. *)
Lemma cvtColor_GRAY2BGR_Ok {A} (depth : dtype) (g : array2 A) :
  depth <> Int32 -> (0 < height g)%nat -> (0 < width g)%nat ->
  cvtColor_GRAY2BGR depth g = Ok (pmap (fun v => [v; v; v]) g).
Proof.
  intros Hd Hh Hw. unfold cvtColor_GRAY2BGR.
  apply Nat.ltb_lt in Hh, Hw. rewrite Hh, Hw.
  destruct depth; try reflexivity. congruence.
Qed.

(** X3. A two-dimensional (grey) picture of 8-bit or 16-bit samples is
    handed to the splitter as a three-channel picture: every pixel,
    margin included, has its three samples equal, and the seamless
    margin is added as for a colour picture.  A grey picture of 32-bit
    samples is not handed over: [cv2.cvtColor] refuses it and the
    preparation ends with cv2.error. *)
Theorem X3_prepare_grey (self : Upscale) (g : array2 Z) :
  arr_data (input self) = Arr2 g ->
  (0 < height g)%nat -> (0 < width g)%nat ->
  rectangular (width g) g ->
  (arr_dtype (input self) = Int32 -> prepare self = Raise CvError) /\
  (arr_dtype (input self) <> Int32 ->
   exists p : array3 Z,
     prepare self
     = Ok {| arr_dtype := arr_dtype (input self); arr_data := Arr3 p |} /\
     wf_image 3 p /\
     Forall (Forall grey_pixel) p /\
     match seamless self with
     | Some _ => height p = (height g + 32)%nat /\
                 width p = (width g + 32)%nat
     | None => p = pmap (fun v => [v; v; v]) g
     end).
Proof.
  intros Hin Hh Hw Hrect. split.
  { intros Hd. unfold prepare. rewrite Hin, Hd. reflexivity. }
  intros Hd. unfold prepare. rewrite Hin.
  rewrite (cvtColor_GRAY2BGR_Ok _ g Hd Hh Hw).
  set (bgr := pmap (fun v => [v; v; v]) g).
  assert (Hwf : wf_image 3 bgr).
  { unfold wf_image, bgr. rewrite width_pmap.
    unfold height, pmap. rewrite length_map. repeat split; try assumption.
    - unfold rectangular in *. apply Forall_map.
      eapply Forall_impl; [exact Hrect|].
      intros row Hrow. cbn beta. now rewrite length_map.
    - apply Forall_map, Forall_forall. intros row _. cbn beta.
      apply Forall_map, Forall_forall. now intros v _. }
  assert (Hgrey : Forall (Forall grey_pixel) bgr).
  { unfold bgr, pmap.
    apply Forall_map, Forall_forall. intros row _. cbn beta.
    apply Forall_map, Forall_forall. intros v _. now exists v. }
  assert (Hzero : grey_pixel (repeat 0%Z 3)) by now exists 0%Z.
  rewrite (wf_image_nchan _ _ Hwf).
  assert (Hdim : height bgr = height g /\ width bgr = width g).
  { unfold bgr. rewrite width_pmap.
    unfold height, pmap. now rewrite length_map. }
  destruct Hdim as [HH HW].
  eexists. split; [reflexivity|].
  destruct (seamless self) as [[| | |]|]; cbn [seamless_pad];
    try (split; [exact Hwf|split; [exact Hgrey|reflexivity]]).
  all: match goal with
       | |- context [copyMakeBorder ?x 16 16 16 16 ?bt ?z] =>
           destruct (copyMakeBorder_wf 3 x bt z Hwf (repeat_length _ _))
             as (H1 & H2 & H3);
           pose proof (border_pixels grey_pixel x 16 16 16 16 bt z
                         Hgrey Hzero)
       end; rewrite <- HH, <- HW; auto.
Qed.

Lemma X3_prepare_grey_witness :
  (arr_dtype (input (demo_tile grey_picture)) = Int32 ->
   prepare (demo_tile grey_picture) = Raise CvError) /\
  (arr_dtype (input (demo_tile grey_picture)) <> Int32 ->
   exists p : array3 Z,
     prepare (demo_tile grey_picture)
     = Ok {| arr_dtype := arr_dtype (input (demo_tile grey_picture));
             arr_data := Arr3 p |} /\
     wf_image 3 p /\
     Forall (Forall grey_pixel) p /\
     match seamless (demo_tile grey_picture) with
     | Some _ => height p = (height [[0; 51]; [102; 255]]%Z + 32)%nat /\
                 width p = (width [[0; 51]; [102; 255]]%Z + 32)%nat
     | None => p = pmap (fun v => [v; v; v]) [[0; 51]; [102; 255]]%Z
     end).
Proof.
  apply (X3_prepare_grey (demo_tile grey_picture)
           [[0; 51]; [102; 255]]%Z).
  - reflexivity.
  - cbn. lia.
  - cbn. lia.
  - repeat constructor.
Defined.

(** The same grey picture with 32-bit samples never reaches the
    splitter. *)
Example run_refuses_grey_int32 :
  run probe_splitter (demo_tile grey_int32) = ([], Raise CvError).
Proof. reflexivity. Qed.

(** ** The size of what [run] returns *)

Lemma amap_shape {A B} (f : A -> B) (w : nat) (img : array3 A) :
  rectangular w img ->
  height (amap f img) = height img /\ rectangular w (amap f img).
Proof.
  intros Hrect. unfold amap, pmap, height. rewrite length_map.
  split; [reflexivity|]. unfold rectangular in *. apply Forall_map.
  eapply Forall_impl; [exact Hrect|].
  intros row Hrow. cbn beta. now rewrite length_map.
Qed.

Lemma crop_seamless_wf {A} (k : nat) (rlt : array3 A) (s : Z) :
  (0 <= s)%Z ->
  rectangular (width rlt) rlt ->
  Forall (Forall (fun px => length px = k)) rlt ->
  (32 * s < Z.of_nat (height rlt))%Z ->
  (32 * s < Z.of_nat (width rlt))%Z ->
  wf_image k (crop_seamless rlt s) /\
  height (crop_seamless rlt s)
  = Z.to_nat (Z.of_nat (height rlt) - 32 * s) /\
  width (crop_seamless rlt s)
  = Z.to_nat (Z.of_nat (width rlt) - 32 * s).
Proof.
  intros Hs Hrect Hc Hh Hw.
  assert (Hrows : Forall (fun row : list (list A) =>
                            length row = width rlt /\
                            Forall (fun px => length px = k) row)
                    (py_slice (16 * s)
                       (16 * s + (Z.of_nat (length rlt) - 32 * s)) rlt)).
  { apply py_slice_subset. unfold rectangular in Hrect.
    rewrite Forall_forall in Hrect, Hc. apply Forall_forall.
    intros row Hrow. split; [now apply Hrect|now apply Hc]. }
  assert (Hheight : height (crop_seamless rlt s)
                    = Z.to_nat (Z.of_nat (height rlt) - 32 * s)).
  { unfold crop_seamless, height. rewrite length_map.
    apply crop_window_length, Hs. }
  assert (Hall : Forall (fun row : list (list A) =>
                           length row
                           = Z.to_nat (Z.of_nat (width rlt) - 32 * s) /\
                           Forall (fun px => length px = k) row)
                   (crop_seamless rlt s)).
  { unfold crop_seamless, height. apply Forall_map.
    eapply Forall_impl; [exact Hrows|].
    intros row [Hlen Hpx]. cbn beta. split.
    - rewrite <- Hlen. now apply crop_window_length.
    - now apply py_slice_subset. }
  assert (Hwidth : width (crop_seamless rlt s)
                   = Z.to_nat (Z.of_nat (width rlt) - 32 * s)).
  { destruct (crop_seamless rlt s) as [|row rest] eqn:E.
    - cbn in Hheight. unfold height in *. lia.
    - inversion Hall as [|? ? [Hrow _] _]; subst. exact Hrow. }
  split; [|split; assumption].
  unfold wf_image. rewrite Hheight, Hwidth. unfold height in *.
  repeat split; try lia.
  - unfold rectangular. eapply Forall_impl; [exact Hall|].
    now intros row [Hrow _].
  - eapply Forall_impl; [exact Hall|]. now intros row [_ Hpx].
Qed.

(** X4. With a seamless mode on and a scale of at least 1, when the
    splitter answers the padded H+32 by W+32 picture with a rectangular
    picture [scale] times as large that has two, three or four channels,
    [run] returns a picture of exactly scale*H rows and scale*W columns
    with those channels: the crop removes the upscaled margin and nothing
    else, and [Image.fromarray] accepts the result.  The trace is the
    splitter call, without a depth hint, followed by the splitter's own
    events. *)
Theorem X4_run_output_size
    (auto_split_upscale :
       int_array -> (int_array -> M (array3 Q)) -> Z -> option nat ->
       M (array3 Q * nat))
    (self : Upscale) (a : array3 Z) (c : nat) (mode : SeamlessOptions)
    (p : int_array) (evs : list event) (rlt : array3 Q) (depth k : nat) :
  arr_data (input self) = Arr3 a ->
  wf_image c a ->
  seamless self = Some mode ->
  (0 < last_scale self)%Z ->
  prepare self = Ok p ->
  auto_split_upscale p (upscale self) (last_scale self) None
  = (evs, Ok (rlt, depth)) ->
  Z.of_nat (height rlt) = (last_scale self * Z.of_nat (height a + 32))%Z ->
  Z.of_nat (width rlt) = (last_scale self * Z.of_nat (width a + 32))%Z ->
  rectangular (width rlt) rlt ->
  Forall (Forall (fun px => length px = k)) rlt ->
  (2 <= k <= 4)%nat ->
  exists out : array3 Z,
    run auto_split_upscale self = (SplitCall None :: evs, Ok out) /\
    Z.of_nat (height out) = (last_scale self * Z.of_nat (height a))%Z /\
    Z.of_nat (width out) = (last_scale self * Z.of_nat (width a))%Z /\
    wf_image k out.
Proof.
  intros Hin (Hha & Hwa & _) Hmode Hs Hprep Hsp HH HW Hrect Hc Hk.
  destruct (crop_seamless_wf k rlt (last_scale self))
    as (Hwf & Hheight & Hwidth); try assumption; try nia.
  pose proof (wf_image_amap k astype_uint8 _ Hwf) as Hout.
  exists (amap astype_uint8 (crop_seamless rlt (last_scale self))).
  split; [|split; [|split; [|exact Hout]]].
  - rewrite (run_prepared auto_split_upscale self p _ _ Hprep Hsp), Hmode.
    rewrite (Image_fromarray_channels k _ Hout).
    destruct Hk as [Hlo Hhi]. apply Nat.leb_le in Hlo, Hhi.
    now rewrite Hlo, Hhi.
  - unfold amap, pmap, height in *. rewrite length_map, Hheight. lia.
  - unfold amap. rewrite width_pmap, Hwidth. lia.
Qed.

Lemma X4_run_output_size_witness :
  exists out : array3 Z,
    run probe_splitter (demo_tile bgr_picture)
    = (SplitCall None
         :: events (upscale (demo_tile bgr_picture)
                      {| arr_dtype := UInt8;
                         arr_data := Arr3 (seamless_pad [0; 0; 0]%Z
                                             (Some TILE) bgr_2x2) |}),
       Ok out) /\
    Z.of_nat (height out)
    = (last_scale (demo_tile bgr_picture) * Z.of_nat (height bgr_2x2))%Z /\
    Z.of_nat (width out)
    = (last_scale (demo_tile bgr_picture) * Z.of_nat (width bgr_2x2))%Z /\
    wf_image 3 out.
Proof.
  apply (X4_run_output_size probe_splitter (demo_tile bgr_picture)
           bgr_2x2 3 TILE
           {| arr_dtype := UInt8;
              arr_data := Arr3 (seamless_pad [0; 0; 0]%Z
                                  (Some TILE) bgr_2x2) |}
           _
           (value_of (upscale (demo_tile bgr_picture)
                        {| arr_dtype := UInt8;
                           arr_data := Arr3 (seamless_pad [0; 0; 0]%Z
                                               (Some TILE) bgr_2x2) |})
                     [])
           2%nat).
  - reflexivity.
  - check_shape.
  - reflexivity.
  - cbn. lia.
  - reflexivity.
  - run_code.
  - run_code.
  - run_code.
  - vm_compute. repeat constructor.
  - vm_compute. repeat constructor.
  - lia.
Defined.

(** The picture that run gives back for the 2 x 2 fixture under the
    identity network is the picture itself. *)
Example run_tile_identity :
  outcome (run probe_splitter (demo_tile bgr_picture)) = Ok bgr_2x2.
Proof. run_code. Qed.

(** X5. The failures of [run].  A two-dimensional picture of 32-bit
    samples ends the run with the cv2.error of [cv2.cvtColor] before the
    splitter is called.  A picture with a pixel that is three-dimensional
    or has 8-bit or 16-bit samples is prepared and the splitter called.
    If the splitter fails, [run] fails with the
    splitter's error after the splitter's events.  If it answers, the only
    step left that can fail is [Image.fromarray]: on an answer whose
    window has K channels, [run] returns the 8-bit picture when K is 2, 3
    or 4 and raises TypeError otherwise; the dictionary lookup, the crop
    and the cast raise nothing. *)
Theorem X5_run_failures
    (auto_split_upscale :
       int_array -> (int_array -> M (array3 Q)) -> Z -> option nat ->
       M (array3 Q * nat))
    (self : Upscale) :
  (refused (input self) ->
   run auto_split_upscale self = ([], Raise CvError)) /\
  (convertible (input self) ->
   exists p : int_array,
     prepare self = Ok p /\
     (forall (evs : list event) (e : exn),
        auto_split_upscale p (upscale self) (last_scale self) None
        = (evs, Raise e) ->
        run auto_split_upscale self = (SplitCall None :: evs, Raise e)) /\
     (forall (evs : list event) (rlt : array3 Q) (depth k : nat),
        auto_split_upscale p (upscale self) (last_scale self) None
        = (evs, Ok (rlt, depth)) ->
        wf_image k match seamless self with
                   | Some _ => crop_seamless rlt (last_scale self)
                   | None => rlt
                   end ->
        run auto_split_upscale self
        = (SplitCall None :: evs,
           if (2 <=? k)%nat && (k <=? 4)%nat
           then Ok (amap astype_uint8
                      match seamless self with
                      | Some _ => crop_seamless rlt (last_scale self)
                      | None => rlt
                      end)
           else Raise TypeError))).
Proof.
  split.
  - intros Hc. apply run_not_prepared. now apply prepare_refused.
  - intros Hc. destruct (prepare_convertible self Hc) as [p Hp].
    exists p. split; [exact Hp|]. split.
    + intros evs e Hsp.
      now rewrite (run_prepared auto_split_upscale self p _ _ Hp Hsp).
    + intros evs rlt depth k Hsp Hwf.
      rewrite (run_prepared auto_split_upscale self p _ _ Hp Hsp).
      now rewrite (Image_fromarray_channels k _ (wf_image_amap k _ _ Hwf)).
Qed.

Lemma X5_run_failures_witness :
  run probe_splitter (demo_tile grey_int32) = ([], Raise CvError) /\
  run probe_splitter demo_mono
  = (SplitCall None
       :: events (probe_splitter bgr_picture (upscale demo_mono) 1 None),
     Raise TypeError).
Proof.
  split.
  - apply (proj1 (X5_run_failures probe_splitter (demo_tile grey_int32))).
    split; [reflexivity|]. now exists [[0; 51]; [102; 255]]%Z.
  - destruct (proj2 (X5_run_failures probe_splitter demo_mono))
      as (p & Hp & _ & Hanswer).
    + cbn. lia.
    + injection Hp as <-.
      apply (Hanswer _ (value_of (upscale demo_mono bgr_picture) [])
                     2%nat 1%nat).
      * reflexivity.
      * check_shape.
Defined.

(** ** The range of the samples *)

Lemma bind_Ok_inv {A B} (m : M A) (k : A -> M B) (evs : list event)
    (b : B) :
  bind m k = (evs, Ok b) ->
  exists (e1 : list event) (a : A) (e2 : list event),
    m = (e1, Ok a) /\ k a = (e2, Ok b) /\ evs = e1 ++ e2.
Proof.
  destruct m as [e1 [a|e]]; cbn; [|discriminate].
  destruct (k a) as [e2 r] eqn:Ek. intros H. inversion H; subst.
  now exists e1, a, e2.
Qed.

Lemma lift_Ok_inv {A} (r : result A) (evs : list event) (a : A) :
  lift r = (evs, Ok a) -> r = Ok a.
Proof. unfold lift. now inversion 1. Qed.

Lemma clip_unit (v : Q) : unit_sample (clip 0 1 v).
Proof.
  unfold unit_sample, clip.
  destruct (Qltb v 0) eqn:E0.
  - destruct (Qltb 1 0) eqn:E1; [apply Qltb_lt in E1|]; lra.
  - apply Qltb_ge in E0.
    destruct (Qltb 1 v) eqn:E1; [lra|]. apply Qltb_ge in E1. lra.
Qed.

Lemma unit_0 : unit_sample 0.
Proof. unfold unit_sample. lra. Qed.

Lemma unit_1 : unit_sample 1.
Proof. unfold unit_sample. lra. Qed.

Lemma nth_Forall {A} (P : A -> Prop) (l : list A) (i : nat) (d : A) :
  Forall P l -> P d -> P (nth i l d).
Proof.
  intros Hl Hd. destruct (nth_in_or_default i l d) as [Hin | ->];
    [|exact Hd].
  rewrite Forall_forall in Hl. apply Hl. now apply list_elem_of_In.
Qed.

Lemma Forall_map_all {A B} (P : B -> Prop) (f : A -> B) (l : list A) :
  (forall x, P (f x)) -> Forall P (map f l).
Proof. intros H. apply Forall_map, Forall_forall. intros x _. apply H. Qed.

Lemma of_tensor_unit (t : tensor) : all_samples unit_sample (of_tensor t).
Proof.
  unfold of_tensor.
  assert (Hclip : Forall (Forall (Forall unit_sample))
                    (amap (clip 0 1) t)).
  { unfold amap, pmap. apply Forall_map_all. intros plane.
    apply Forall_map_all. intros row. apply Forall_map_all.
    apply clip_unit. }
  set (planes := amap (clip 0 1) t) in *.
  assert (Hnth : forall k, Forall (Forall unit_sample) (nth k planes []))
    by (intros k; apply nth_Forall; [exact Hclip|constructor]).
  assert (Hre : forall out : tensor,
             Forall (Forall (Forall unit_sample)) out ->
             all_samples unit_sample (chw_to_hwc out)).
  { intros out Hout. unfold all_samples, chw_to_hwc.
    apply Forall_map_all. intros y. apply Forall_map_all. intros x.
    apply Forall_map. eapply Forall_impl; [exact Hout|].
    intros plane Hplane. cbn beta.
    apply nth_Forall; [|apply unit_0].
    apply nth_Forall; [exact Hplane|constructor]. }
  destruct (length planes =? 3)%nat; [|destruct (length planes =? 4)%nat].
  - apply Hre. cbn [map]. repeat constructor; apply Hnth.
  - apply Hre. cbn [map]. repeat constructor; apply Hnth.
  - apply Hre, Hclip.
Qed.

Lemma process_unit (self : Upscale) (img out : array3 Q)
    (evs : list event) :
  process self img = (evs, Ok out) -> all_samples unit_sample out.
Proof.
  rewrite process_run.
  destruct (model self (to_tensor img)) as [t|e]; [|discriminate].
  intros H. inversion H; subst. apply of_tensor_unit.
Qed.

(** X6. Whatever the network answers, the samples [process] returns lie
    in [0, 1]. *)
Theorem X6_process_clamped (self : Upscale) (img out : array3 Q)
    (evs : list event) :
  process self img = (evs, Ok out) -> all_samples unit_sample out.
Proof.
  intros H. rewrite process_run in H.
  destruct (model self (to_tensor img)) as [t|e]; [|discriminate].
  inversion H; subst. apply of_tensor_unit.
Qed.

Lemma X6_process_clamped_witness :
  all_samples unit_sample
    (value_of (process (demo_stretch false false None)
                       (channels_upto 3 (unit_samples bgra_1x2))) []).
Proof.
  apply (X6_process_clamped (demo_stretch false false None)
           (channels_upto 3 (unit_samples bgra_1x2)) _
           (events (process (demo_stretch false false None)
                      (channels_upto 3 (unit_samples bgra_1x2))))).
  run_code.
Defined.

(** The stretched answer on the first pixel, 3v - 1 for v = 1, 0, 0.2,
    comes back as 1, 0, 0. *)
Example process_clamps_stretched :
  outcome (process (demo_stretch false false None)
                   (channels_upto 3 (unit_samples bgra_1x2)))
  = Ok [[[clip 0 1 (3 * (255 * 1 / 255) - 1);
          clip 0 1 (3 * (0 * 1 / 255) - 1);
          clip 0 1 (3 * (51 * 1 / 255) - 1)];
         [clip 0 1 (3 * (10 * 1 / 255) - 1);
          clip 0 1 (3 * (20 * 1 / 255) - 1);
          clip 0 1 (3 * (30 * 1 / 255) - 1)]]].
Proof. reflexivity. Qed.

Lemma zip2_Forall {A B C} (P : A -> Prop) (Q' : B -> Prop)
    (R : C -> Prop) (f : A -> B -> C)
    (a : list (list A)) (b : list (list B)) :
  Forall (Forall P) a -> Forall (Forall Q') b ->
  (forall x y, P x -> Q' y -> R (f x y)) ->
  Forall (Forall R) (zip2 f a b).
Proof.
  intros Ha Hb Hf. unfold zip2. revert b Hb.
  induction Ha as [|ra a Hra _ IH]; intros [|rb b] Hb; cbn;
    try constructor.
  - inversion Hb as [|? ? Hrb _]; subst. clear -Hra Hrb Hf.
    revert rb Hrb.
    induction Hra as [|x ra Hx _ IHr]; intros [|y rb] Hrb; cbn;
      try constructor.
    + inversion Hrb; subst. now apply Hf.
    + inversion Hrb; subst. now apply IHr.
  - inversion Hb; subst. now apply IH.
Qed.

Lemma channel_unit (k : nat) (img : array3 Q) :
  all_samples unit_sample img -> Forall (Forall unit_sample) (channel k img).
Proof.
  intros H. unfold channel, pmap. apply Forall_map.
  eapply Forall_impl; [exact H|]. intros row Hrow. cbn beta.
  apply Forall_map. eapply Forall_impl; [exact Hrow|].
  intros px Hpx. cbn beta. apply nth_Forall; [exact Hpx|apply unit_0].
Qed.

Lemma get_channel_unit (k : nat) (img : array3 Q) (c : array2 Q) :
  all_samples unit_sample img -> get_channel k img = Ok c ->
  Forall (Forall unit_sample) c.
Proof.
  intros H. unfold get_channel. destruct (k <? nchan img)%nat;
    [|discriminate].
  intros Hc. inversion Hc; subst. now apply channel_unit.
Qed.

Lemma merge_unit (planes : list (array2 Q)) (m : array3 Q) :
  Forall (Forall (Forall unit_sample)) planes ->
  merge planes = Ok m -> all_samples unit_sample m.
Proof.
  intros Hp. unfold merge. destruct planes as [|p0 ps]; [discriminate|].
  destruct (forallb (same_hw p0) ps); [|discriminate].
  intros H. inversion H; subst. clear H.
  inversion Hp as [|? ? Hp0 Hps]; subst.
  assert (Hacc : all_samples unit_sample (pmap (fun v => [v]) p0)).
  { unfold all_samples, pmap. apply Forall_map.
    eapply Forall_impl; [exact Hp0|]. intros row Hrow. cbn beta.
    apply Forall_map. eapply Forall_impl; [exact Hrow|].
    intros v Hv. cbn beta. constructor; [exact Hv|constructor]. }
  clear Hp Hp0. revert Hacc. generalize (pmap (fun v : Q => [v]) p0).
  induction Hps as [|p ps Hpl _ IH]; intros acc Hacc; [exact Hacc|].
  cbn [fold_left]. apply IH.
  apply (zip2_Forall (Forall unit_sample) unit_sample); try assumption.
  intros px v Hpx Hv. apply Forall_app_2; [exact Hpx|].
  constructor; [exact Hv|constructor].
Qed.

Lemma amap_clip_unit (img : array3 Q) :
  all_samples unit_sample (amap (clip 0 1) img).
Proof.
  unfold all_samples, amap, pmap. apply Forall_map_all. intros row.
  apply Forall_map_all. intros px. apply Forall_map_all. apply clip_unit.
Qed.

Lemma map_channel3_unit (f : Q -> Q) (img out : array3 Q) :
  (forall a, unit_sample (f a)) ->
  all_samples unit_sample img ->
  map_channel3 f img = Ok out -> all_samples unit_sample out.
Proof.
  intros Hf Himg. unfold map_channel3.
  destruct (nchan img <? 4)%nat; [discriminate|].
  intros H. inversion H; subst. unfold all_samples, pmap.
  apply Forall_map. eapply Forall_impl; [exact Himg|].
  intros row Hrow. cbn beta. apply Forall_map.
  eapply Forall_impl; [exact Hrow|]. intros px Hpx. cbn beta.
  apply Forall_insert; [exact Hpx|apply Hf].
Qed.

Lemma pmap_snoc_unit (img : array3 Q) :
  all_samples unit_sample img ->
  all_samples unit_sample (pmap (fun px => px ++ [1]) img).
Proof.
  intros H. unfold all_samples, pmap. apply Forall_map.
  eapply Forall_impl; [exact H|]. intros row Hrow. cbn beta.
  apply Forall_map. eapply Forall_impl; [exact Hrow|].
  intros px Hpx. cbn beta. apply Forall_app_2; [exact Hpx|].
  constructor; [apply unit_1|constructor].
Qed.

Ltac bind_inv H :=
  let e1 := fresh "e" in
  let a := fresh "o" in
  let e2 := fresh "e" in
  let Hm := fresh "Hm" in
  let Hk := fresh "Hk" in
  apply bind_Ok_inv in H as (e1 & a & e2 & Hm & Hk & _).

Lemma alpha_strategy_unit (self : Upscale) (a out : array3 Q)
    (evs : list event) :
  alpha_strategy self a = (evs, Ok out) -> all_samples unit_sample out.
Proof.
  unfold alpha_strategy.
  assert (Hremove : forall evs out,
             alpha_remove self a = (evs, Ok out) ->
             all_samples unit_sample out).
  { clear. intros evs out H. unfold alpha_remove in H. bind_inv H.
    apply process_unit in Hm. apply lift_Ok_inv in Hk.
    unfold cvtColor_BGR2BGRA in Hk.
    destruct (nchan o =? 3)%nat;
      [|destruct (nchan o =? 4)%nat; [|discriminate]];
      inversion Hk; subst; [now apply pmap_snoc_unit|assumption]. }
  destruct (alpha_mode self) as [[| | |]|]; try apply Hremove; intros H.
  - unfold alpha_bg_difference in H.
    destruct (bg_composites a) as [img1 img2].
    bind_inv H. bind_inv Hk. apply lift_Ok_inv in Hk0.
    unfold bg_assemble in Hk0.
    destruct (arr_sub o0 o) as [diff|]; [|discriminate].
    destruct (dstack _ _) as [stacked|]; [|discriminate].
    inversion Hk0; subst. apply amap_clip_unit.
  - unfold alpha_separately in H.
    bind_inv H. bind_inv Hk. bind_inv Hk0.
    apply process_unit in Hm0, Hm1.
    bind_inv Hk. bind_inv Hk0. bind_inv Hk. bind_inv Hk0.
    apply lift_Ok_inv in Hm2, Hm3, Hm4, Hm5, Hk.
    eapply merge_unit; [|exact Hk].
    repeat (constructor;
            [eapply get_channel_unit; [|eassumption]; assumption|]).
    constructor.
  - unfold alpha_swapping in H.
    bind_inv H. bind_inv Hk. bind_inv Hk0. bind_inv Hk.
    apply process_unit in Hm1, Hm2.
    bind_inv Hk0. bind_inv Hk. bind_inv Hk0. bind_inv Hk.
    apply lift_Ok_inv in Hm3, Hm4, Hm5, Hm6, Hk0.
    eapply merge_unit; [|exact Hk0].
    repeat (constructor;
            [eapply get_channel_unit; [|eassumption]; assumption|]).
    constructor.
Qed.

Lemma threshold_binary_unit (t a : Q) : unit_sample (threshold_binary t 1 a).
Proof.
  unfold threshold_binary. destruct (Qltb t a); [apply unit_1|apply unit_0].
Qed.

Lemma ternary_unit (lo hi a : Q) : unit_sample (ternary lo hi a).
Proof.
  unfold ternary. destruct (Qltb a lo); [apply unit_0|].
  destruct (Qle_bool a hi); [|apply unit_1].
  unfold unit_sample. lra.
Qed.

Lemma upscale_unit_range (self : Upscale) (img : int_array)
    (out : array3 Q) (evs : list event) :
  upscale_unit self img = (evs, Ok out) -> all_samples unit_sample out.
Proof.
  assert (Hadapt : forall x evs out,
             adapt_channels self x = (evs, Ok out) ->
             all_samples unit_sample out).
  { clear. intros x evs out H. unfold adapt_channels in H.
    bind_inv H. now apply process_unit in Hk. }
  unfold upscale_unit.
  destruct (normalize img) as [a|a]; [apply Hadapt|].
  destruct (takes_alpha_path self (Arr3 a)); [|apply Hadapt].
  intros H. bind_inv H. apply alpha_strategy_unit in Hm.
  unfold alpha_quantize in Hk.
  destruct (binary_alpha self); [|destruct (ternary_alpha self)].
  - apply lift_Ok_inv in Hk.
    eapply map_channel3_unit; [|exact Hm|exact Hk].
    intros x. apply threshold_binary_unit.
  - apply lift_Ok_inv in Hk.
    eapply map_channel3_unit; [|exact Hm|exact Hk].
    intros x. apply ternary_unit.
  - inversion Hk; subst. exact Hm.
Qed.

(** [np.round] of 255 v for v in [0, 1] is one of 0..255. *)
Lemma np_round_byte (v : Q) :
  unit_sample v -> (0 <= np_round (v * 255) <= 255)%Z.
Proof.
  intros [H0 H1]. unfold np_round.
  set (x := v * 255). set (f := Qfloor x).
  assert (Hx0 : 0 <= x) by (unfold x; lra).
  assert (Hx1 : x <= 255) by (unfold x; lra).
  assert (Hf0 : (0 <= f)%Z)
    by (change 0%Z with (Qfloor 0); apply Qfloor_resp_le, Hx0).
  assert (Hf1 : (f <= 255)%Z)
    by (change 255%Z with (Qfloor 255); apply Qfloor_resp_le, Hx1).
  pose proof (Qfloor_le x) as Hfl. fold f in Hfl.
  destruct (Qltb (x - inject_Z f) (1 # 2)) eqn:E; [lia|].
  apply Qltb_ge in E.
  assert (Hne : f <> 255%Z).
  { intros Heq. rewrite Heq in E.
    change (inject_Z 255) with 255 in E. lra. }
  destruct (Qltb (1 # 2) (x - inject_Z f)); [lia|].
  destruct (Z.even f); lia.
Qed.

Lemma rescale_byte (out : array3 Q) :
  all_samples unit_sample out -> all_samples byte_sample (rescale out).
Proof.
  intros H. unfold all_samples, rescale, amap, pmap.
  apply Forall_map. eapply Forall_impl; [exact H|].
  intros row Hrow. cbn beta. apply Forall_map.
  eapply Forall_impl; [exact Hrow|]. intros px Hpx. cbn beta.
  apply Forall_map. eapply Forall_impl; [exact Hpx|].
  intros v Hv. cbn beta. eexists. split; [reflexivity|].
  now apply np_round_byte.
Qed.

Lemma upscale_byte (self : Upscale) (img : int_array)
    (out : array3 Q) (evs : list event) :
  upscale self img = (evs, Ok out) -> all_samples byte_sample out.
Proof.
  intros H. unfold upscale in H. bind_inv H.
  inversion Hk; subst. apply rescale_byte.
  eapply upscale_unit_range, Hm.
Qed.

(** X7. Whatever the network, the configuration and the picture, every
    sample [upscale] returns is one of the integers 0..255. *)
Theorem X7_upscale_samples_are_bytes (self : Upscale) (img : int_array)
    (out : array3 Q) (evs : list event) :
  upscale self img = (evs, Ok out) -> all_samples byte_sample out.
Proof.
  intros H. unfold upscale in H.
  apply bind_Ok_inv in H as (e1 & unit_out & e2 & Hunit & Hret & _).
  inversion Hret; subst.
  apply rescale_byte. eapply upscale_unit_range, Hunit.
Qed.

Lemma X7_upscale_samples_are_bytes_witness :
  all_samples byte_sample
    (value_of (upscale (demo_stretch false true (Some SWAPPING)) bgra_1x2)
              []).
Proof.
  apply (X7_upscale_samples_are_bytes
           (demo_stretch false true (Some SWAPPING)) bgra_1x2 _
           (events (upscale (demo_stretch false true (Some SWAPPING))
                            bgra_1x2))).
  run_code.
Defined.

Lemma astype_uint8_byte (v : Q) :
  byte_sample v -> inject_Z (astype_uint8 v) = v.
Proof.
  intros (z & -> & Hz). unfold astype_uint8. cbn [Qnum Qden inject_Z].
  rewrite Z.quot_1_r.
  destruct (Z.leb_spec (-2147483648) z); [|lia].
  destruct (Z.leb_spec z 2147483647); [|lia].
  cbn [andb]. rewrite Z.mod_small by lia. reflexivity.
Qed.

(** X8. The cast to 8 bits at the end of [run] loses nothing of what
    [upscale] returns: no sample is truncated and none wraps. *)
Theorem X8_cast_keeps_upscale_output (self : Upscale) (img : int_array)
    (out : array3 Q) (evs : list event) :
  upscale self img = (evs, Ok out) ->
  amap inject_Z (amap astype_uint8 out) = out.
Proof.
  intros H. apply upscale_byte in H.
  unfold amap, pmap. rewrite map_map.
  rewrite <- (map_id out) at 2. apply map_ext_Forall.
  eapply Forall_impl; [exact H|]. intros row Hrow. cbn beta.
  rewrite map_map. rewrite <- (map_id row) at 2. apply map_ext_Forall.
  eapply Forall_impl; [exact Hrow|]. intros px Hpx. cbn beta.
  rewrite map_map. rewrite <- (map_id px) at 2. apply map_ext_Forall.
  eapply Forall_impl; [exact Hpx|]. intros v Hv. cbn beta.
  now apply astype_uint8_byte.
Qed.

Lemma X8_cast_keeps_upscale_output_witness :
  amap inject_Z
    (amap astype_uint8
       (value_of (upscale (demo_stretch true false (Some BG_DIFFERENCE))
                          bgra_1x2) []))
  = value_of (upscale (demo_stretch true false (Some BG_DIFFERENCE))
                      bgra_1x2) [].
Proof.
  apply (X8_cast_keeps_upscale_output
           (demo_stretch true false (Some BG_DIFFERENCE)) bgra_1x2 _
           (events (upscale (demo_stretch true false (Some BG_DIFFERENCE))
                            bgra_1x2))).
  run_code.
Defined.

(** ** The way to the network and back *)

Lemma nth_map_seq {B} (F : nat -> B) (c k : nat) (d : B) :
  (k < c)%nat -> nth k (map F (seq 0 c)) d = F k.
Proof.
  intros Hk. rewrite (nth_indep _ d (F 0%nat))
    by (now rewrite length_map, length_seq).
  rewrite map_nth, seq_nth by assumption. reflexivity.
Qed.

Lemma nth2_pmap {A B} (g : A -> B) (img : list (list A)) (y x : nat)
    (d : B) (d' : A) :
  (x < length (nth y img []))%nat ->
  nth x (nth y (pmap g img) []) d = g (nth x (nth y img []) d').
Proof.
  intros Hx. unfold pmap.
  replace (nth y (map (map g) img) []) with (map g (nth y img []))
    by (symmetry; apply (map_nth (map g) img [] y)).
  rewrite (nth_indep _ d (g d')) by (now rewrite length_map).
  apply map_nth.
Qed.

Lemma height_pmap {A B} (g : A -> B) (img : list (list A)) :
  height (pmap g img) = height img.
Proof. unfold height, pmap. apply length_map. Qed.

Lemma nchan_pmap {A B} (c : nat) (g : A -> list B) (img : list (list A)) :
  (0 < height img)%nat -> (0 < width img)%nat ->
  (forall px, length (g px) = c) ->
  nchan (pmap g img) = c.
Proof.
  intros Hh Hw Hg. destruct img as [|[|px row] rest]; cbn in *; try lia.
  apply Hg.
Qed.

(** The planes of the clamped answer when the network returns its input
    [pmap sigma img]. *)
Lemma clamped_planes (sigma : list Q -> list Q) (img : array3 Q) (c : nat) :
  nchan (pmap sigma img) = c ->
  amap (clip 0 1) (hwc_to_chw (pmap sigma img))
  = map (fun k => pmap (fun px => clip 0 1 (nth k (sigma px) 0)) img)
        (seq 0 c).
Proof.
  intros Hc. unfold hwc_to_chw, amap. rewrite Hc.
  unfold pmap at 1. rewrite map_map. apply map_ext. intros k.
  unfold channel, pmap. rewrite !map_map. apply map_ext. intros row.
  rewrite !map_map. reflexivity.
Qed.

Lemma chw_to_hwc_planes (g : nat -> list Q -> Q) (ks : list nat)
    (img : array3 Q) (c : nat) :
  wf_image c img -> ks <> [] ->
  (forall px, length px = c ->
              map (fun k => g k px) ks = map (clip 0 1) px) ->
  chw_to_hwc (map (fun k => pmap (g k) img) ks) = amap (clip 0 1) img.
Proof.
  intros (Hh & Hw & Hrect & Hc) Hks Hpx. unfold chw_to_hwc.
  destruct ks as [|k0 ks']; [congruence|].
  cbn [map nth]. rewrite height_pmap, width_pmap.
  change (pmap (g k0) img :: map (fun k => pmap (g k) img) ks')
    with (map (fun k => pmap (g k) img) (k0 :: ks')).
  set (ks := k0 :: ks') in *.
  assert (Hlen : length (amap (clip 0 1) img) = height img)
    by (unfold amap, pmap, height; apply length_map).
  unfold height in *. rewrite <- Hlen. apply (map_seq_nth []).
  intros y Hy. rewrite Nat.add_0_l. rewrite Hlen in Hy.
  assert (Hrow : length (nth y img []) = width img)
    by (now apply rectangular_nth).
  assert (Hnth : nth y (amap (clip 0 1) img) []
                 = map (map (clip 0 1)) (nth y img []))
    by apply (map_nth (map (map (clip 0 1))) img [] y).
  rewrite Hnth.
  assert (Hlen' : length (map (map (clip 0 1)) (nth y img [])) = width img)
    by (now rewrite length_map).
  rewrite <- Hlen'. apply (map_seq_nth []).
  intros x Hx. rewrite Nat.add_0_l. rewrite Hlen' in Hx.
  rewrite map_map.
  replace (nth x (map (map (clip 0 1)) (nth y img [])) [])
    with (map (clip 0 1) (nth x (nth y img []) []))
    by (symmetry; apply (map_nth (map (clip 0 1)) (nth y img []) [] x)).
  rewrite <- Hpx.
  - unfold ks. cbn [map]. f_equal; [apply nth2_pmap; lia|].
    apply map_ext. intros k. apply nth2_pmap. lia.
  - rewrite Forall_forall in Hc.
    assert (Hyin : nth y img [] ∈ img) by (apply nth_elem_of; lia).
    specialize (Hc _ Hyin). rewrite Forall_forall in Hc.
    apply Hc. apply nth_elem_of. lia.
Qed.

Lemma of_tensor_to_tensor (img : array3 Q) (c : nat) :
  wf_image c img -> (0 < c)%nat ->
  of_tensor (to_tensor img) = amap (clip 0 1) img.
Proof.
  intros Hwf Hc. pose proof Hwf as (Hh & Hw & _ & _).
  pose proof (wf_image_nchan _ _ Hwf) as Hn.
  unfold to_tensor, of_tensor, take_channels. rewrite Hn.
  destruct (Nat.eqb_spec c 3) as [-> | H3];
    [|destruct (Nat.eqb_spec c 4) as [-> | H4]].
  - rewrite (clamped_planes _ img 3)
      by (apply nchan_pmap; [assumption|assumption|reflexivity]).
    cbn [seq map length Nat.eqb nth].
    apply (chw_to_hwc_planes
             (fun k px => clip 0 1
                (nth k (map (fun k0 => nth k0 px 0) [2; 1; 0]%nat) 0))
             [2; 1; 0]%nat img 3 Hwf); [discriminate|].
    intros px Hpx.
    destruct px as [|b [|g [|r [|? ?]]]]; try discriminate. reflexivity.
  - rewrite (clamped_planes _ img 4)
      by (apply nchan_pmap; [assumption|assumption|reflexivity]).
    cbn [seq map length Nat.eqb nth].
    apply (chw_to_hwc_planes
             (fun k px => clip 0 1
                (nth k (map (fun k0 => nth k0 px 0) [2; 1; 0; 3]%nat) 0))
             [2; 1; 0; 3]%nat img 4 Hwf); [discriminate|].
    intros px Hpx.
    destruct px as [|b [|g [|r [|a [|? ?]]]]]; try discriminate.
    reflexivity.
  - pose proof (clamped_planes (fun px => px) img c) as Hp.
    rewrite pmap_id in Hp. specialize (Hp Hn). cbn beta in Hp.
    rewrite !Hp, length_map, length_seq.
    destruct (Nat.eqb_spec c 3); [contradiction|].
    destruct (Nat.eqb_spec c 4); [contradiction|].
    apply (chw_to_hwc_planes (fun k px => clip 0 1 (nth k px 0))
             (seq 0 c) img c Hwf).
    + destruct c; [lia|discriminate].
    + intros px Hpx. rewrite <- Hpx.
      rewrite <- (length_map (clip 0 1) px).
      apply (map_seq_nth (clip 0 1 0)). intros k Hk.
      rewrite Nat.add_0_l. symmetry. apply map_nth.
Qed.

(** X9. The colour swap and the transposition on the way to the network
    are undone on the way back: when the network returns the tensor it
    was given, [process] returns the picture it was given, clamped to
    [0, 1], for every channel count from 1 on (three channels go BGR to
    RGB and back, four BGRA to RGBA and back). *)
Theorem X9_process_round_trip (self : Upscale) (img : array3 Q) (c : nat) :
  wf_image c img -> (0 < c)%nat ->
  model self (to_tensor img) = Ok (to_tensor img) ->
  process self img
  = ([ModelCall (to_tensor img)], Ok (amap (clip 0 1) img)).
Proof.
  intros Hwf Hc Hmodel. rewrite process_run, Hmodel.
  now rewrite (of_tensor_to_tensor img c Hwf Hc).
Qed.

Lemma X9_process_round_trip_witness :
  process demo_cached (unit_samples bgra_1x2)
  = ([ModelCall (to_tensor (unit_samples bgra_1x2))],
     Ok (amap (clip 0 1) (unit_samples bgra_1x2))).
Proof.
  apply (X9_process_round_trip demo_cached (unit_samples bgra_1x2) 4).
  - check_shape.
  - lia.
  - reflexivity.
Defined.

(** What the network is given for a BGR picture: the red, green and blue
    planes, in that order. *)
Example to_tensor_is_rgb_planes :
  to_tensor [[[1; 2; 3]; [4; 5; 6]]] = [[[3; 6]]; [[2; 5]]; [[1; 4]]].
Proof. reflexivity. Qed.

(** ** A failing network *)

Lemma process_fails (self : Upscale) (img : array3 Q) (e : exn) :
  (forall t, model self t = Raise e) ->
  process self img = ([ModelCall (to_tensor img)], Raise e).
Proof. intros H. now rewrite process_run, H. Qed.

Lemma bind_process_fails {B} (self : Upscale) (img : array3 Q) (e : exn)
    (k : array3 Q -> M B) :
  (forall t, model self t = Raise e) ->
  bind (process self img) k = ([ModelCall (to_tensor img)], Raise e).
Proof. intros H. now rewrite (process_fails self img e H). Qed.

(** X10. A failure of the network is the failure of [upscale], unchanged
    (so an out-of-memory error reaches the splitter as such): with a
    network that fails with [e], [upscale] raises [e] after a single call
    of the network, on every path; the strategies that need two answers
    do not ask for the second. *)
Theorem X10_network_error_propagates (self : Upscale) (img : int_array)
    (e : exn) :
  (forall t, model self t = Raise e) ->
  outcome (upscale self img) = Raise e /\
  exists t : tensor, model_calls (events (upscale self img)) = [t].
Proof.
  intros Hfail.
  assert (Hadapt : forall x, exists t,
             outcome (adapt_channels self x) = Raise e /\
             model_calls (events (adapt_channels self x)) = [t]).
  { intros x. unfold adapt_channels.
    match goal with
    | |- context [if ?c then _ else _] => destruct c
    end; [|match goal with
           | |- context [if ?c then _ else _] => destruct c
           end];
      cbn [bind emit ret app]; rewrite (process_fails _ _ e Hfail);
      eexists; split; reflexivity. }
  assert (Hstrat : forall a, exists t,
             alpha_strategy self a = ([ModelCall t], Raise e)).
  { intros a. unfold alpha_strategy.
    destruct (alpha_mode self) as [[| | |]|].
    - eexists. apply bind_process_fails, Hfail.
    - unfold alpha_bg_difference. destruct (bg_composites a).
      eexists. apply bind_process_fails, Hfail.
    - unfold alpha_separately.
      destruct (merge3_channels 3 3 3 a) as [img2 ->].
      rewrite bind_lift_Ok. eexists. apply bind_process_fails, Hfail.
    - unfold alpha_swapping.
      destruct (merge3_channels 0 1 2 a) as [img1 ->].
      destruct (merge3_channels 1 2 3 a) as [img2 ->].
      rewrite !bind_lift_Ok. eexists. apply bind_process_fails, Hfail.
    - eexists. apply bind_process_fails, Hfail. }
  assert (Hunit : exists t,
             outcome (upscale_unit self img) = Raise e /\
             model_calls (events (upscale_unit self img)) = [t]).
  { unfold upscale_unit. destruct (normalize img) as [a|a];
      [apply Hadapt|].
    destruct (takes_alpha_path self (Arr3 a)); [|apply Hadapt].
    destruct (Hstrat a) as [t ->]. exists t. split; reflexivity. }
  destruct Hunit as (t & Hout & Hcalls). unfold upscale.
  destruct (upscale_unit self img) as [evs [out|e']]; cbn in Hout;
    [discriminate|].
  inversion Hout; subst. cbn. split; [reflexivity|]. now exists t.
Qed.

Lemma X10_network_error_propagates_witness :
  outcome (upscale (demo_oom (Some SWAPPING)) bgra_1x2)
  = Raise OutOfMemory /\
  exists t : tensor,
    model_calls (events (upscale (demo_oom (Some SWAPPING)) bgra_1x2))
    = [t].
Proof.
  apply (X10_network_error_propagates (demo_oom (Some SWAPPING))
           bgra_1x2 OutOfMemory).
  intros t. reflexivity.
Defined.

(** ** The separate and the swapping strategy *)

Lemma pmap_pmap {A B C} (f : A -> B) (g : B -> C) (img : list (list A)) :
  pmap g (pmap f img) = pmap (fun x => g (f x)) img.
Proof.
  unfold pmap. rewrite map_map. apply map_ext. intros row. apply map_map.
Qed.

Lemma same_hw_pmap_both {A B C D} (f : A -> C) (g : B -> D)
    (a : list (list A)) (b : list (list B)) :
  same_hw (pmap f a) (pmap g b) = same_hw a b.
Proof.
  unfold same_hw, pmap. revert b.
  induction a as [|ra a IH]; intros [|rb b]; cbn; try reflexivity.
  rewrite IH. f_equal.
  destruct (same_length ra rb) eqn:E.
  - apply same_length_length. apply same_length_length in E.
    now rewrite !length_map.
  - destruct (same_length (map f ra) (map g rb)) eqn:E'; [|reflexivity].
    apply same_length_length in E'. rewrite !length_map in E'.
    apply same_length_length in E'. congruence.
Qed.

Lemma zip_with_map_both {A B C D E} (h : C -> D -> E) (f : A -> C)
    (g : B -> D) (a : list A) (b : list B) :
  zip_with h (map f a) (map g b) = zip_with (fun x y => h (f x) (g y)) a b.
Proof.
  revert b. induction a as [|x a IH]; intros [|y b]; cbn; try reflexivity.
  now rewrite IH.
Qed.

Lemma zip2_pmap_both {A B C D E} (h : C -> D -> E) (f : A -> C)
    (g : B -> D) (a : list (list A)) (b : list (list B)) :
  zip2 h (pmap f a) (pmap g b) = zip2 (fun x y => h (f x) (g y)) a b.
Proof.
  unfold zip2, pmap. rewrite zip_with_map_both.
  apply zip_with_ext_all. intros ra rb. apply zip_with_map_both.
Qed.

(** [cv2.merge] of three planes cut from one picture. *)
Lemma merge3_pmap (f g h : list Q -> Q) (img : array3 Q) :
  merge [pmap f img; pmap g img; pmap h img]
  = Ok (pmap (fun px => [f px; g px; h px]) img).
Proof.
  unfold merge. cbn [forallb]. rewrite !same_hw_pmap. cbn [andb].
  cbn [fold_left]. rewrite pmap_pmap, !zip2_pmap_same. reflexivity.
Qed.

(** [cv2.merge] of three planes of one picture and one of another. *)
Lemma merge4_pmap (f0 f1 f2 g : list Q -> Q) (o1 o2 : array3 Q) :
  same_hw o1 o2 = true ->
  merge [pmap f0 o1; pmap f1 o1; pmap f2 o1; pmap g o2]
  = Ok (zip2 (fun p1 p2 => [f0 p1; f1 p1; f2 p1; g p2]) o1 o2).
Proof.
  intros Hhw. unfold merge. cbn [forallb].
  rewrite !same_hw_pmap, same_hw_pmap_both, Hhw. cbn [andb].
  cbn [fold_left]. rewrite pmap_pmap, !zip2_pmap_same, zip2_pmap_both.
  reflexivity.
Qed.

Lemma get_channel_Ok (k c : nat) (img : array3 Q) :
  wf_image c img -> (k < c)%nat ->
  get_channel k img = Ok (pmap (fun px => nth k px 0) img).
Proof.
  intros Hwf Hk. unfold get_channel. rewrite (wf_image_nchan _ _ Hwf).
  apply Nat.ltb_lt in Hk. now rewrite Hk.
Qed.

(** The tail shared by the two strategies: channels 0, 1, 2 of the first
    answer and channel [k] of the second, merged. *)
Lemma merge_answers (self : Upscale) (img1 img2 : array3 Q)
    (t1 t2 : tensor) (k : nat) :
  (k < 3)%nat ->
  model self (to_tensor img1) = Ok t1 ->
  model self (to_tensor img2) = Ok t2 ->
  wf_image 3 (of_tensor t1) ->
  wf_image 3 (of_tensor t2) ->
  same_hw (of_tensor t1) (of_tensor t2) = true ->
  (output1 <- process self img1 ;;
   output2 <- process self img2 ;;
   c0 <- lift (get_channel 0 output1) ;;
   c1 <- lift (get_channel 1 output1) ;;
   c2 <- lift (get_channel 2 output1) ;;
   c3 <- lift (get_channel k output2) ;;
   lift (merge [c0; c1; c2; c3]))
  = ([ModelCall (to_tensor img1); ModelCall (to_tensor img2)],
     Ok (zip2 (fun p1 p2 => [nth 0 p1 0; nth 1 p1 0; nth 2 p1 0;
                              nth k p2 0])
              (of_tensor t1) (of_tensor t2))).
Proof.
  intros Hk H1 H2 Hw1 Hw2 Hhw.
  rewrite (bind_Ok _ _ _ _ (process_Ok self _ t1 H1)).
  rewrite (bind_Ok _ _ _ _ (process_Ok self _ t2 H2)).
  rewrite !(get_channel_Ok _ 3 _ Hw1) by lia.
  rewrite (get_channel_Ok k 3 _ Hw2) by lia.
  rewrite !bind_lift_Ok.
  rewrite (merge4_pmap _ _ _ _ _ _ Hhw). reflexivity.
Qed.

Lemma zip2_pixels_3 (f g : list Q -> list Q -> list Q)
    (o1 o2 : array3 Q) :
  wf_image 3 o1 -> wf_image 3 o2 ->
  (forall b g0 r a0 a1 a2,
     f [b; g0; r] [a0; a1; a2] = g [b; g0; r] [a0; a1; a2]) ->
  zip2 f o1 o2 = zip2 g o1 o2.
Proof.
  intros (_ & _ & _ & Hc1) (_ & _ & _ & Hc2) Hfg.
  apply (zip2_ext_Forall (fun px => length px = 3%nat)
                         (fun px => length px = 3%nat));
    try assumption.
  intros p1 p2 H1 H2.
  destruct p1 as [|b [|g0 [|r [|? ?]]]]; try discriminate.
  destruct p2 as [|a0 [|a1 [|a2 [|? ?]]]]; try discriminate.
  apply Hfg.
Qed.

(** X11. The separate strategy calls the network on the colour channels
    and then on the alpha channel repeated three times, and returns the
    colour of the first answer with channel 0 of the second answer as
    alpha. *)
Theorem X11_alpha_separately (self : Upscale) (a : array3 Q)
    (t1 t2 : tensor) :
  alpha_mode self = Some ALPHA_SEPARATELY ->
  model self (to_tensor (channels_upto 3 a)) = Ok t1 ->
  model self (to_tensor (pmap (fun px => [nth 3 px 0; nth 3 px 0;
                                            nth 3 px 0]) a)) = Ok t2 ->
  wf_image 3 (of_tensor t1) ->
  wf_image 3 (of_tensor t2) ->
  same_hw (of_tensor t1) (of_tensor t2) = true ->
  alpha_strategy self a
  = ([ModelCall (to_tensor (channels_upto 3 a));
      ModelCall (to_tensor (pmap (fun px => [nth 3 px 0; nth 3 px 0;
                                               nth 3 px 0]) a))],
     Ok (zip2 separate_pixel (of_tensor t1) (of_tensor t2))).
Proof.
  intros Hmode H1 H2 Hw1 Hw2 Hhw.
  unfold alpha_strategy. rewrite Hmode. unfold alpha_separately, channel.
  rewrite merge3_pmap, bind_lift_Ok.
  rewrite (merge_answers self _ _ t1 t2 0 ltac:(lia) H1 H2 Hw1 Hw2 Hhw).
  f_equal. f_equal. apply zip2_pixels_3; try assumption. reflexivity.
Qed.

(** X12. The swapping strategy calls the network on channels (0, 1, 2)
    and then on channels (1, 2, 3) of the picture, and returns the colour
    of the first answer with channel 2 of the second answer as alpha. *)
Theorem X12_alpha_swapping (self : Upscale) (a : array3 Q)
    (t1 t2 : tensor) :
  alpha_mode self = Some SWAPPING ->
  model self (to_tensor (pmap (fun px => [nth 0 px 0; nth 1 px 0;
                                            nth 2 px 0]) a)) = Ok t1 ->
  model self (to_tensor (pmap (fun px => [nth 1 px 0; nth 2 px 0;
                                            nth 3 px 0]) a)) = Ok t2 ->
  wf_image 3 (of_tensor t1) ->
  wf_image 3 (of_tensor t2) ->
  same_hw (of_tensor t1) (of_tensor t2) = true ->
  alpha_strategy self a
  = ([ModelCall (to_tensor (pmap (fun px => [nth 0 px 0; nth 1 px 0;
                                               nth 2 px 0]) a));
      ModelCall (to_tensor (pmap (fun px => [nth 1 px 0; nth 2 px 0;
                                               nth 3 px 0]) a))],
     Ok (zip2 swapping_pixel (of_tensor t1) (of_tensor t2))).
Proof.
  intros Hmode H1 H2 Hw1 Hw2 Hhw.
  unfold alpha_strategy. rewrite Hmode. unfold alpha_swapping, channel.
  rewrite !merge3_pmap, !bind_lift_Ok.
  rewrite (merge_answers self _ _ t1 t2 2 ltac:(lia) H1 H2 Hw1 Hw2 Hhw).
  f_equal. f_equal. apply zip2_pixels_3; try assumption. reflexivity.
Qed.

Lemma X11_alpha_separately_witness :
  alpha_strategy (demo_separate false false) (unit_samples bgra_1x2)
  = ([ModelCall (to_tensor (channels_upto 3 (unit_samples bgra_1x2)));
      ModelCall (to_tensor (pmap (fun px => [nth 3 px 0; nth 3 px 0;
                                               nth 3 px 0])
                                 (unit_samples bgra_1x2)))],
     Ok (zip2 separate_pixel
           (of_tensor (to_tensor (channels_upto 3 (unit_samples bgra_1x2))))
           (of_tensor (to_tensor (pmap (fun px => [nth 3 px 0; nth 3 px 0;
                                                    nth 3 px 0])
                                       (unit_samples bgra_1x2)))))).
Proof.
  apply (X11_alpha_separately (demo_separate false false)
           (unit_samples bgra_1x2)).
  - reflexivity.
  - reflexivity.
  - reflexivity.
  - check_shape.
  - check_shape.
  - run_code.
Defined.

Lemma X12_alpha_swapping_witness :
  alpha_strategy demo_swapping (unit_samples bgra_1x2)
  = ([ModelCall (to_tensor (pmap (fun px => [nth 0 px 0; nth 1 px 0;
                                               nth 2 px 0])
                                 (unit_samples bgra_1x2)));
      ModelCall (to_tensor (pmap (fun px => [nth 1 px 0; nth 2 px 0;
                                               nth 3 px 0])
                                 (unit_samples bgra_1x2)))],
     Ok (zip2 swapping_pixel
           (of_tensor (to_tensor (pmap (fun px => [nth 0 px 0; nth 1 px 0;
                                                    nth 2 px 0])
                                       (unit_samples bgra_1x2))))
           (of_tensor (to_tensor (pmap (fun px => [nth 1 px 0; nth 2 px 0;
                                                    nth 3 px 0])
                                       (unit_samples bgra_1x2)))))).
Proof.
  apply (X12_alpha_swapping demo_swapping (unit_samples bgra_1x2)).
  - reflexivity.
  - reflexivity.
  - reflexivity.
  - check_shape.
  - check_shape.
  - run_code.
Defined.

(** Under the identity network the swapping strategy writes the green
    sample of each pixel into its alpha: the second call sees (G, R, A)
    as (B, G, R), and channel 2 of its answer is what went in as
    channel 0 after the two colour swaps. *)
Example swapping_on_identity :
  outcome (upscale demo_swapping bgra_1x2)
  = Ok [[[255; 0; 51; 51]; [10; 20; 30; 255]]].
Proof. reflexivity. Qed.

(** ** Channel adaptation *)

Lemma adapted_run (self : Upscale) (img : int_array) (x : array3 Q) :
  upscale_unit self img = (x' <- ret x ;; process self x') ->
  events (upscale self img) = [ModelCall (to_tensor x)] /\
  (forall t, model self (to_tensor x) = Ok t ->
             outcome (upscale self img) = Ok (rescale (of_tensor t))).
Proof.
  intros H. unfold upscale. rewrite H. cbn [bind ret].
  rewrite process_run.
  destruct (model self (to_tensor x)) as [t|e];
    cbn [bind ret events outcome fst snd app];
    split; try reflexivity; intros t' Ht; congruence.
Qed.

(** X13. A two-dimensional (grey) input never triggers the truncation
    warning: each sample is repeated min(last_in_nc, 3) times, a
    four-channel model also gets an alpha of 1.0, and the network is
    called once on that picture. *)
Theorem X13_grey_input (self : Upscale) (img : int_array) (g : array2 Q) :
  normalize img = Arr2 g ->
  (0 < height g)%nat -> (0 < width g)%nat ->
  events (upscale self img)
  = [ModelCall
       (to_tensor
          (pmap (fun v => if (last_in_nc self =? 4)%nat
                          then [v; v; v; 1]
                          else repeat v (Nat.min (last_in_nc self) 3)) g))] /\
  (forall t,
     model self
       (to_tensor
          (pmap (fun v => if (last_in_nc self =? 4)%nat
                          then [v; v; v; 1]
                          else repeat v (Nat.min (last_in_nc self) 3)) g))
     = Ok t ->
     outcome (upscale self img) = Ok (rescale (of_tensor t))).
Proof.
  intros Hn Hh Hw.
  apply adapted_run.
  unfold upscale_unit. rewrite Hn. unfold adapt_channels.
  cbv zeta.
  rewrite (nchan_pmap (Nat.min (last_in_nc self) 3))
    by (try assumption; intros; apply repeat_length).
  destruct (Nat.ltb_spec (last_in_nc self) (Nat.min (last_in_nc self) 3));
    [lia|].
  destruct (Nat.eqb_spec (last_in_nc self) 4) as [E | E].
  - rewrite E. cbn [Nat.min Nat.eqb andb]. rewrite pmap_pmap.
    reflexivity.
  - rewrite andb_false_r. reflexivity.
Qed.

Lemma X13_grey_input_witness :
  events (upscale (demo_four_in grey_picture) grey_picture)
  = [ModelCall
       (to_tensor
          (pmap (fun v => if (last_in_nc (demo_four_in grey_picture) =? 4)%nat
                          then [v; v; v; 1]
                          else repeat v
                                 (Nat.min
                                    (last_in_nc (demo_four_in grey_picture))
                                    3))
                (pmap (fun v : Z => inject_Z v * 1 / 255)
                      [[0; 51]; [102; 255]]%Z)))] /\
  (forall t,
     model (demo_four_in grey_picture)
       (to_tensor
          (pmap (fun v => if (last_in_nc (demo_four_in grey_picture) =? 4)%nat
                          then [v; v; v; 1]
                          else repeat v
                                 (Nat.min
                                    (last_in_nc (demo_four_in grey_picture))
                                    3))
                (pmap (fun v : Z => inject_Z v * 1 / 255)
                      [[0; 51]; [102; 255]]%Z)))
     = Ok t ->
     outcome (upscale (demo_four_in grey_picture) grey_picture)
     = Ok (rescale (of_tensor t))).
Proof.
  apply (X13_grey_input (demo_four_in grey_picture) grey_picture
           (pmap (fun v : Z => inject_Z v * 1 / 255)
                 [[0; 51]; [102; 255]]%Z)).
  - reflexivity.
  - cbn. lia.
  - cbn. lia.
Defined.

(** X14. A three-dimensional input with no more channels than the model
    expects is never truncated and raises no warning: a three-channel
    picture for a four-channel model gets an alpha of 1.0 appended, any
    other picture is handed to the network as it is, even when it has
    fewer channels than the model expects. *)
Theorem X14_no_truncation (self : Upscale) (img : int_array)
    (a : array3 Q) (c : nat) :
  normalize img = Arr3 a ->
  wf_image c a ->
  (c <= last_in_nc self)%nat ->
  events (upscale self img)
  = [ModelCall
       (to_tensor (if (c =? 3)%nat && (last_in_nc self =? 4)%nat
                   then pmap (fun px => px ++ [1]) a else a))] /\
  (forall t,
     model self
       (to_tensor (if (c =? 3)%nat && (last_in_nc self =? 4)%nat
                   then pmap (fun px => px ++ [1]) a else a)) = Ok t ->
     outcome (upscale self img) = Ok (rescale (of_tensor t))).
Proof.
  intros Hn Hwf Hc.
  apply adapted_run.
  unfold upscale_unit. rewrite Hn.
  assert (Hpath : takes_alpha_path self (Arr3 a) = false).
  { unfold takes_alpha_path. rewrite (wf_image_nchan _ _ Hwf).
    destruct (Nat.eqb_spec c 4) as [-> | ?]; [|reflexivity].
    destruct (Nat.eqb_spec (last_in_nc self) 3); [lia|reflexivity]. }
  rewrite Hpath. unfold adapt_channels. cbv zeta.
  rewrite (wf_image_nchan _ _ Hwf).
  destruct (Nat.ltb_spec (last_in_nc self) c); [lia|].
  destruct ((c =? 3)%nat && (last_in_nc self =? 4)%nat); reflexivity.
Qed.

Lemma X14_no_truncation_witness :
  events (upscale (demo_four_in bgr_picture) bgr_picture)
  = [ModelCall
       (to_tensor
          (if (3 =? 3)%nat && (last_in_nc (demo_four_in bgr_picture) =? 4)%nat
           then pmap (fun px => px ++ [1])
                     (amap (fun v : Z => inject_Z v * 1 / 255) bgr_2x2)
           else amap (fun v : Z => inject_Z v * 1 / 255) bgr_2x2))] /\
  (forall t,
     model (demo_four_in bgr_picture)
       (to_tensor
          (if (3 =? 3)%nat && (last_in_nc (demo_four_in bgr_picture) =? 4)%nat
           then pmap (fun px => px ++ [1])
                     (amap (fun v : Z => inject_Z v * 1 / 255) bgr_2x2)
           else amap (fun v : Z => inject_Z v * 1 / 255) bgr_2x2)) = Ok t ->
     outcome (upscale (demo_four_in bgr_picture) bgr_picture)
     = Ok (rescale (of_tensor t))).
Proof.
  apply (X14_no_truncation (demo_four_in bgr_picture) bgr_picture
           (amap (fun v : Z => inject_Z v * 1 / 255) bgr_2x2) 3).
  - reflexivity.
  - check_shape.
  - cbn. lia.
Defined.

(** ** Normalization *)

Lemma normalized_sample (d : dtype) (v : Z) :
  (0 <= v <= iinfo_max d)%Z ->
  unit_sample (inject_Z v * 1 / inject_Z (iinfo_max d)).
Proof.
  intros Hv. unfold unit_sample.
  destruct d; cbn [iinfo_max] in *;
    unfold Qle, Qdiv, Qmult, Qinv; cbn; lia.
Qed.

(** X15. Samples within the range of the input's integer type, 0 up to
    [np.iinfo(dtype).max], are normalized into [0, 1]. *)
Theorem X15_normalize_unit (img : int_array) :
  nd_samples (fun v => (0 <= v <= iinfo_max (arr_dtype img))%Z)
             (arr_data img) ->
  nd_samples unit_sample (normalize img).
Proof.
  unfold normalize, nd_samples, all_samples.
  destruct (arr_data img) as [a|a]; intros H; unfold amap, pmap.
  - apply Forall_map. eapply Forall_impl; [exact H|].
    intros row Hrow. cbn beta. apply Forall_map.
    eapply Forall_impl; [exact Hrow|]. intros v Hv.
    now apply normalized_sample.
  - apply Forall_map. eapply Forall_impl; [exact H|].
    intros row Hrow. cbn beta. apply Forall_map.
    eapply Forall_impl; [exact Hrow|]. intros px Hpx. cbn beta.
    apply Forall_map. eapply Forall_impl; [exact Hpx|]. intros v Hv.
    now apply normalized_sample.
Qed.

Lemma X15_normalize_unit_witness :
  nd_samples unit_sample (normalize bgra_1x2).
Proof.
  apply (X15_normalize_unit bgra_1x2).
  cbn. repeat constructor; cbn; lia.
Defined.

(** ** Checkpoint paths *)

Lemma split_on_nonempty (sep : ascii) (s : string) :
  exists (p : string) (rest : list string), split_on sep s = p :: rest.
Proof.
  induction s as [|a s IH]; cbn; [eauto|].
  destruct (Ascii.eqb a sep); [eauto|].
  destruct IH as (p & rest & ->). eauto.
Qed.

Lemma split_on_absent (sep : ascii) (s : string) :
  contains sep s = false -> split_on sep s = [s].
Proof.
  induction s as [|a s IH]; cbn; [reflexivity|].
  intros H. apply orb_false_iff in H as [Ha Hs].
  rewrite Ha, (IH Hs). reflexivity.
Qed.

Lemma split_on_app (sep : ascii) (s1 s2 : string) :
  contains sep s1 = false ->
  split_on sep (s1 ++ String sep s2) = s1 :: split_on sep s2.
Proof.
  induction s1 as [|a s1 IH]; simpl.
  - intros _. now rewrite Ascii.eqb_refl.
  - intros H. apply orb_false_iff in H as [Ha Hs].
    rewrite Ha, (IH Hs). reflexivity.
Qed.

Lemma split_on_present (sep : ascii) (s : string) :
  contains sep s = true ->
  exists (p1 p2 : string) (rest : list string),
    split_on sep s = p1 :: p2 :: rest.
Proof.
  induction s as [|a s IH]; cbn; [discriminate|].
  destruct (Ascii.eqb a sep) eqn:E.
  - intros _. destruct (split_on_nonempty sep s) as (p & rest & ->). eauto.
  - cbn. intros H. destruct (IH H) as (p1 & p2 & rest & ->). eauto.
Qed.

Lemma split_pieces_absent (c sep : ascii) (s : string) :
  contains c s = false ->
  Forall (fun p => contains c p = false) (split_on sep s).
Proof.
  induction s as [|a s IH]; cbn.
  - intros _. now repeat constructor.
  - intros H. apply orb_false_iff in H as [Ha Hs]. specialize (IH Hs).
    destruct (Ascii.eqb a sep).
    + constructor; [reflexivity|exact IH].
    + destruct (split_on sep s) as [|p rest].
      * constructor; [|constructor]. cbn. now rewrite Ha.
      * inversion IH; subst. constructor; [|assumption].
        cbn. rewrite Ha. assumption.
Qed.

(** X16. A path that asks for interpolation with '|' between the two
    checkpoints and no '&' never yields a state dict: only '&' is split
    on, so the whole path (up to its first '@') is loaded as the first
    checkpoint, and if that succeeds the second part is missing and
    IndexError is raised. *)
Theorem X16_bar_separator_never_loads
    (torch_load : string -> loaded state_dict) (model_path : string) :
  is_interpolation model_path = true ->
  contains "&" model_path = false ->
  exists file_1 : string,
    split_on "@" model_path = file_1 :: tl (split_on "@" model_path) /\
    read_state_dict torch_load model_path
    = match torch_load file_1 with
      | Loaded _ => Failed PyIndexError
      | Failed e => Failed e
      end.
Proof.
  intros Hint Hamp. unfold read_state_dict. rewrite Hint.
  rewrite (split_on_absent _ _ Hamp).
  destruct (split_on_nonempty "@" model_path) as (file_1 & rest & Hsplit).
  exists file_1. cbn [firstn py_item nth_error and_then].
  rewrite Hsplit. split; [reflexivity|].
  cbn [py_item nth_error and_then].
  destruct (torch_load file_1); reflexivity.
Qed.

Lemma X16_bar_separator_never_loads_witness :
  exists file_1 : string,
    split_on "@" "4xBox@25|4xPSNR@75"
    = file_1 :: tl (split_on "@" "4xBox@25|4xPSNR@75") /\
    read_state_dict two_checkpoints "4xBox@25|4xPSNR@75"
    = match two_checkpoints file_1 with
      | Loaded _ => Failed PyIndexError
      | Failed e => Failed e
      end.
Proof.
  apply (X16_bar_separator_never_loads two_checkpoints
           "4xBox@25|4xPSNR@75"); reflexivity.
Defined.

(** X17. A path that gives the weights after ':' (as in "A:25&B:75") and
    has no '@' is read with the weights left in the file names: the two
    '&'-parts are loaded whole, and the blend fails at the first entry of
    the first checkpoint, with KeyError when the second checkpoint lacks
    its key and with IndexError otherwise.  Only an empty first
    checkpoint gets through, as an empty state dict. *)
Theorem X17_colon_weights_never_blend
    (torch_load : string -> loaded state_dict) (model_path : string) :
  is_interpolation model_path = true ->
  contains "&" model_path = true ->
  contains "@" model_path = false ->
  exists (part_1 part_2 : string) (rest : list string),
    split_on "&" model_path = part_1 :: part_2 :: rest /\
    read_state_dict torch_load model_path
    = (model_1 <~ torch_load part_1 ;;
       model_2 <~ torch_load part_2 ;;
       match model_1 with
       | [] => Loaded []
       | (k, _) :: _ =>
           if od_has k model_2 then Failed PyIndexError
           else Failed PyKeyError
       end).
Proof.
  intros Hint Hamp Hat. unfold read_state_dict. rewrite Hint.
  destruct (split_on_present _ _ Hamp) as (p1 & p2 & rest & Hsplit).
  exists p1, p2, rest. split; [exact Hsplit|].
  pose proof (split_pieces_absent "@" "&" model_path Hat) as Hparts.
  rewrite Hsplit in *.
  inversion Hparts as [|? ? H1 Hparts']; subst.
  inversion Hparts' as [|? ? H2 _]; subst.
  cbn [firstn py_item nth_error and_then].
  rewrite (split_on_absent _ _ H1), (split_on_absent _ _ H2).
  cbn [py_item nth_error and_then].
  destruct (torch_load p1) as [m1|e1]; [|reflexivity].
  destruct (torch_load p2) as [m2|e2]; [|reflexivity].
  cbn [and_then]. destruct m1 as [|[k v1] m1]; [reflexivity|].
  cbn [blend_items]. unfold od_has.
  destruct (od_get k m2) as [v2|]; [|reflexivity].
  cbn [and_then py_item nth_error]. unfold weight_of.
  rewrite (split_on_absent _ _ H1). reflexivity.
Qed.

Lemma X17_colon_weights_never_blend_witness :
  exists (part_1 part_2 : string) (rest : list string),
    split_on "&" "4xBox:25&4xPSNR:75" = part_1 :: part_2 :: rest /\
    read_state_dict any_checkpoint "4xBox:25&4xPSNR:75"
    = (model_1 <~ any_checkpoint part_1 ;;
       model_2 <~ any_checkpoint part_2 ;;
       match model_1 with
       | [] => Loaded []
       | (k, _) :: _ =>
           if od_has k model_2 then Failed PyIndexError
           else Failed PyKeyError
       end).
Proof.
  apply (X17_colon_weights_never_blend any_checkpoint
           "4xBox:25&4xPSNR:75"); reflexivity.
Defined.

(** The path of the comment on line 197, in a store that has every
    file: IndexError. *)
Example documented_path_fails :
  read_state_dict any_checkpoint "4xBox:25&4xPSNR:75" = Failed PyIndexError.
Proof. reflexivity. Qed.

(** Python's [split] and [int] on a few texts. *)
Example split_on_examples :
  map (split_on "&") ["a&b"; ""; "a&"; "&a"; "abc"]%string
  = [["a"; "b"]; [""]; ["a"; ""]; [""; "a"]; ["abc"]]%string.
Proof. reflexivity. Qed.

Example py_int_examples :
  map py_int ["25"; " 12 "; "-3"; "1_000"; "012"; "_1"; "1_"; ""; "12a"]%string
  = [Loaded 25; Loaded 12; Loaded (-3); Loaded 1000; Loaded 12;
     Failed PyValueError; Failed PyValueError; Failed PyValueError;
     Failed PyValueError]%Z.
Proof. reflexivity. Qed.

(** ** Blending two checkpoints *)

Lemma contains_app (c : ascii) (s1 s2 : string) :
  contains c (s1 ++ s2) = contains c s1 || contains c s2.
Proof.
  induction s1 as [|a s1 IH]; simpl; [reflexivity|].
  now rewrite IH, orb_assoc.
Qed.

Lemma contains_here (c : ascii) (s : string) :
  contains c (String c s) = true.
Proof. simpl. now rewrite Ascii.eqb_refl. Qed.

Lemma weighted_split (file weight : string) :
  plain file -> plain weight ->
  split_on "@" (weighted file weight) = [file; weight] /\
  contains "&" (weighted file weight) = false.
Proof.
  intros [Hf1 Hf2] [Hw1 Hw2]. unfold weighted. split.
  - rewrite split_on_app by assumption.
    now rewrite (split_on_absent _ _ Hw2).
  - rewrite contains_app, Hf1. simpl. exact Hw1.
Qed.

Lemma weight_of_weighted (file weight : string) (n : Z) :
  plain file -> plain weight -> py_int weight = Loaded n ->
  weight_of (weighted file weight) = Loaded (inject_Z n / 100).
Proof.
  intros Hf Hw Hint. unfold weight_of.
  destruct (weighted_split file weight Hf Hw) as [-> _].
  cbn [py_item nth_error and_then]. now rewrite Hint.
Qed.

(** What [read_state_dict] does on a well-formed two-checkpoint path. *)
Lemma read_interpolation
    (torch_load : string -> loaded state_dict)
    (file_1 w_1 file_2 w_2 : string) :
  plain file_1 -> plain w_1 -> plain file_2 -> plain w_2 ->
  read_state_dict torch_load (interpolation_path file_1 w_1 file_2 w_2)
  = (model_1 <~ torch_load file_1 ;;
     model_2 <~ torch_load file_2 ;;
     blend_items [weighted file_1 w_1; weighted file_2 w_2]
                 model_2 model_1 []).
Proof.
  intros Hf1 Hw1 Hf2 Hw2.
  destruct (weighted_split file_1 w_1 Hf1 Hw1) as [Hs1 Ha1].
  destruct (weighted_split file_2 w_2 Hf2 Hw2) as [Hs2 Ha2].
  unfold read_state_dict.
  assert (Hint : is_interpolation
                   (interpolation_path file_1 w_1 file_2 w_2) = true).
  { unfold is_interpolation, interpolation_path.
    assert (Hat : contains "@" (weighted file_1 w_1) = true)
      by (unfold weighted; rewrite contains_app, contains_here;
          apply orb_true_r).
    rewrite (contains_app "@"), Hat.
    rewrite (contains_app "&"), contains_here.
    now rewrite !orb_true_r. }
  rewrite Hint. unfold interpolation_path.
  rewrite (split_on_app _ _ _ Ha1), (split_on_absent _ _ Ha2).
  cbn [firstn py_item nth_error and_then]. rewrite Hs1, Hs2.
  reflexivity.
Qed.

Lemma od_set_fresh {V} (k : string) (v : V) (d : list (string * V)) :
  ~ In k (map fst d) -> od_set k v d = d ++ [(k, v)].
Proof.
  induction d as [|[k' v'] d IH]; cbn; [reflexivity|].
  intros Hnot. destruct (String.eqb_spec k' k) as [-> | Hne].
  - exfalso. apply Hnot. now left.
  - rewrite IH by tauto. reflexivity.
Qed.

Lemma same_dims_refl (l : list nat) : same_dims l l = true.
Proof. apply all2_refl. intros x. apply Nat.eqb_refl. Qed.

Lemma blend_step (x y : Q) (w1 w2 : weights) :
  w_shape w1 = w_shape w2 ->
  (a <~ scale_entry x (Weights w1) ;;
   b <~ scale_entry y (Weights w2) ;;
   add_weights a b)
  = Loaded (blend_weights x y w1 w2).
Proof.
  intros Hshape. cbn [scale_entry and_then]. unfold add_weights.
  cbn [w_shape w_data]. rewrite Hshape, same_dims_refl.
  unfold blend_weights. rewrite Hshape, zip_with_map_both. reflexivity.
Qed.

Lemma blend_items_blendable (part_1 part_2 : string) (x y : Q)
    (model_2 : state_dict) (items acc : state_dict) :
  weight_of part_1 = Loaded x ->
  weight_of part_2 = Loaded y ->
  NoDup (map fst items) ->
  (forall k, In k (map fst items) -> ~ In k (map fst acc)) ->
  Forall (fun kv =>
            exists w1 w2 : weights,
              snd kv = Weights w1 /\
              od_get (fst kv) model_2 = Some (Weights w2) /\
              w_shape w1 = w_shape w2) items ->
  blend_items [part_1; part_2] model_2 items acc
  = Loaded (acc ++ blend_dict x y items model_2).
Proof.
  intros Hx Hy. revert acc.
  induction items as [|[k v1] items IH]; intros acc Hnd Hfresh Hall.
  - cbn. now rewrite app_nil_r.
  - inversion Hall as [|? ? (w1 & w2 & Hv1 & Hget & Hshape) Hall'];
      subst. cbn [fst snd] in *. subst v1.
    apply NoDup_cons in Hnd as [Hk Hnd].
    cbn [blend_items]. rewrite Hget.
    cbn [and_then py_item nth_error]. rewrite Hx.
    cbn [and_then scale_entry]. rewrite Hy.
    cbn [and_then scale_entry]. unfold add_weights.
    cbn [w_shape w_data]. rewrite Hshape, same_dims_refl.
    cbn [and_then].
    rewrite od_set_fresh by (apply Hfresh; cbn; now left).
    rewrite IH; try assumption.
    + rewrite <- app_assoc. cbn [app blend_dict map fst snd tensor_of].
      rewrite Hget. cbn [tensor_of]. unfold blend_weights.
      rewrite Hshape, zip_with_map_both. reflexivity.
    + intros k' Hin. rewrite map_app, in_app_iff. cbn.
      intros [Hacc | [Heq | []]].
      * apply (Hfresh k'); [cbn; now right|exact Hacc].
      * subst k'. apply Hk. now apply list_elem_of_In.
Qed.

(** X18. A path "file_1@w_1&file_2@w_2" whose four texts contain
    neither '&' nor '@', with integer weights n_1 and n_2, loads the two
    files and, when both hold tensors of one shape under the keys of the
    first, gives the state dict that has the keys of the first checkpoint
    in its order and under each key the tensor
    (n_1/100) * first + (n_2/100) * second.  The weights need not add up
    to 100. *)
Theorem X18_interpolation_blends
    (torch_load : string -> loaded state_dict)
    (file_1 w_1 file_2 w_2 : string) (n_1 n_2 : Z)
    (model_1 model_2 : state_dict) :
  plain file_1 -> plain w_1 -> plain file_2 -> plain w_2 ->
  py_int w_1 = Loaded n_1 ->
  py_int w_2 = Loaded n_2 ->
  torch_load file_1 = Loaded model_1 ->
  torch_load file_2 = Loaded model_2 ->
  blendable model_1 model_2 ->
  read_state_dict torch_load (interpolation_path file_1 w_1 file_2 w_2)
  = Loaded (blend_dict (inject_Z n_1 / 100) (inject_Z n_2 / 100)
                       model_1 model_2).
Proof.
  intros Hf1 Hw1 Hf2 Hw2 Hn1 Hn2 Hl1 Hl2 [Hnd Hall].
  rewrite (read_interpolation torch_load _ _ _ _ Hf1 Hw1 Hf2 Hw2).
  rewrite Hl1, Hl2. cbn [and_then].
  rewrite (blend_items_blendable _ _ (inject_Z n_1 / 100)
             (inject_Z n_2 / 100) model_2 model_1 []);
    try assumption.
  - reflexivity.
  - now apply weight_of_weighted.
  - now apply weight_of_weighted.
  - intros k _ [].
Qed.

Lemma X18_interpolation_blends_witness :
  read_state_dict two_checkpoints
    (interpolation_path "4xBox" "25" "4xPSNR" "75")
  = Loaded (blend_dict (inject_Z 25 / 100) (inject_Z 75 / 100)
              [("model.0.weight"%string,
                Weights {| w_shape := [2%nat]; w_data := [1; 2] |})]
              [("model.0.weight"%string,
                Weights {| w_shape := [2%nat]; w_data := [5; 10] |})]).
Proof.
  apply (X18_interpolation_blends two_checkpoints
           "4xBox" "25" "4xPSNR" "75" 25 75).
  - split; reflexivity.
  - split; reflexivity.
  - split; reflexivity.
  - split; reflexivity.
  - reflexivity.
  - reflexivity.
  - reflexivity.
  - reflexivity.
  - split.
    + cbn. apply NoDup_singleton.
    + repeat constructor. cbn. eexists _, _.
      split; [reflexivity|]. split; reflexivity.
Defined.

(** A quarter of (1, 2) and three quarters of (5, 10). *)
(** A tensor of shape [1] or [3] goes together with one of shape
    [2, 3]; shapes [2] and [3] do not go together. *)
Example add_weights_broadcasts :
  add_weights {| w_shape := [1]%nat; w_data := [10] |}
              {| w_shape := [2; 3]%nat; w_data := [1; 2; 3; 4; 5; 6] |}
  = Loaded {| w_shape := [2; 3]%nat;
              w_data := [10 + 1; 10 + 2; 10 + 3; 10 + 4; 10 + 5; 10 + 6] |} /\
  add_weights {| w_shape := [2; 1]%nat; w_data := [10; 20] |}
              {| w_shape := [3]%nat; w_data := [1; 2; 3] |}
  = Loaded {| w_shape := [2; 3]%nat;
              w_data := [10 + 1; 10 + 2; 10 + 3; 20 + 1; 20 + 2; 20 + 3] |} /\
  add_weights {| w_shape := [2]%nat; w_data := [1; 2] |}
              {| w_shape := [3]%nat; w_data := [1; 2; 3] |}
  = Failed PyRuntimeError.
Proof. repeat split. Qed.

Example blend_25_75 :
  read_state_dict two_checkpoints "4xBox@25&4xPSNR@75"
  = Loaded [("model.0.weight"%string,
             Weights {| w_shape := [2%nat];
                        w_data := [inject_Z 25 / 100 * 1
                                   + inject_Z 75 / 100 * 5;
                                   inject_Z 25 / 100 * 2
                                   + inject_Z 75 / 100 * 10] |})].
Proof. reflexivity. Qed.

(** X19. A checkpoint that keeps its tensors in a nested dict (the
    Real-ESRGAN layout, everything under "params") cannot be
    interpolated: on a well-formed path with an integer first weight,
    the blend stops at the nested entry with TypeError, a float times a
    dict. *)
Theorem X19_nested_checkpoint_not_blended
    (torch_load : string -> loaded state_dict)
    (file_1 w_1 file_2 w_2 : string) (n_1 : Z)
    (k : string) (d : list (string * weights)) (rest model_2 : state_dict)
    (v_2 : entry) :
  plain file_1 -> plain w_1 -> plain file_2 -> plain w_2 ->
  py_int w_1 = Loaded n_1 ->
  torch_load file_1 = Loaded ((k, Nested d) :: rest) ->
  torch_load file_2 = Loaded model_2 ->
  od_get k model_2 = Some v_2 ->
  read_state_dict torch_load (interpolation_path file_1 w_1 file_2 w_2)
  = Failed PyTypeError.
Proof.
  intros Hf1 Hw1 Hf2 Hw2 Hn1 Hl1 Hl2 Hget.
  rewrite (read_interpolation torch_load _ _ _ _ Hf1 Hw1 Hf2 Hw2).
  rewrite Hl1, Hl2. cbn [and_then blend_items]. rewrite Hget.
  cbn [and_then py_item nth_error].
  now rewrite (weight_of_weighted _ _ _ Hf1 Hw1 Hn1).
Qed.

Lemma X19_nested_checkpoint_not_blended_witness :
  read_state_dict nested_checkpoint
    (interpolation_path "RealESRGAN_a" "50" "RealESRGAN_b" "50")
  = Failed PyTypeError.
Proof.
  apply (X19_nested_checkpoint_not_blended nested_checkpoint
           "RealESRGAN_a" "50" "RealESRGAN_b" "50" 50
           "params"
           [("body.0.weight"%string,
             {| w_shape := [1%nat]; w_data := [1] |})]
           []
           [("params"%string,
             Nested [("body.0.weight"%string,
                      {| w_shape := [1%nat]; w_data := [1] |})])]
           (Nested [("body.0.weight"%string,
                     {| w_shape := [1%nat]; w_data := [1] |})]));
    try (split; reflexivity); reflexivity.
Defined.

Lemma od_get_map {V W} (g : string * V -> W) (k : string)
    (d : list (string * V)) :
  od_get k (map (fun kv => (fst kv, g kv)) d)
  = option_map g (find (fun kv => String.eqb (fst kv) k) d).
Proof.
  unfold od_get. induction d as [|[k' v] d IH]; cbn; [reflexivity|].
  destruct (String.eqb k' k); [reflexivity|exact IH].
Qed.

Lemma od_get_tensor (k : string) (d : state_dict) :
  Forall (fun kv => exists w, snd kv = Weights w) d ->
  od_get k d = None \/ exists w, od_get k d = Some (Weights w).
Proof.
  unfold od_get. induction 1 as [|[k' v] d (w & Hw) _ IH]; cbn;
    [now left|].
  destruct (String.eqb k' k); [|exact IH].
  right. cbn in *. subst. now exists w.
Qed.

Lemma detect_blend_dict (x y : Q) (model_1 model_2 : state_dict) :
  Forall (fun kv => exists w, snd kv = Weights w) model_1 ->
  detect_architecture (blend_dict x y model_1 model_2)
  = detect_architecture model_1.
Proof.
  intros Hall. unfold detect_architecture, od_has, blend_dict.
  rewrite !od_get_map.
  destruct (od_get_tensor "params" model_1 Hall) as [Hp | (w & Hp)];
    unfold od_get in Hp |- *.
  - destruct (find _ model_1) as [kv|] eqn:E; [discriminate|].
    cbn [option_map].
    destruct (find (fun kv => String.eqb (fst kv) "f_HR_conv1.0.weight")
                   model_1); reflexivity.
  - destruct (find (fun kv => String.eqb (fst kv) "params") model_1)
      as [kv|] eqn:E; [|discriminate].
    cbn [option_map] in *. inversion Hp as [Hkv]. now rewrite Hkv.
Qed.

(** X20. Interpolation does not change the architecture that is built:
    on a well-formed path over two checkpoints of tensors with the keys
    and shapes of the first, the architecture is detected on the blend
    exactly as on the first checkpoint alone, and it is given the blended
    state dict. *)
Theorem X20_blend_keeps_architecture
    (torch_load : string -> loaded state_dict)
    (file_1 w_1 file_2 w_2 : string) (n_1 n_2 : Z)
    (model_1 model_2 : state_dict) :
  plain file_1 -> plain w_1 -> plain file_2 -> plain w_2 ->
  py_int w_1 = Loaded n_1 ->
  py_int w_2 = Loaded n_2 ->
  torch_load file_1 = Loaded model_1 ->
  torch_load file_2 = Loaded model_2 ->
  blendable model_1 model_2 ->
  select_model torch_load (interpolation_path file_1 w_1 file_2 w_2)
  = (arch <~ detect_architecture model_1 ;;
     Loaded (arch, blend_dict (inject_Z n_1 / 100) (inject_Z n_2 / 100)
                              model_1 model_2)).
Proof.
  intros Hf1 Hw1 Hf2 Hw2 Hn1 Hn2 Hl1 Hl2 Hblend.
  pose proof Hblend as [Hnd Hall]. unfold select_model.
  rewrite (read_interpolation torch_load _ _ _ _ Hf1 Hw1 Hf2 Hw2).
  rewrite Hl1, Hl2. cbn [and_then].
  rewrite (blend_items_blendable _ _ (inject_Z n_1 / 100)
             (inject_Z n_2 / 100) model_2 model_1 []);
    try assumption;
    try (now apply weight_of_weighted); [|intros k _ []].
  cbn [app and_then]. rewrite detect_blend_dict; [reflexivity|].
  eapply Forall_impl; [exact Hall|].
  intros kv (w1 & w2 & Hw & _). now exists w1.
Qed.

Lemma X20_blend_keeps_architecture_witness :
  select_model two_checkpoints
    (interpolation_path "4xBox" "25" "4xPSNR" "75")
  = (arch <~ detect_architecture
               [("model.0.weight"%string,
                 Weights {| w_shape := [2%nat]; w_data := [1; 2] |})] ;;
     Loaded (arch, blend_dict (inject_Z 25 / 100) (inject_Z 75 / 100)
              [("model.0.weight"%string,
                Weights {| w_shape := [2%nat]; w_data := [1; 2] |})]
              [("model.0.weight"%string,
                Weights {| w_shape := [2%nat]; w_data := [5; 10] |})])).
Proof.
  apply (X20_blend_keeps_architecture two_checkpoints
           "4xBox" "25" "4xPSNR" "75" 25 75).
  - split; reflexivity.
  - split; reflexivity.
  - split; reflexivity.
  - split; reflexivity.
  - reflexivity.
  - reflexivity.
  - reflexivity.
  - reflexivity.
  - split.
    + cbn. apply NoDup_singleton.
    + repeat constructor. cbn. eexists _, _.
      split; [reflexivity|]. split; reflexivity.
Defined.

(** ** The cache switch *)

(** X21. [cache_max_split_depth] has no effect on [run]: with any
    splitter, the trace and the result are the same whether the switch is
    on or off. *)
Theorem X21_cache_switch_has_no_effect
    (auto_split_upscale :
       int_array -> (int_array -> M (array3 Q)) -> Z -> option nat ->
       M (array3 Q * nat))
    (self : Upscale) (b : bool) :
  run auto_split_upscale (with_cache b self) = run auto_split_upscale self.
Proof.
  unfold run. rewrite !run_never_passes_hint.
  destruct self. reflexivity.
Qed.
